(** * WeatherArt: a shallow embedding of [WeatherArt.py]

    The development follows the Python module top to bottom: the helper
    functions on strings and files, the forecast extraction from the JSON
    payload, the session state with the two no-repeat pools, the three
    recommendation operations, [process_query] and [main].

    Conventions.
    - A Python [str] is a [string] holding its UTF-8 bytes.  Equality, [in],
      [split] and the ASCII character classes of the regular expressions are
      the same on code points and on UTF-8 bytes.
    - A Python exception is a value of [exn]; code that can raise returns
      [py_result].
    - [random.choice] takes the drawn position as an explicit argument.
    - A function under [st.cache_data] is its body: what a call does when no
      value is cached for its arguments.
    - Library functions whose code is not part of the module
      ([fuzz.partial_ratio], [fuzz.ratio], [str.lower], [strptime],
      [base64.b64encode], [str()] of a value) are Section variables. *)

From stdpp Require Import base option list strings gmap sets.
From Stdlib Require Import ZArith Lia Ascii String DecimalString.

Open Scope string_scope.

(** ** Strings as Python uses them *)

Module Str.

(** [s.startswith(p)], returning what follows [p]. *)
Fixpoint strip_prefix (p s : string) : option string :=
  match p with
  | EmptyString => Some s
  | String a p' =>
      match s with
      | EmptyString => None
      | String b s' => if Ascii.eqb a b then strip_prefix p' s' else None
      end
  end.

Definition startswith (s p : string) : bool :=
  match strip_prefix p s with Some _ => true | None => false end.

(** [sub in s] *)
Fixpoint contains (sub s : string) : bool :=
  if startswith s sub then true
  else match s with
       | EmptyString => false
       | String _ s' => contains sub s'
       end.

(** [s.endswith(p)] *)
Fixpoint endswith (s p : string) : bool :=
  if String.eqb s p then true
  else match s with
       | EmptyString => false
       | String _ s' => endswith s' p
       end.

(** The longest prefix of [s] whose characters satisfy [f], and the rest. *)
Fixpoint span (f : ascii -> bool) (s : string) : string * string :=
  match s with
  | EmptyString => (EmptyString, EmptyString)
  | String c s' =>
      if f c then let '(a, b) := span f s' in (String c a, b)
      else (EmptyString, s)
  end.

Fixpoint drop (n : nat) (s : string) : string :=
  match n, s with
  | O, _ => s
  | S _, EmptyString => EmptyString
  | S n', String _ s' => drop n' s'
  end.

(** [s.split(sep)] for a non-empty [sep]: the pieces between the
    non-overlapping occurrences of [sep], found left to right.  [skip]
    counts the characters of a separator still to be passed over and [cur]
    is the piece being read. *)
Fixpoint split_go (sep s : string) (skip : nat) (cur : string) : list string :=
  match s with
  | EmptyString => [cur]
  | String c s' =>
      match skip with
      | S k => split_go sep s' k cur
      | O =>
          if startswith s sep
          then cur :: split_go sep s' (String.length sep - 1) EmptyString
          else split_go sep s' 0 (cur ++ String c EmptyString)
      end
  end.

Definition split (s sep : string) : list string := split_go sep s 0 EmptyString.

Definition in_range (lo hi c : ascii) : bool :=
  (nat_of_ascii lo <=? nat_of_ascii c)%nat && (nat_of_ascii c <=? nat_of_ascii hi)%nat.

(** [\d], on ASCII text. *)
Definition is_digit (c : ascii) : bool := in_range "0" "9" c.

(** Truth value of a string: [bool(s)]. *)
Definition truthy (s : string) : bool :=
  match s with EmptyString => false | _ => true end.

(** [x if x else None] for a string or [None] *)
Definition if_truthy (x : option string) : option string :=
  match x with
  | Some s => if truthy s then Some s else None
  | None => None
  end.

End Str.

(** ** [extract_youtube_id] *)

(** The character class [[a-zA-Z0-9_-]]. *)
Definition is_id_char (c : ascii) : bool :=
  Str.in_range "a" "z" c || Str.in_range "A" "Z" c || Str.in_range "0" "9" c
  || Ascii.eqb c "_" || Ascii.eqb c "-".

(** [[a-zA-Z0-9_-]{n}] at the head of [s]: the [n] characters matched. *)
Fixpoint take_id_chars (n : nat) (s : string) : option string :=
  match n with
  | O => Some EmptyString
  | S n' =>
      match s with
      | EmptyString => None
      | String c s' =>
          if is_id_char c
          then match take_id_chars n' s' with
               | Some g => Some (String c g)
               | None => None
               end
          else None
      end
  end.

(** The alternatives of [(?:v=|youtu\.be/|embed/|live/)], in order. *)
Definition id_markers : list string := ["v="; "youtu.be/"; "embed/"; "live/"].

(** The first pattern anchored at the head of [s]: the alternatives are tried
    in order, each followed by exactly eleven identifier characters. *)
Fixpoint match_markers (alts : list string) (s : string) : option string :=
  match alts with
  | [] => None
  | p :: alts' =>
      match Str.strip_prefix p s with
      | Some r =>
          match take_id_chars 11 r with
          | Some g => Some g
          | None => match_markers alts' s
          end
      | None => match_markers alts' s
      end
  end.

(** [re.search(r'(?:v=|youtu\.be/|embed/|live/)([a-zA-Z0-9_-]{11})', url)]:
    group 1 of the leftmost match. *)
Fixpoint search_marker_id (s : string) : option string :=
  match match_markers id_markers s with
  | Some g => Some g
  | None =>
      match s with
      | EmptyString => None
      | String _ s' => search_marker_id s'
      end
  end.

Definition usercontent_literal : string := "googleusercontent.com/youtube.com/".

(** [\d+([a-zA-Z0-9_-]+)] at the head of [r], where the greedy [\d+] is
    tried with [j] digits, then [j-1], down to one. *)
Fixpoint digits_then_id (j : nat) (r : string) : option string :=
  match j with
  | O => None
  | S j' =>
      let g := fst (Str.span is_id_char (Str.drop j r)) in
      if Str.truthy g then Some g else digits_then_id j' r
  end.

Definition match_usercontent (s : string) : option string :=
  match Str.strip_prefix usercontent_literal s with
  | Some r => digits_then_id (String.length (fst (Str.span Str.is_digit r))) r
  | None => None
  end.

(** [re.search(r'googleusercontent\.com/youtube\.com/\d+([a-zA-Z0-9_-]+)', url)] *)
Fixpoint search_usercontent_id (s : string) : option string :=
  match match_usercontent s with
  | Some g => Some g
  | None =>
      match s with
      | EmptyString => None
      | String _ s' => search_usercontent_id s'
      end
  end.

(** [parts[1].split(sep)[0]] for [parts = url.split(marker)], when
    [len(parts) > 1]. *)
Definition second_piece_upto (url marker sep : string) : option string :=
  match Str.split url marker with
  | _ :: p :: _ => head (Str.split p sep)
  | _ => None
  end.

Definition extract_youtube_id (url : string) : option string :=
  match search_marker_id url with
  | Some g => Some g
  | None =>
      match search_usercontent_id url with
      | Some g => Some g
      | None =>
          if Str.contains "youtube.com/watch?v=" url
          then second_piece_upto url "v=" "&"
          else if Str.contains "youtu.be/" url
          then second_piece_upto url "youtu.be/" "?"
          else if Str.contains "googleusercontent.com/youtube.com/1" url
          then second_piece_upto url "googleusercontent.com/youtube.com/1" "?"
          else None
      end
  end.

(** ** Exceptions *)

(** The exceptions the module can meet.  [RequestException] stands for the
    whole [requests.exceptions] hierarchy. *)
Inductive exn : Type :=
| KeyError (key : string)
| IndexError
| TypeError
| ValueError
| AttributeError
| NameError (name : string)
| FileNotFoundError (path : string)
| IsADirectoryError (path : string)
| RequestException (detail : string).

Inductive py_result (A : Type) : Type :=
| Returned (a : A)
| Raised (e : exn).
Arguments Returned {A} a.
Arguments Raised {A} e.

#[global] Instance py_ret : MRet py_result := fun _ a => Returned a.
#[global] Instance py_bind : MBind py_result := fun _ _ f m =>
  match m with
  | Returned a => f a
  | Raised e => Raised e
  end.

Definition is_returned {A} (r : py_result A) : bool :=
  match r with Returned _ => true | Raised _ => false end.

(** ** Files *)

Inductive fs_entry : Type :=
| RegularFile (contents : string)
| Directory.

(** The part of the file system the program looks at, by path. *)
Abbreviation filesystem := (gmap string fs_entry).

Module os_path.

(** [os.path.join(a, b)] on POSIX. *)
Definition join (a b : string) : string :=
  if Str.startswith b "/" then b
  else if negb (Str.truthy a) || Str.endswith a "/" then a ++ b
  else a ++ "/" ++ b.

(** [os.path.exists(path)] *)
Definition exists_ (fs : filesystem) (path : string) : bool :=
  bool_decide (is_Some (fs !! path)).

End os_path.

(** [open(path, "rb").read()] *)
Definition read_binary (fs : filesystem) (path : string) : py_result string :=
  match fs !! path with
  | Some (RegularFile contents) => Returned contents
  | Some Directory => Raised (IsADirectoryError path)
  | None => Raised (FileNotFoundError path)
  end.

Definition EXCEL_FILE_PATH : string := "YT_weather_matched.xlsx".
Definition MOVIE_POSTER_LOCAL_DIR : string := "movie".
Definition WEATHER_CODES_FILE_PATH : string := "weather_codes.csv".
Definition WEATHER_IMAGES_DIR : string := "images".
Definition IMAGE_EXTENSIONS : list string := ["png"; "gif"; "jpg"; "jpeg"].

(** The first extension [ext] of [exts], in order, for which
    [os.path.join(base_dir, f"{name}.{ext}")] exists: the body of each of
    the two [for] loops of [get_image_path_or_default]. *)
Fixpoint first_existing (fs : filesystem) (base_dir name : string) (exts : list string)
  : option string :=
  match exts with
  | [] => None
  | ext :: exts' =>
      let path := os_path.join base_dir (name ++ "." ++ ext) in
      if os_path.exists_ fs path then Some path
      else first_existing fs base_dir name exts'
  end.

(** [code] is the category code already formatted by the f-string. *)
Definition get_image_path_or_default (fs : filesystem) (base_dir code : string)
  : option string :=
  match first_existing fs base_dir code IMAGE_EXTENSIONS with
  | Some specific_path => Some specific_path
  | None => first_existing fs base_dir "default" IMAGE_EXTENSIONS
  end.

(** ** Python values

    What [res.json()] returns, and what the cells of the tables hold.  An object keeps its members in document
    order; a repeated key reads as its last value, as [json.loads] has it. *)
#[warnings="-register-all"]
Inductive value : Type :=
| VNone
| VBool (b : bool)
| VInt (n : Z)
| VFloat (mantissa exponent : Z)
| VStr (s : string)
| VList (items : list value)
| VDict (members : list (string * value)).

Module Py.

Fixpoint dict_lookup (k : string) (ms : list (string * value)) : option value :=
  match ms with
  | [] => None
  | (k', v) :: ms' =>
      match dict_lookup k ms' with
      | Some v' => Some v'
      | None => if String.eqb k k' then Some v else None
      end
  end.

(** [v == s] for a string [s] *)
Definition eq_str (v : value) (s : string) : bool :=
  match v with VStr t => String.eqb t s | _ => false end.

(** [bool(v)] *)
Definition truthy (v : value) : bool :=
  match v with
  | VNone => false
  | VBool b => b
  | VInt n => negb (n =? 0)%Z
  | VFloat m _ => negb (m =? 0)%Z
  | VStr s => Str.truthy s
  | VList items => match items with [] => false | _ => true end
  | VDict ms => match ms with [] => false | _ => true end
  end.

(** [k in v] *)
Definition contains (k : string) (v : value) : py_result bool :=
  match v with
  | VDict ms => Returned (bool_decide (is_Some (dict_lookup k ms)))
  | VList items => Returned (existsb (fun x => eq_str x k) items)
  | VStr s => Returned (Str.contains k s)
  | _ => Raised TypeError
  end.

(** [v[k]] for a string [k] *)
Definition getitem (v : value) (k : string) : py_result value :=
  match v with
  | VDict ms =>
      match dict_lookup k ms with
      | Some x => Returned x
      | None => Raised (KeyError k)
      end
  | _ => Raised TypeError
  end.

(** Number of bytes of the UTF-8 character that starts with byte [c]. *)
Definition utf8_width (c : ascii) : nat :=
  let n := nat_of_ascii c in
  if (n <? 192)%nat then 1 else if (n <? 224)%nat then 2
  else if (n <? 240)%nat then 3 else 4.

(** The characters of a string, each as a string: [list(s)]. *)
Fixpoint chars_go (s : string) (more : nat) (cur : string) : list string :=
  match s with
  | EmptyString => if Str.truthy cur then [cur] else []
  | String c s' =>
      match more with
      | S k =>
          let cur' := cur ++ String c EmptyString in
          match k with
          | O => cur' :: chars_go s' 0 EmptyString
          | S _ => chars_go s' k cur'
          end
      | O =>
          match utf8_width c with
          | 1 => String c EmptyString :: chars_go s' 0 EmptyString
          | w => chars_go s' (w - 1) (String c EmptyString)
          end
      end
  end.

Definition chars (s : string) : list string := chars_go s 0 EmptyString.

(** The keys of a dict, each once, in order of first appearance. *)
Definition dict_keys (ms : list (string * value)) : list string :=
  remove_dups (ms.*1).

(** [v[0]] *)
Definition getitem0 (v : value) : py_result value :=
  match v with
  | VList items =>
      match items with
      | x :: _ => Returned x
      | [] => Raised IndexError
      end
  | VStr s =>
      match chars s with
      | c :: _ => Returned (VStr c)
      | [] => Raised IndexError
      end
  | VDict _ => Raised (KeyError "0")
  | _ => Raised TypeError
  end.

(** The values a [for] loop over [v] sees. *)
Definition iterate (v : value) : py_result (list value) :=
  match v with
  | VList items => Returned items
  | VDict ms => Returned (VStr <$> dict_keys ms)
  | VStr s => Returned (VStr <$> chars s)
  | _ => Raised TypeError
  end.

(** [v.get(k)] *)
Definition get (v : value) (k : string) : py_result value :=
  match v with
  | VDict ms => Returned (default VNone (dict_lookup k ms))
  | _ => Raised AttributeError
  end.

(** [v + s] for a string [s] *)
Definition add_str (v : value) (s : string) : py_result string :=
  match v with
  | VStr t => Returned (t ++ s)
  | _ => Raised TypeError
  end.

(** [str(n)] for an integer *)
Definition str_of_Z (n : Z) : string := NilZero.string_of_int (Z.to_int n).

End Py.

(** ** Dates *)

(** A naive [datetime.datetime] with no fraction of a second, which is what
    parsing with ['%Y-%m-%d %H:%M:%S'] gives. *)
Record datetime : Type := {
  year : Z; month : Z; day : Z; hour : Z; minute : Z; second : Z
}.

Module Date.

Definition is_leap (y : Z) : bool :=
  ((y mod 4 =? 0) && (negb (y mod 100 =? 0) || (y mod 400 =? 0)))%Z.

Definition days_before_year (y : Z) : Z :=
  let p := (y - 1)%Z in (p * 365 + p / 4 - p / 100 + p / 400)%Z.

Definition days_in_month (y m : Z) : Z :=
  if (m =? 2)%Z then (if is_leap y then 29 else 28)%Z
  else if ((m =? 4) || (m =? 6) || (m =? 9) || (m =? 11))%Z then 30%Z
  else 31%Z.

Fixpoint days_before_month (y : Z) (m : nat) : Z :=
  match m with
  | O => 0%Z
  | S m' => (days_before_month y m' + days_in_month y (Z.of_nat m))%Z
  end.

(** [d.toordinal()] *)
Definition toordinal (d : datetime) : Z :=
  (days_before_year (year d) + days_before_month (year d) (Z.to_nat (month d - 1)) + day d)%Z.

(** Microseconds since the start of day 0; [a - b] on datetimes is the
    difference of these. *)
Definition micros (d : datetime) : Z :=
  ((((toordinal d * 24 + hour d) * 60 + minute d) * 60 + second d) * 1000000)%Z.

End Date.

(** ** The page, the session and the outside world *)

(** What [st.session_state] holds between runs.  The two sets of already
    recommended entries are created on first use, so each is optional;
    [initialized] tells whether the key ['initialized'] is present. *)
Record session_state : Type := {
  result_text : string;
  recommended_youtube_id : option string;
  recommended_image_url : option string;
  recommended_music_original_indices : option (gset Z);
  recommended_movie_indices : option (gset nat);
  recommended_weather_image_html : option string;
  weather_image_caption_desc : value;
  initialized : bool
}.

(** What [st.info], [st.warning], [st.error] and [st.markdown] put on the
    page. *)
Inductive notice : Type :=
| Info (msg : string)
| Warning (msg : string)
| Error (msg : string)
| Markdown (html : string).

Record world : Type := {
  session : session_state;
  page : list notice;
  requests : list string   (* the URLs fetched so far, oldest first *)
}.

Definition with_session (f : session_state -> session_state) (w : world) : world :=
  {| session := f (session w); page := page w; requests := requests w |}.

(** A computation that reads and writes the world and may raise. *)
Definition app (A : Type) : Type := world -> py_result A * world.

#[global] Instance app_ret : MRet app := fun _ a w => (Returned a, w).
#[global] Instance app_bind : MBind app := fun _ _ f m w =>
  match m w with
  | (Returned a, w') => f a w'
  | (Raised e, w') => (Raised e, w')
  end.

Definition lift {A} (r : py_result A) : app A := fun w => (r, w).

Definition notify (n : notice) : app unit := fun w =>
  (Returned tt, {| session := session w; page := page w ++ [n]; requests := requests w |}).

Definition fetch (url : string) : app unit := fun w =>
  (Returned tt, {| session := session w; page := page w; requests := requests w ++ [url] |}).

Definition get_session : app session_state := fun w => (Returned (session w), w).

Definition update_session (f : session_state -> session_state) : app unit := fun w =>
  (Returned tt, with_session f w).

(** ** [get_weather_data] *)

(** The dictionary [get_weather_data] returns; the constructor is its
    ["status"]. *)
Inductive weather_data : Type :=
| WeatherSuccess (description : value) (display_text : string)
                 (min_temp max_temp : value) (pop : string)
| WeatherError (display_text : string).

Definition status (r : weather_data) : string :=
  match r with
  | WeatherSuccess _ _ _ _ _ => "success"
  | WeatherError _ => "error"
  end.

Definition display_text_of (r : weather_data) : string :=
  match r with
  | WeatherSuccess _ t _ _ _ => t
  | WeatherError t => t
  end.

Definition weather_url (API_KEY city_name : string) : string :=
  "https://opendata.cwa.gov.tw/api/v1/rest/datastore/F-C0032-001?Authorization="
    ++ API_KEY ++ "&locationName=" ++ city_name.

Section Weather.

(** [datetime.datetime.strptime(s, '%Y-%m-%d %H:%M:%S')], [None] for
    [ValueError] *)
Variable strptime : string -> option datetime.
(** [datetime.datetime.now()], in microseconds *)
Variable now : Z.
(** [str(v)] *)
Variable py_str : value -> string.
(** [str(e)] *)
Variable exn_str : exn -> string.
(** The outcome of [requests.get(url, timeout=10)], [raise_for_status()]
    and [json()] *)
Variable http_get_json : string -> py_result value.

(** A value inside an f-string *)
Definition fmt (v : value) : string :=
  match v with VStr s => s | _ => py_str v end.

Definition parse_time (v : value) : py_result datetime :=
  match v with
  | VStr s =>
      match strptime s with
      | Some d => Returned d
      | None => Raised ValueError
      end
  | _ => Raised TypeError
  end.

(** [next((elem for elem in elems if elem['elementName'] == name), None)] *)
Fixpoint find_element (name : string) (elems : list value) : py_result (option value) :=
  match elems with
  | [] => Returned None
  | elem :: rest =>
      n ← Py.getitem elem "elementName";
      if Py.eq_str n name then Returned (Some elem) else find_element name rest
  end.

(** The loop that keeps the entries whose [startTime] parses; only
    [ValueError] is caught. *)
Fixpoint valid_times (items : list value) : py_result (list value) :=
  match items with
  | [] => Returned []
  | item :: rest =>
      s ← Py.getitem item "startTime";
      match parse_time s with
      | Returned _ => valid ← valid_times rest; Returned (item :: valid)
      | Raised ValueError => valid_times rest
      | Raised e => Raised e
      end
  end.

(** The loops over the periods of PoP, MinT and MaxT: the
    [parameterName] of the first period that contains [start_dt]. *)
Fixpoint covering_period (start_dt : datetime) (periods : list value)
  : py_result (option value) :=
  match periods with
  | [] => Returned None
  | p :: rest =>
      s ← Py.getitem p "startTime";
      p_start ← parse_time s;
      e ← Py.getitem p "endTime";
      p_end ← parse_time e;
      if ((Date.micros p_start <=? Date.micros start_dt)
          && (Date.micros start_dt <? Date.micros p_end))%Z
      then
        par ← Py.getitem p "parameter";
        v ← Py.getitem par "parameterName";
        Returned (Some v)
      else covering_period start_dt rest
  end.

(** [element['time'][0]['parameter']['parameterName']] *)
Definition first_period_value (element : value) : py_result value :=
  t ← Py.getitem element "time";
  p ← Py.getitem0 t;
  par ← Py.getitem p "parameter";
  Py.getitem par "parameterName".

Definition time_desc_of (hour : Z) : string :=
  if ((0 <=? hour) && (hour <? 6))%Z then "午夜到早晨"
  else if ((6 <=? hour) && (hour <? 12))%Z then "早晨到中午"
  else if ((12 <=? hour) && (hour <? 18))%Z then "中午到傍晚"
  else "傍晚到午夜".

(** The block that sets [pop]. *)
Definition rain_probability (start_dt : datetime) (elems : list value) : py_result string :=
  pop_element ← find_element "PoP" elems;
  match pop_element with
  | Some el =>
      if Py.truthy el then
        t ← Py.getitem el "time";
        periods ← Py.iterate t;
        found ← covering_period start_dt periods;
        match found with
        | Some v => Py.add_str v "%"
        | None =>
            t' ← Py.get el "time";
            if Py.truthy t'
            then v ← first_period_value el; Py.add_str v "%"
            else Returned "N/A"
        end
      else Returned "N/A"
  | None => Returned "N/A"
  end.

(** The blocks that set [min_temp] and [max_temp]. *)
Definition temperature (name : string) (start_dt : datetime) (elems : list value)
  : py_result value :=
  temp_element ← find_element name elems;
  match temp_element with
  | Some el =>
      if Py.truthy el then
        t ← Py.getitem el "time";
        periods ← Py.iterate t;
        found ← covering_period start_dt periods;
        let temp := default (VStr "N/A") found in
        if Py.eq_str temp "N/A" then
          t' ← Py.get el "time";
          if Py.truthy t' then first_period_value el else Returned temp
        else Returned temp
      else Returned (VStr "N/A")
  | None => Returned (VStr "N/A")
  end.

(** The key of the [min]: [abs(strptime(x['startTime'], ...) - now)] *)
Definition distance (item : value) : py_result Z :=
  s ← Py.getitem item "startTime";
  d ← parse_time s;
  Returned (Z.abs (Date.micros d - now)).

(** [min(items, key=distance)] once the first element has been read: a
    later element replaces the best one only when strictly nearer. *)
Fixpoint nearest (best : value) (best_key : Z) (items : list value) : py_result value :=
  match items with
  | [] => Returned best
  | y :: rest =>
      k ← distance y;
      if (k <? best_key)%Z then nearest y k rest else nearest best best_key rest
  end.

(** [A and B] where [B] is evaluated only if [A] holds *)
Definition and_then (a : py_result bool) (b : py_result bool) : py_result bool :=
  x ← a; if x : bool then b else Returned false.

(** The guard of line 143 *)
Definition has_locations (data : value) : py_result bool :=
  and_then (Py.contains "records" data)
    (and_then (records ← Py.getitem data "records"; Py.contains "location" records)
       (records ← Py.getitem data "records";
        locs ← Py.getitem records "location";
        Returned (Py.truthy locs))).

(** The body of the [try], from [data = res.json()] on. *)
Definition forecast_of_payload (city_name : string) (data : value) : py_result weather_data :=
  ok ← has_locations data;
  if ok : bool then
    records ← Py.getitem data "records";
    locs ← Py.getitem records "location";
    location_data ← Py.getitem0 locs;
    we ← Py.getitem location_data "weatherElement";
    elems ← Py.iterate we;
    wx ← find_element "Wx" elems;
    match wx with
    | Some wx_element =>
        if Py.truthy wx_element then
          time_elements ← Py.getitem wx_element "time";
          items ← Py.iterate time_elements;
          valid_time_elements ← valid_times items;
          match valid_time_elements with
          | [] =>
              Returned (WeatherError
                ("無法取得 " ++ city_name ++ " 天氣資料：預報時間數據無效。"))
          | x :: xs =>
              d0 ← distance x;
              forecast ← nearest x d0 xs;
              par ← Py.getitem forecast "parameter";
              desc ← Py.getitem par "parameterName";
              s ← Py.getitem forecast "startTime";
              start_dt ← parse_time s;
              let time_desc := time_desc_of (hour start_dt) in
              pop ← rain_probability start_dt elems;
              min_temp ← temperature "MinT" start_dt elems;
              max_temp ← temperature "MaxT" start_dt elems;
              let display_text :=
                city_name ++ " " ++ Py.str_of_Z (month start_dt) ++ "/"
                  ++ Py.str_of_Z (day start_dt) ++ " " ++ time_desc
                  ++ "是：**" ++ fmt desc ++ "**，"
                  ++ "氣溫介於 **" ++ fmt min_temp ++ "°C** 到 **" ++ fmt max_temp
                  ++ "°C**，降雨機率 **" ++ pop ++ "** 喔！" in
              Returned (WeatherSuccess desc display_text min_temp max_temp pop)
          end
        else
          Returned (WeatherError
            ("無法取得 " ++ city_name ++ " 天氣資料：缺少 Wx 元素。"))
    | None =>
        Returned (WeatherError
          ("無法取得 " ++ city_name ++ " 天氣資料：缺少 Wx 元素。"))
    end
  else
    Returned (WeatherError
      ("無法取得 " ++ city_name ++ " 天氣資料：資料結構異常或該縣市無預報資料。")).

(** [API_KEY] is [None] when the module-level read of the secret failed
    and left the name unbound. *)
Definition get_weather_data (API_KEY : option string) (city_name : string)
  : app weather_data :=
  match API_KEY with
  | None => lift (Raised (NameError "API_KEY"))
  | Some key =>
      let url := weather_url key city_name in
      _ ← fetch url;
      lift (Returned
        match data ← http_get_json url; forecast_of_payload city_name data with
        | Returned r => r
        | Raised (RequestException d) =>
            WeatherError
              ("無法取得 " ++ city_name ++ " 天氣資料：網路或 API 錯誤 ("
                 ++ exn_str (RequestException d) ++ ")。請檢查您的 API 金鑰是否有效。")
        | Raised e =>
            WeatherError
              ("處理 " ++ city_name ++ " 天氣資料時發生錯誤: " ++ exn_str e)
        end)
  end.

End Weather.

(** ** The catalogues *)

Module Video.
(** An entry of [all_videos]: [{'index', 'url', 'desc', 'title'}] *)
Record t : Type := { index : Z; url : string; desc : string; title : string }.
End Video.

Module Movie.
(** An entry of [all_movies]: [{'title', 'poster_url'}] *)
Record t : Type := { title : string; poster_url : string }.
End Movie.

(** [random.choice(seq)], the drawn position being [k mod len(seq)]; on an
    empty sequence it raises [IndexError]. *)
Definition random_choice {A} (k : nat) (seq : list A) : py_result A :=
  match seq !! (k mod List.length seq)%nat with
  | Some x => Returned x
  | None => Raised IndexError
  end.

(** ** Session state *)

Definition set_result_text (x : string) (s : session_state) : session_state :=
  {| result_text := x;
     recommended_youtube_id := recommended_youtube_id s;
     recommended_image_url := recommended_image_url s;
     recommended_music_original_indices := recommended_music_original_indices s;
     recommended_movie_indices := recommended_movie_indices s;
     recommended_weather_image_html := recommended_weather_image_html s;
     weather_image_caption_desc := weather_image_caption_desc s;
     initialized := initialized s |}.

Definition set_recommended_youtube_id (x : option string) (s : session_state) : session_state :=
  {| result_text := result_text s;
     recommended_youtube_id := x;
     recommended_image_url := recommended_image_url s;
     recommended_music_original_indices := recommended_music_original_indices s;
     recommended_movie_indices := recommended_movie_indices s;
     recommended_weather_image_html := recommended_weather_image_html s;
     weather_image_caption_desc := weather_image_caption_desc s;
     initialized := initialized s |}.

Definition set_recommended_image_url (x : option string) (s : session_state) : session_state :=
  {| result_text := result_text s;
     recommended_youtube_id := recommended_youtube_id s;
     recommended_image_url := x;
     recommended_music_original_indices := recommended_music_original_indices s;
     recommended_movie_indices := recommended_movie_indices s;
     recommended_weather_image_html := recommended_weather_image_html s;
     weather_image_caption_desc := weather_image_caption_desc s;
     initialized := initialized s |}.

Definition set_recommended_music_original_indices (x : option (gset Z)) (s : session_state) : session_state :=
  {| result_text := result_text s;
     recommended_youtube_id := recommended_youtube_id s;
     recommended_image_url := recommended_image_url s;
     recommended_music_original_indices := x;
     recommended_movie_indices := recommended_movie_indices s;
     recommended_weather_image_html := recommended_weather_image_html s;
     weather_image_caption_desc := weather_image_caption_desc s;
     initialized := initialized s |}.

Definition set_recommended_movie_indices (x : option (gset nat)) (s : session_state) : session_state :=
  {| result_text := result_text s;
     recommended_youtube_id := recommended_youtube_id s;
     recommended_image_url := recommended_image_url s;
     recommended_music_original_indices := recommended_music_original_indices s;
     recommended_movie_indices := x;
     recommended_weather_image_html := recommended_weather_image_html s;
     weather_image_caption_desc := weather_image_caption_desc s;
     initialized := initialized s |}.

Definition set_recommended_weather_image_html (x : option string) (s : session_state) : session_state :=
  {| result_text := result_text s;
     recommended_youtube_id := recommended_youtube_id s;
     recommended_image_url := recommended_image_url s;
     recommended_music_original_indices := recommended_music_original_indices s;
     recommended_movie_indices := recommended_movie_indices s;
     recommended_weather_image_html := x;
     weather_image_caption_desc := weather_image_caption_desc s;
     initialized := initialized s |}.

Definition set_weather_image_caption_desc (x : value) (s : session_state) : session_state :=
  {| result_text := result_text s;
     recommended_youtube_id := recommended_youtube_id s;
     recommended_image_url := recommended_image_url s;
     recommended_music_original_indices := recommended_music_original_indices s;
     recommended_movie_indices := recommended_movie_indices s;
     recommended_weather_image_html := recommended_weather_image_html s;
     weather_image_caption_desc := x;
     initialized := initialized s |}.

Definition set_initialized (x : bool) (s : session_state) : session_state :=
  {| result_text := result_text s;
     recommended_youtube_id := recommended_youtube_id s;
     recommended_image_url := recommended_image_url s;
     recommended_music_original_indices := recommended_music_original_indices s;
     recommended_movie_indices := recommended_movie_indices s;
     recommended_weather_image_html := recommended_weather_image_html s;
     weather_image_caption_desc := weather_image_caption_desc s;
     initialized := x |}.

Definition reset_recommendation_states : app unit :=
  _ ← update_session (set_result_text "");
  _ ← update_session (set_recommended_youtube_id None);
  _ ← update_session (set_recommended_image_url None);
  _ ← update_session (set_recommended_weather_image_html None);
  update_session (set_weather_image_caption_desc VNone).

(** The set of indices already recommended, once it exists. *)
Definition music_recommended : app (gset Z) :=
  s ← get_session;
  match recommended_music_original_indices s with
  | Some r => mret r
  | None => lift (Raised AttributeError)
  end.

Definition movie_recommended : app (gset nat) :=
  s ← get_session;
  match recommended_movie_indices s with
  | Some r => mret r
  | None => lift (Raised AttributeError)
  end.

Definition get_available_music_indices (all_videos : list Video.t) : app (list Z) :=
  s ← get_session;
  _ ← (if recommended_music_original_indices s is None
       then update_session (set_recommended_music_original_indices (Some ∅))
       else mret tt);
  let all_original_indices : gset Z := list_to_set (Video.index <$> all_videos) in
  r ← music_recommended;
  let available_original_indices := elements (all_original_indices ∖ r) in
  if bool_decide (available_original_indices = [])
     && (0 <? size all_original_indices)%nat
  then
    _ ← update_session (set_recommended_music_original_indices (Some ∅));
    _ ← notify (Info "所有音樂都推薦過了，已重置音樂推薦列表。");
    mret (elements all_original_indices)
  else mret available_original_indices.

(** [[video for video in all_videos if video['index'] in indices]] *)
Definition videos_with_index_in (indices : list Z) (all_videos : list Video.t)
  : list Video.t :=
  filter (fun video => Video.index video ∈ indices) all_videos.

(** [st.session_state.recommended_music_original_indices.add(i)] *)
Definition add_recommended_music (i : Z) : app unit :=
  r ← music_recommended;
  update_session (set_recommended_music_original_indices (Some (r ∪ {[i]}))).

Definition add_recommended_movie (i : nat) : app unit :=
  r ← movie_recommended;
  update_session (set_recommended_movie_indices (Some (r ∪ {[i]}))).

Definition random_music_recommendation (all_videos : list Video.t) (k : nat)
  : app (string * option string) :=
  if bool_decide (all_videos = []) then
    mret ("音樂列表為空，無法隨機推薦音樂。", None)
  else
    available_original_indices ← get_available_music_indices all_videos;
    let available_videos_for_random :=
      videos_with_index_in available_original_indices all_videos in
    if bool_decide (available_videos_for_random = []) then
      mret ("沒有可用的音樂可以隨機推薦了。", None)
    else
      selected_video ← lift (random_choice k available_videos_for_random);
      _ ← add_recommended_music (Video.index selected_video);
      match Str.if_truthy (extract_youtube_id (Video.url selected_video)) with
      | Some youtube_id => mret ("已為您隨機推薦歌曲：", Some youtube_id)
      | None => mret ("無法從連結中提取影片ID。請重新點選。", None)
      end.

Definition newline : string := String (ascii_of_nat 10) EmptyString.

Section Music.

(** [fuzz.partial_ratio(a, b)] *)
Variable partial_ratio : string -> string -> Z.
(** [s.lower()] *)
Variable str_lower : string -> string.

(** [v.lower()] *)
Definition lower (v : value) : py_result string :=
  match v with
  | VStr s => Returned (str_lower s)
  | _ => Raised AttributeError
  end.

(** The scoring loop: [matched] and [best] are
    [matched_available_videos_with_score] and [best_score_overall]. *)
Fixpoint score_videos (weather_desc : value) (videos : list Video.t)
    (matched : list (Video.t * Z)) (best : Z)
  : py_result (list (Video.t * Z) * Z) :=
  match videos with
  | [] => Returned (matched, best)
  | video :: rest =>
      w ← lower weather_desc;
      let score := partial_ratio w (str_lower (Video.desc video)) in
      if (30 <=? score)%Z
      then score_videos weather_desc rest (matched ++ [(video, score)])
             (if (best <? score)%Z then score else best)
      else score_videos weather_desc rest matched best
  end.

(** [[video_item for video_item, score_val in matched if score_val == best]] *)
Definition top_score_matches (matched : list (Video.t * Z)) (best : Z) : list Video.t :=
  fst <$> filter (fun m => m.2 = best) matched.

Definition find_and_recommend_music (weather_desc : value) (all_videos : list Video.t)
    (k : nat) : app (string * option string) :=
  if bool_decide (all_videos = []) then
    mret ("音樂列表為空，無法推薦音樂。", None)
  else
    available_original_indices ← get_available_music_indices all_videos;
    let available_videos := videos_with_index_in available_original_indices all_videos in
    available ←
      (if bool_decide (available_videos = []) then
         again ← get_available_music_indices all_videos;
         let available_videos := videos_with_index_in again all_videos in
         if bool_decide (available_videos = []) then mret None
         else mret (Some available_videos)
       else mret (Some available_videos));
    match available with
    | None => mret ("沒有可用的音樂可以隨機推薦了。", None)
    | Some available_videos =>
        '(matched, best_score_overall) ←
          lift (score_videos weather_desc available_videos [] (-1)%Z);
        selected ←
          (if bool_decide (matched = []) then mret None
           else v ← lift (random_choice k (top_score_matches matched best_score_overall));
                mret (Some v));
        match selected with
        | Some selected_video =>
            let youtube_id := extract_youtube_id (Video.url selected_video) in
            _ ← add_recommended_music (Video.index selected_video);
            let display_text := "這樣的天氣來聽這首療癒一下吧！" in
            match Str.if_truthy youtube_id with
            | Some i => mret (display_text, Some i)
            | None =>
                mret (display_text ++ newline ++ "(抱歉，無法從連結中提取影片ID。)", None)
            end
        | None => random_music_recommendation all_videos k
        end
    end.

End Music.

Definition random_movie_recommendation (all_movies : list Movie.t) (k : nat)
  : app (string * option string * Z) :=
  if bool_decide (all_movies = []) then
    mret ("電影列表為空，無法隨機推薦電影。", None, 0%Z)
  else
    s ← get_session;
    _ ← (if recommended_movie_indices s is None
         then update_session (set_recommended_movie_indices (Some ∅))
         else mret tt);
    let all_list_indices : gset nat := list_to_set (seq 0 (List.length all_movies)) in
    r ← movie_recommended;
    let available_indices := elements (all_list_indices ∖ r) in
    available ←
      (if bool_decide (available_indices = []) then
         _ ← update_session (set_recommended_movie_indices (Some ∅));
         _ ← notify (Info "所有電影都推薦過了，已重置電影推薦列表。");
         mret (elements all_list_indices)
       else mret available_indices);
    selected_index ← lift (random_choice k available);
    match all_movies !! selected_index with
    | Some selected_movie =>
        _ ← add_recommended_movie selected_index;
        let remaining_count := (Z.of_nat (List.length available) - 1)%Z in
        mret (Movie.title selected_movie, Some (Movie.poster_url selected_movie),
              remaining_count)
    | None => lift (Raised IndexError)
    end.

(** ** The correction table *)

(** The items of the dict literal, in source order. *)
Definition MANUAL_CORRECTIONS_items : list (string * string) := [
    ("台北市", "臺北市"); ("台北", "臺北市"); ("北市", "臺北市"); ("北", "臺北市");
    ("新北", "新北市"); ("臺北縣", "新北市");
    ("桃園", "桃園市"); ("桃園縣", "桃園市"); ("桃", "桃園市"); ("園", "桃園市");
    ("台中", "臺中市"); ("台中市", "臺中市"); ("台中縣", "臺中市"); ("臺中縣", "臺中市"); ("中縣", "臺中市"); ("中市", "臺中市"); ("臺中", "臺中市"); ("中", "臺中市");
    ("台南", "臺南市"); ("台南市", "臺南市"); ("臺南", "臺南市"); ("台南縣", "臺南市"); ("臺南縣", "臺南市");
    ("高雄", "高雄市"); ("雄市", "高雄市"); ("雄", "高雄市"); ("高雄縣", "高雄市");
    ("基隆", "基隆市"); ("基", "基隆市"); ("隆", "基隆市"); ("雞", "基隆市"); ("籠", "基隆市"); ("雞籠", "基隆市"); ("基隆縣", "基隆市"); ("基市", "基隆市"); ("隆市", "基隆市"); ("雞市", "基隆市"); ("籠市", "基隆市"); ("雞籠市", "基隆市"); ("雞籠縣", "基隆市"); ("雞縣", "基隆市"); ("籠縣", "基隆市");
    ("新竹", "新竹市"); ("竹", "新竹市"); ("竹市", "新竹市"); ("竹縣", "新竹縣");
    ("嘉義", "嘉義市"); ("嘉", "嘉義市"); ("義", "嘉義市"); ("嘉縣", "嘉義縣"); ("義縣", "嘉義縣");
    ("苗栗", "苗栗縣"); ("苗", "苗栗縣"); ("栗", "苗栗縣"); ("栗縣", "苗栗縣"); ("苗縣", "苗栗縣"); ("苗栗市", "苗栗縣");
    ("彰化", "彰化縣"); ("彰", "彰化縣"); ("化", "彰化縣"); ("彰縣", "彰化縣"); ("化縣", "彰化縣"); ("彰化市", "彰化縣");
    ("南投", "南投縣"); ("投", "南投縣"); ("投縣", "南投縣"); ("南投市", "南投縣");
    ("雲林", "雲林縣"); ("雲", "雲林縣"); ("林", "雲林縣"); ("雲縣", "雲林縣"); ("林縣", "雲林縣"); ("雲林市", "雲林縣");
    ("屏東", "屏東縣"); ("屏", "屏東縣"); ("屏縣", "屏東縣"); ("屏東市", "屏東縣"); ("琉球嶼", "屏東縣"); ("小琉球", "屏東縣"); ("琉球", "屏東縣");
    ("宜蘭", "宜蘭縣"); ("宜", "宜蘭縣"); ("蘭", "宜蘭縣"); ("宜縣", "宜蘭縣"); ("蘭縣", "宜蘭縣"); ("宜蘭市", "宜蘭縣"); ("龜山島", "宜蘭縣");
    ("花蓮", "花蓮縣"); ("花", "花蓮縣"); ("蓮", "花蓮縣"); ("花縣", "花蓮縣"); ("蓮縣", "花蓮縣"); ("花蓮市", "花蓮縣");
    ("台東", "臺東縣"); ("台東縣", "臺東縣"); ("台東市", "臺東市"); ("綠島", "臺東縣"); ("綠鳥", "臺東縣"); ("蘭嶼", "臺東縣");
    ("澎湖", "澎湖縣"); ("澎", "澎湖縣"); ("湖", "澎湖縣"); ("澎縣", "澎湖縣"); ("湖縣", "澎湖縣"); ("澎湖市", "澎湖縣");
    ("金門", "金門縣"); ("金", "金門縣"); ("門", "金門縣"); ("金縣", "金門縣"); ("門縣", "金門縣"); ("金門市", "金門縣");
    ("連江", "連江縣"); ("連江市", "連江縣"); ("馬祖", "連江縣"); ("馬縣", "連江縣"); ("祖縣", "連江縣"); ("連", "連江縣"); ("江", "連江縣"); ("連縣", "連江縣")
  ].

(** The dict: a key written twice keeps its last value. *)
Definition MANUAL_CORRECTIONS : gmap string string :=
  foldl (fun m kv => <[kv.1 := kv.2]> m) ∅ MANUAL_CORRECTIONS_items.

(** ** Tables read through pandas *)

(** A row of the Excel sheet as [df.iterrows()] yields it: its label and the
    cells of the three columns the program reads ([None]: the sheet has no
    such column). *)
Record excel_row : Type := {
  row_label : Z;
  row_url : option value;          (* 影片URL *)
  row_desc : option value;         (* matched_weather_descriptions *)
  row_title : option value         (* 歌曲名稱 *)
}.

(** [series.to_dict()]: a label met again keeps its place and takes the new
    value. *)
Fixpoint to_dict (rows : list (string * value)) (acc : list (string * value))
  : list (string * value) :=
  match rows with
  | [] => acc
  | (k, v) :: rest =>
      to_dict rest
        (if bool_decide (k ∈ acc.*1)
         then (fun kv => if String.eqb kv.1 k then (k, v) else kv) <$> acc
         else acc ++ [(k, v)])
  end.

(** ** The application *)

Definition double_quote : string := String (ascii_of_nat 34) EmptyString.

(** What follows the last [c] in [s]; all of [s] when there is none:
    [s.split(c)[-1]]. *)
Definition after_last (s c : string) : string :=
  default s (last (Str.split s c)).

(** What precedes the last [c] in [s]; all of [s] when there is none:
    [s.rsplit(c, 1)[0]]. *)
Fixpoint before_last (c : ascii) (s : string) : option string :=
  match s with
  | EmptyString => None
  | String a s' =>
      match before_last c s' with
      | Some r => Some (String a r)
      | None => if Ascii.eqb a c then Some EmptyString else None
      end
  end.

(** [os.path.isdir] and [os.path.isfile] *)
Definition isdir (fs : filesystem) (path : string) : bool :=
  match fs !! path with Some Directory => true | _ => false end.

Definition isfile (fs : filesystem) (path : string) : bool :=
  match fs !! path with Some (RegularFile _) => true | _ => false end.

(** [os.listdir(dir)]: the names directly under [dir]. *)
Definition listdir (fs : filesystem) (dir : string) : list string :=
  omap (fun '(path, _) =>
          match Str.strip_prefix (dir ++ "/") path with
          | Some name =>
              if Str.truthy name && negb (Str.contains "/" name) then Some name else None
          | None => None
          end)
       (map_to_list fs).

(** Which of the four sidebar buttons was pressed in this run. *)
Inductive button : Type :=
| QueryWeather
| QueryWeatherAndMusic
| RandomMusic
| RandomMovie.

Section App.

Variable strptime : string -> option datetime.
Variable now : Z.
Variable py_str : value -> string.
Variable exn_str : exn -> string.
Variable http_get_json : string -> py_result value.
Variable partial_ratio : string -> string -> Z.
(** [fuzz.ratio(a, b)] *)
Variable ratio : string -> string -> Z.
Variable str_lower : string -> string.
(** [s.strip()] *)
Variable str_strip : string -> string.
(** [base64.b64encode(data).decode()] *)
Variable b64encode : string -> string.
(** [pd.read_excel(path)] and the two columns [pd.read_csv(path)] is read
    for, 中文描述 and 分類代碼, row by row *)
Variable read_excel : string -> py_result (list excel_row).
Variable read_csv : string -> py_result (list (string * value)).
Variable fs : filesystem.
(** [st.secrets] *)
Variable secrets : gmap string string.

Local Abbreviation fmt := (fmt py_str).

(** The module-level [try]: the key, or a message and an unbound name. *)
Definition read_API_KEY : app (option string) :=
  match secrets !! "API_KEY" with
  | Some key => mret (Some key)
  | None =>
      _ ← notify (Error "錯誤：Streamlit Secrets 中未找到 'API_KEY'。請確保您已在 .streamlit/secrets.toml 中設定 API_KEY。");
      mret None
  end.

Definition set_background (image_file : string) : app unit :=
  contents ← lift (read_binary fs image_file);
  let encoded := b64encode contents in
  notify (Markdown
    (newline ++ "        <style>" ++ newline
     ++ "        .stApp {" ++ newline
     ++ "            background-image: url(" ++ double_quote
     ++ "data:image/jpg;base64," ++ encoded ++ double_quote ++ ");" ++ newline
     ++ "            background-size: cover;" ++ newline
     ++ "            background-repeat: no-repeat;" ++ newline
     ++ "            background-attachment: fixed;" ++ newline
     ++ "        }" ++ newline
     ++ "        </style>" ++ newline ++ "    ")).

Definition load_local_image_as_base64 (image_path : string) (width height : option Z)
  : app (option string) :=
  if negb (Str.truthy image_path) || negb (os_path.exists_ fs image_path) then mret None
  else
    let file_extension := str_lower (after_last image_path ".") in
    match read_binary fs image_path with
    | Returned contents =>
        let data_url := b64encode contents in
        let width_attr : list string :=
          match width with
          | Some w => if (w =? 0)%Z then [] else ["width: " ++ Py.str_of_Z w ++ "px;"]
          | None => []
          end in
        let height_attr : list string :=
          match height with
          | Some h => if (h =? 0)%Z then [] else ["height: " ++ Py.str_of_Z h ++ "px;"]
          | None => []
          end in
        let style_attrs := (width_attr ++ height_attr)%list in
        let style_str := String.concat " " style_attrs in
        let mime_type :=
          "image/" ++ (if String.eqb file_extension "jpg" then "jpeg" else file_extension) in
        mret (Some ("<img src=" ++ double_quote ++ "data:" ++ mime_type ++ ";base64,"
                      ++ data_url ++ double_quote ++ " alt=" ++ double_quote ++ "圖片"
                      ++ double_quote ++ " style=" ++ double_quote ++ style_str
                      ++ double_quote ++ ">"))
    | Raised e =>
        _ ← notify (Warning ("無法載入圖片 " ++ image_path ++ " 為 Base64：" ++ exn_str e));
        mret None
    end.

Definition default_location_names : list string :=
  ["臺北市"; "新北市"; "桃園市"; "臺中市"; "臺南市"; "高雄市"; "基隆市"; "新竹市";
   "嘉義市"; "新竹縣"; "苗栗縣"; "彰化縣"; "南投縣"; "雲林縣"; "嘉義縣"; "屏東縣";
   "宜蘭縣"; "花蓮縣"; "臺東縣"; "澎湖縣"; "金門縣"; "連江縣"].

(** Only [RequestException] is caught here. *)
Definition get_location_names (API_KEY : option string) : app (list value) :=
  match API_KEY with
  | None => lift (Raised (NameError "API_KEY"))
  | Some key =>
      let url :=
        "https://opendata.cwa.gov.tw/api/v1/rest/datastore/F-C0032-001?Authorization="
          ++ key in
      _ ← fetch url;
      match
        data ← http_get_json url;
        ok ← and_then (Py.contains "records" data)
               (records ← Py.getitem data "records"; Py.contains "location" records);
        if ok : bool then
          records ← Py.getitem data "records";
          locs ← Py.getitem records "location";
          items ← Py.iterate locs;
          names ← mapM (fun loc => Py.getitem loc "locationName") items;
          Returned (Some names)
        else Returned None
      with
      | Returned (Some names) => mret names
      | Returned None => mret (VStr <$> default_location_names)
      | Raised (RequestException d) =>
          _ ← notify (Error ("錯誤：無法獲取縣市列表，請檢查網路或 API 金鑰："
                               ++ exn_str (RequestException d)));
          mret (VStr <$> default_location_names)
      | Raised e => lift (Raised e)
      end
  end.

(** [str(v)] *)
Definition str (v : value) : string := fmt v.

Definition video_of_row (row : excel_row) : option Video.t :=
  let url := str_strip (str (default (VStr "") (row_url row))) in
  let desc := str_strip (str (default (VStr "") (row_desc row))) in
  let fallback_title :=
    if Str.truthy desc then default "" (head (Str.split desc ",")) else "未知歌曲" in
  let song_title := str_strip (str (default (VStr fallback_title) (row_title row))) in
  if Str.truthy url && Str.truthy desc
  then Some {| Video.index := row_label row; Video.url := url;
               Video.desc := desc; Video.title := song_title |}
  else None.

Definition initialize_videos (excel_path : string) : app (list Video.t) :=
  match read_excel excel_path with
  | Returned df => mret (omap video_of_row df)
  | Raised (FileNotFoundError f) =>
      _ ← notify (Error ("錯誤：找不到 Excel 檔案 '" ++ excel_path
                           ++ "'。請確保檔案存在且路徑正確。"));
      mret []
  | Raised e =>
      _ ← notify (Error ("從本地 Excel 檔案讀取時發生錯誤: " ++ exn_str e));
      mret []
  end.

Definition get_movie_poster_urls : app (list Movie.t) :=
  if negb (isdir fs MOVIE_POSTER_LOCAL_DIR) then
    _ ← notify (Warning ("找不到本地電影海報資料夾 '" ++ MOVIE_POSTER_LOCAL_DIR
                           ++ "'。請確保資料夾存在。"));
    mret []
  else
    let movies :=
      omap (fun filename =>
              if isfile fs (os_path.join MOVIE_POSTER_LOCAL_DIR filename)
                 && existsb (fun ext => Str.endswith (str_lower filename) ext)
                      IMAGE_EXTENSIONS
              then Some {| Movie.title :=
                             default filename (before_last "." filename);
                           Movie.poster_url :=
                             os_path.join MOVIE_POSTER_LOCAL_DIR filename |}
              else None)
           (listdir fs MOVIE_POSTER_LOCAL_DIR) in
    if bool_decide (movies = []) then
      _ ← notify (Warning ("在本地資料夾 '" ++ MOVIE_POSTER_LOCAL_DIR
                             ++ "' 中未找到任何電影海報圖片。請確保您的資料夾中有 .jpg、.png 或 .gif 檔案。"));
      mret []
    else mret movies.

Definition load_weather_codes (csv_path : string) : app (list (string * value)) :=
  if negb (os_path.exists_ fs csv_path) then
    _ ← notify (Error ("錯誤：找不到天氣代碼檔案 '" ++ csv_path
                         ++ "'。請確保檔案存在且路徑正確。"));
    mret []
  else
    match read_csv csv_path with
    | Returned rows => mret (to_dict rows [])
    | Raised e =>
        _ ← notify (Error ("從天氣代碼檔案讀取時發生錯誤: " ++ exn_str e));
        mret []
    end.

(** The first loop over [loaded_weather_codes.items()]: the code of the
    description equal to [weather_desc], [None] when there is none. *)
Fixpoint exact_code (weather_desc : value) (items : list (string * value)) : value :=
  match items with
  | [] => VNone
  | (csv_desc, code) :: rest =>
      if Py.eq_str weather_desc csv_desc then code else exact_code weather_desc rest
  end.

(** The second loop: the code of the first description with the highest
    [fuzz.ratio]. *)
Fixpoint closest_code (weather_desc : value) (items : list (string * value))
    (highest_score : Z) (weather_code : value) : py_result value :=
  match items with
  | [] => Returned weather_code
  | (csv_desc, code) :: rest =>
      w ← lower str_lower weather_desc;
      let score := ratio w (str_lower csv_desc) in
      if (highest_score <? score)%Z
      then closest_code weather_desc rest score code
      else closest_code weather_desc rest highest_score weather_code
  end.

(** Lines 455 to 460: the city the query is about, if any. *)
Definition matched_city_of (city_input : string) (location_names : list value)
  : option string :=
  match MANUAL_CORRECTIONS !! city_input with
  | Some canonical => Some canonical
  | None =>
      if existsb (fun name => Py.eq_str name city_input) location_names
      then Some city_input
      else None
  end.

Definition process_query (API_KEY : option string) (city_input : string)
    (location_names : list value) (all_videos : list Video.t)
    (movie_poster_urls : list Movie.t) (recommend_music : bool)
    (loaded_weather_codes : list (string * value)) (k : nat) : app unit :=
  _ ← reset_recommendation_states;
  if negb (Str.truthy city_input) then
    update_session (set_result_text "請輸入縣市名稱或天氣關鍵字！")
  else
    match Str.if_truthy (matched_city_of city_input location_names) with
    | Some matched_city =>
        weather_data_raw ←
          get_weather_data strptime now py_str exn_str http_get_json API_KEY matched_city;
        match weather_data_raw with
        | WeatherSuccess weather_desc display_text _ _ _ =>
            _ ← update_session (set_result_text display_text);
            weather_code ←
              (match exact_code weather_desc loaded_weather_codes with
               | VNone => lift (closest_code weather_desc loaded_weather_codes (-1)%Z VNone)
               | code => mret code
               end);
            _ ← (if Py.truthy weather_code then
                   match Str.if_truthy
                           (get_image_path_or_default fs WEATHER_IMAGES_DIR (fmt weather_code))
                   with
                   | Some found_image_path =>
                       html ← load_local_image_as_base64 found_image_path (Some 70%Z) None;
                       _ ← update_session (set_recommended_weather_image_html html);
                       update_session (set_weather_image_caption_desc weather_desc)
                   | None =>
                       _ ← update_session (set_recommended_weather_image_html None);
                       update_session (set_weather_image_caption_desc
                         (VStr ("天氣：" ++ fmt weather_desc ++ " (無圖片可用)")))
                   end
                 else
                   _ ← update_session (set_recommended_weather_image_html None);
                   update_session (set_weather_image_caption_desc
                     (VStr ("天氣：" ++ fmt weather_desc ++ " (無匹配代碼或圖片可用)"))));
            if recommend_music then
              '(music_text, youtube_id) ←
                find_and_recommend_music partial_ratio str_lower weather_desc all_videos k;
              s ← get_session;
              _ ← update_session
                    (set_result_text (result_text s ++ newline ++ newline ++ music_text));
              update_session (set_recommended_youtube_id youtube_id)
            else mret tt
        | WeatherError display_text =>
            _ ← update_session (set_result_text display_text);
            match Str.if_truthy (get_image_path_or_default fs WEATHER_IMAGES_DIR "default") with
            | Some default_image_path =>
                html ← load_local_image_as_base64 default_image_path (Some 70%Z) None;
                _ ← update_session (set_recommended_weather_image_html html);
                update_session (set_weather_image_caption_desc
                  (VStr ("無法取得 " ++ matched_city ++ " 天氣資料")))
            | None =>
                _ ← update_session (set_recommended_weather_image_html None);
                update_session (set_weather_image_caption_desc
                  (VStr ("無法取得 " ++ matched_city ++ " 天氣資料 (無圖片可用)")))
            end
        end
    | None =>
        '(music_text, youtube_id) ← random_music_recommendation all_videos k;
        _ ← update_session (set_result_text music_text);
        _ ← update_session (set_recommended_youtube_id youtube_id);
        _ ← update_session (set_recommended_weather_image_html None);
        update_session (set_weather_image_caption_desc VNone)
    end.

(** One run of the script: the module-level read of the key, then [main]
    with the text in the input box and the button pressed, if any.  Of the
    display part only the result message is kept; columns, captions and the
    players hold no logic. *)
Definition main (city_input : string) (pressed : option button) (k : nat) : app unit :=
  API_KEY ← read_API_KEY;
  _ ← set_background "background.jpg";
  location_names ← get_location_names API_KEY;
  all_videos ← initialize_videos EXCEL_FILE_PATH;
  movie_poster_urls ← get_movie_poster_urls;
  loaded_weather_codes ← load_weather_codes WEATHER_CODES_FILE_PATH;
  s ← get_session;
  _ ← (if initialized s then mret tt
       else
         _ ← update_session (set_result_text "");
         _ ← update_session (set_recommended_youtube_id None);
         _ ← update_session (set_recommended_image_url None);
         _ ← update_session (set_recommended_music_original_indices (Some ∅));
         _ ← update_session (set_recommended_movie_indices (Some ∅));
         _ ← update_session (set_recommended_weather_image_html None);
         _ ← update_session (set_weather_image_caption_desc VNone);
         update_session (set_initialized true));
  _ ← match pressed with
      | Some QueryWeather =>
          process_query API_KEY city_input location_names all_videos movie_poster_urls
            false loaded_weather_codes k
      | Some QueryWeatherAndMusic =>
          process_query API_KEY city_input location_names all_videos movie_poster_urls
            true loaded_weather_codes k
      | Some RandomMusic =>
          _ ← reset_recommendation_states;
          '(text_result, youtube_id) ← random_music_recommendation all_videos k;
          _ ← update_session (set_result_text text_result);
          update_session (set_recommended_youtube_id youtube_id)
      | Some RandomMovie =>
          _ ← reset_recommendation_states;
          '(display_name, poster_url, remaining) ←
            random_movie_recommendation movie_poster_urls k;
          match Str.if_truthy poster_url with
          | Some u =>
              _ ← update_session (set_result_text ("為您推薦電影：**" ++ display_name ++ "**"));
              update_session (set_recommended_image_url (Some u))
          | None => update_session (set_result_text display_name)
          end
      | None => mret tt
      end;
  s ← get_session;
  if Str.truthy (result_text s) then notify (Info (result_text s))
  else notify (Info "試試左邊功能吧！").

End App.

(** ** Concrete stand-ins for the library functions

    The theorems below hold for every choice of the library functions.  The
    examples and the concrete runs need particular ones; each stand-in below
    agrees with the Python library on the inputs it is used with. *)

Module Demo.

Definition digit_value (c : ascii) : option Z :=
  if Str.is_digit c then Some (Z.of_nat (nat_of_ascii c) - 48)%Z else None.

(** The number written by the [n] digits at the head of [s], and the rest. *)
Fixpoint read_digits (n : nat) (acc : Z) (s : string) : option (Z * string) :=
  match n with
  | O => Some (acc, s)
  | S n' =>
      match s with
      | EmptyString => None
      | String c s' =>
          match digit_value c with
          | Some d => read_digits n' (acc * 10 + d)%Z s'
          | None => None
          end
      end
  end.

Definition expect (c : ascii) (s : string) : option string :=
  match s with
  | String a s' => if Ascii.eqb a c then Some s' else None
  | EmptyString => None
  end.

(** [strptime] on zero-padded [YYYY-MM-DD HH:MM:SS] text; any other text is
    refused here. *)
Definition strptime (s : string) : option datetime :=
  '(y, s) ← read_digits 4 0%Z s;
  s ← expect "-" s;
  '(mo, s) ← read_digits 2 0%Z s;
  s ← expect "-" s;
  '(d, s) ← read_digits 2 0%Z s;
  s ← expect " " s;
  '(h, s) ← read_digits 2 0%Z s;
  s ← expect ":" s;
  '(mi, s) ← read_digits 2 0%Z s;
  s ← expect ":" s;
  '(se, s) ← read_digits 2 0%Z s;
  if negb (Str.truthy s)
     && (1 <=? y)%Z && (1 <=? mo)%Z && (mo <=? 12)%Z
     && (1 <=? d)%Z && (d <=? Date.days_in_month y mo)%Z
     && (h <=? 23)%Z && (mi <=? 59)%Z && (se <=? 59)%Z
  then Some {| year := y; month := mo; day := d; hour := h; minute := mi; second := se |}
  else None.

(** Number of positions at which two strings carry the same character. *)
Fixpoint agreements (a b : string) : Z :=
  match a, b with
  | String x a', String y b' =>
      ((if Ascii.eqb x y then 1 else 0) + agreements a' b')%Z
  | _, _ => 0%Z
  end.

(** The percentage of agreeing positions of two strings of one length, 0
    for strings of different lengths.  [fuzz.partial_ratio] and [fuzz.ratio]
    give the same number on the pairs used below: two equal strings (100),
    two strings of one length without a common character (0), and two
    strings of length ten whose only common character is their first one
    (10). *)
Definition partial_ratio (a b : string) : Z :=
  if (String.length a =? String.length b)%nat && Str.truthy a
  then (100 * agreements a b / Z.of_nat (String.length a))%Z
  else 0%Z.

Definition ratio : string -> string -> Z := partial_ratio.

(** [lower] and [strip] on text that is lower-case and has no outer blanks *)
Definition str_lower (s : string) : string := s.
Definition str_strip (s : string) : string := s.

Definition py_str (v : value) : string :=
  match v with
  | VStr s => s
  | VInt n => Py.str_of_Z n
  | VNone => "None"
  | VBool true => "True"
  | VBool false => "False"
  | _ => "?"
  end.

Definition exn_str (e : exn) : string :=
  match e with
  | KeyError k => "'" ++ k ++ "'"
  | NameError n => "name '" ++ n ++ "' is not defined"
  | RequestException d => d
  | _ => ""
  end.

Definition b64encode (s : string) : string := "".

(** A period of a weather element *)
Definition period (t0 t1 name : string) : value :=
  VDict [("startTime", VStr t0); ("endTime", VStr t1);
         ("parameter", VDict [("parameterName", VStr name)])].

Definition element (name : string) (periods : list value) : value :=
  VDict [("elementName", VStr name); ("time", VList periods)].

(** A payload of the shape the endpoint returns *)
Definition payload (elements : list value) : value :=
  VDict [("success", VStr "true");
         ("records",
          VDict [("datasetDescription", VStr "三十六小時天氣預報");
                 ("location",
                  VList [VDict [("locationName", VStr "臺北市");
                                ("weatherElement", VList elements)]])])].

Definition good_payload : value :=
  payload
    [element "Wx" [period "2024-05-01 06:00:00" "2024-05-01 18:00:00" "晴時多雲";
                   period "2024-05-01 18:00:00" "2024-05-02 06:00:00" "多雲"];
     element "PoP" [period "2024-05-01 06:00:00" "2024-05-01 18:00:00" "20"];
     element "MinT" [period "2024-05-01 06:00:00" "2024-05-01 18:00:00" "24"];
     element "MaxT" [period "2024-05-01 06:00:00" "2024-05-01 18:00:00" "31"]].

(** The same Wx element, its periods without ['parameter'] *)
Definition payload_without_parameter : value :=
  payload
    [VDict [("elementName", VStr "Wx");
            ("time", VList [VDict [("startTime", VStr "2024-05-01 06:00:00");
                                   ("endTime", VStr "2024-05-01 18:00:00")]])]].

(** 2024-05-01 07:00:00 *)
Definition now : Z :=
  Date.micros {| year := 2024; month := 5; day := 1; hour := 7; minute := 0; second := 0 |}.

Definition empty_session : session_state :=
  {| result_text := "";
     recommended_youtube_id := None;
     recommended_image_url := None;
     recommended_music_original_indices := Some ∅;
     recommended_movie_indices := Some ∅;
     recommended_weather_image_html := None;
     weather_image_caption_desc := VNone;
     initialized := true |}.

Definition fresh_world : world :=
  {| session := empty_session; page := []; requests := [] |}.

(** Three songs; against the description [abcdefghij] they score 10, 10
    and 0. *)
Definition videos : list Video.t :=
  [ {| Video.index := 0; Video.url := "https://youtu.be/aaaaaaaaaaa";
       Video.desc := "axxxxxxxxx"; Video.title := "A" |};
    {| Video.index := 1; Video.url := "https://youtu.be/bbbbbbbbbbb";
       Video.desc := "ayyyyyyyyy"; Video.title := "B" |};
    {| Video.index := 2; Video.url := "https://youtu.be/ccccccccccc";
       Video.desc := "zzzzzzzzzz"; Video.title := "C" |} ].

(** Two songs; against the keyword [rain] they score 100 and 0. *)
Definition rain_videos : list Video.t :=
  [ {| Video.index := 0; Video.url := "https://youtu.be/aaaaaaaaaaa";
       Video.desc := "rain"; Video.title := "A" |};
    {| Video.index := 1; Video.url := "https://youtu.be/bbbbbbbbbbb";
       Video.desc := "cold"; Video.title := "B" |} ].

Definition movies : list Movie.t :=
  [ {| Movie.title := "M"; Movie.poster_url := "movie/M.jpg" |};
    {| Movie.title := "N"; Movie.poster_url := "movie/N.png" |} ].

End Demo.

(** ** More sample data *)

Module Samples.

(** A payload whose weather description is the number 5 instead of a text *)
Definition numeric_description_payload : value :=
  Demo.payload
    [VDict [("elementName", VStr "Wx");
            ("time",
             VList [VDict [("startTime", VStr "2024-05-01 06:00:00");
                           ("endTime", VStr "2024-05-01 18:00:00");
                           ("parameter", VDict [("parameterName", VInt 5)])]])]].

(** A list of locations one of which has no name *)
Definition nameless_location_payload : value :=
  VDict [("records",
          VDict [("location",
                  VList [VDict [("locationName", VStr "臺北市")]; VDict []])])].

(** Rows of an Excel sheet: a complete one, one without a URL (the cell is
    empty), one without a title column value *)
Definition excel_rows : list excel_row :=
  [ {| row_label := 0; row_url := Some (VStr "https://youtu.be/aaaaaaaaaaa");
       row_desc := Some (VStr "rain,cloud"); row_title := Some (VStr "A") |};
    {| row_label := 1; row_url := Some (VStr "");
       row_desc := Some (VStr "sun"); row_title := Some (VStr "B") |};
    {| row_label := 2; row_url := Some (VStr "https://youtu.be/ccccccccccc");
       row_desc := Some (VStr "sun"); row_title := None |} ].

(** A folder of posters, with a text file and a sub-folder that are not
    posters *)
Definition poster_files : filesystem :=
  <["movie" := Directory]>
    (<["movie/Alien.jpg" := RegularFile "a"]>
       (<["movie/notes.txt" := RegularFile "n"]>
          (<["movie/old" := Directory]>
             (<["movie/old/Heat.png" := RegularFile "h"]> ∅)))).

End Samples.

(** ** Vocabulary of the statements *)

Fixpoint all_chars (f : ascii -> bool) (s : string) : bool :=
  match s with
  | EmptyString => true
  | String c s' => f c && all_chars f s'
  end.

(** An identifier as the first pattern captures it: eleven characters of
    [[a-zA-Z0-9_-]]. *)
Definition is_video_id (s : string) : bool :=
  (String.length s =? 11)%nat && all_chars is_id_char s.

(** A URL of one of the shapes the function looks for. *)
Definition supported_shape (url : string) : bool :=
  Str.contains "watch?v=" url || Str.contains "youtu.be/" url
  || Str.contains "embed/" url || Str.contains "live/" url
  || Str.contains "googleusercontent.com/youtube.com/" url.

(** The paths [get_image_path_or_default] tries for a name, in order. *)
Definition candidate_paths (base_dir name : string) : list string :=
  (fun ext => os_path.join base_dir (name ++ "." ++ ext)) <$> IMAGE_EXTENSIONS.

(** The payload has a non-empty records → location array whose first
    location has a weather element named Wx with at least one period whose
    [startTime] parses. *)
Definition has_wx_forecast (strptime : string -> option datetime) (data : value) : Prop :=
  exists records location_data others elems wx periods period s d,
    Py.getitem data "records" = Returned records
    /\ Py.getitem records "location" = Returned (VList (location_data :: others))
    /\ Py.getitem location_data "weatherElement" = Returned (VList elems)
    /\ wx ∈ elems
    /\ Py.getitem wx "elementName" = Returned (VStr "Wx")
    /\ Py.getitem wx "time" = Returned (VList periods)
    /\ period ∈ periods
    /\ Py.getitem period "startTime" = Returned (VStr s)
    /\ strptime s = Some d.

(** The indices recommended so far, an absent set counting as empty. *)
Definition music_pool (w : world) : gset Z :=
  default ∅ (recommended_music_original_indices (session w)).

Definition movie_pool (w : world) : gset nat :=
  default ∅ (recommended_movie_indices (session w)).

(** [all_original_indices] and [all_list_indices] *)
Definition video_indices (all_videos : list Video.t) : gset Z :=
  list_to_set (Video.index <$> all_videos).

Definition movie_indices (all_movies : list Movie.t) : gset nat :=
  list_to_set (seq 0 (List.length all_movies)).

(** The test of line 322: nothing is left and the catalogue is not empty. *)
Definition music_exhausted (all_videos : list Video.t) (w : world) : bool :=
  bool_decide (elements (video_indices all_videos ∖ music_pool w) = [])
  && (0 <? size (video_indices all_videos))%nat.

(** The world [get_available_music_indices] leaves, and what it returns. *)
Definition after_music_check (all_videos : list Video.t) (w : world) : world :=
  if music_exhausted all_videos w then
    {| session := set_recommended_music_original_indices (Some ∅) (session w);
       page := page w ++ [Info "所有音樂都推薦過了，已重置音樂推薦列表。"];
       requests := requests w |}
  else
    with_session (set_recommended_music_original_indices (Some (music_pool w))) w.

Definition available_music_indices (all_videos : list Video.t) (w : world) : list Z :=
  if music_exhausted all_videos w then elements (video_indices all_videos)
  else elements (video_indices all_videos ∖ music_pool w).

(** [available_videos]: the entries not yet recommended, in catalogue
    order, all of them again once every index has been recommended. *)
Definition available_videos (all_videos : list Video.t) (w : world) : list Video.t :=
  videos_with_index_in (available_music_indices all_videos w) all_videos.

(** The same for the movies: the test of line 410, the world after it and
    the indices left. *)
Definition movie_exhausted (all_movies : list Movie.t) (w : world) : bool :=
  bool_decide (elements (movie_indices all_movies ∖ movie_pool w) = []).

Definition after_movie_check (all_movies : list Movie.t) (w : world) : world :=
  if movie_exhausted all_movies w then
    {| session := set_recommended_movie_indices (Some ∅) (session w);
       page := page w ++ [Info "所有電影都推薦過了，已重置電影推薦列表。"];
       requests := requests w |}
  else
    with_session (set_recommended_movie_indices (Some (movie_pool w))) w.

Definition available_movie_indices (all_movies : list Movie.t) (w : world) : list nat :=
  if movie_exhausted all_movies w then elements (movie_indices all_movies)
  else elements (movie_indices all_movies ∖ movie_pool w).

Section Scores.

Variable partial_ratio : string -> string -> Z.
Variable str_lower : string -> string.

(** The score of a video against a weather description *)
Definition score_of (weather_desc : string) (video : Video.t) : Z :=
  partial_ratio (str_lower weather_desc) (str_lower (Video.desc video)).

(** The greatest score among [videos]; -1 when there is none. *)
Definition top_score (weather_desc : string) (videos : list Video.t) : Z :=
  foldr Z.max (-1)%Z (score_of weather_desc <$> videos).

(** The videos of [videos] whose score is the greatest one *)
Definition top_scorers (weather_desc : string) (videos : list Video.t) : list Video.t :=
  filter (fun v => score_of weather_desc v = top_score weather_desc videos) videos.

(** The videos that reach the threshold, each with its score *)
Definition eligible (weather_desc : string) (videos : list Video.t)
  : list (Video.t * Z) :=
  (fun v => (v, score_of weather_desc v))
    <$> filter (fun v => (30 <= score_of weather_desc v)%Z) videos.

(** The best score the loop has seen, starting from [best] *)
Definition best_after (weather_desc : string) (best : Z) (videos : list Video.t) : Z :=
  foldl (fun b v =>
           if (30 <=? score_of weather_desc v)%Z
           then (if (b <? score_of weather_desc v)%Z then score_of weather_desc v else b)
           else b)
        best videos.

End Scores.

(** The three recommendation operations, each with the position drawn. *)
Inductive operation : Type :=
| FindAndRecommendMusic (weather_desc : string) (k : nat)
| RandomMusicRecommendation (k : nat)
| RandomMovieRecommendation (k : nat).

Section Runs.

Variable partial_ratio : string -> string -> Z.
Variable str_lower : string -> string.
Variable all_videos : list Video.t.
Variable all_movies : list Movie.t.

(** The world after one operation *)
Definition run_operation (o : operation) (w : world) : world :=
  match o with
  | FindAndRecommendMusic weather_desc k =>
      (find_and_recommend_music partial_ratio str_lower (VStr weather_desc) all_videos k w).2
  | RandomMusicRecommendation k => (random_music_recommendation all_videos k w).2
  | RandomMovieRecommendation k => (random_movie_recommendation all_movies k w).2
  end.

(** The world after a sequence of operations, first to last *)
Definition run_operations (ops : list operation) (w : world) : world :=
  foldl (fun w o => run_operation o w) w ops.

End Runs.

(** One recommendation seen from a pool: the index [i] drawn is an index of
    the catalogue; either the pool did not yet hold every index, [i] was not
    in it and joins it, or the pool held every index, was emptied, and now
    holds [i] alone. *)
Definition pool_step `{Countable K} (all before after : gset K) (i : K) : Prop :=
  i ∈ all
  ∧ ((before ≠ all ∧ (i ∉ before) ∧ after = before ∪ {[i]})
     ∨ (before = all ∧ after = {[i]})).

(** A computation that leaves the request log as it found it *)
Definition keeps_requests {A} (m : app A) : Prop :=
  forall w, requests (m w).2 = requests w.

(** A computation that leaves a part [proj] of the session as it found it *)
Definition preserves {A B} (proj : session_state -> B) (m : app A) : Prop :=
  forall w, proj (session (m w).2) = proj (session w).

(** A computation that ends normally from every world *)
Definition returns {A} (m : app A) : Prop :=
  forall w, exists a w', m w = (Returned a, w').

(** The two operations that draw from the music pool *)
Definition is_music_operation (o : operation) : bool :=
  match o with
  | FindAndRecommendMusic _ _ | RandomMusicRecommendation _ => true
  | RandomMovieRecommendation _ => false
  end.

(** * Theorems *)

#[local] Set Warnings "-clear-no-such-hyp".

(** ** [extract_youtube_id] *)

Lemma take_id_chars_app (n : nat) (id rest : string) :
  String.length id = n -> all_chars is_id_char id = true ->
  take_id_chars n (id ++ rest) = Some id.
Proof.
  revert id. induction n as [|n IH]; intros [|c id] Hlen Hall; simpl in *; try discriminate.
  - reflexivity.
  - apply andb_prop in Hall as [Hc Hall]. rewrite Hc.
    rewrite IH by (try lia; assumption). reflexivity.
Qed.

Lemma take_id_chars_spec (n : nat) (s g : string) :
  take_id_chars n s = Some g ->
  String.length g = n /\ all_chars is_id_char g = true.
Proof.
  revert s g. induction n as [|n IH]; intros s g H; simpl in H.
  - injection H as <-. split; reflexivity.
  - destruct s as [|c s]; [discriminate|].
    destruct (is_id_char c) eqn:Hc; [|discriminate].
    destruct (take_id_chars n s) as [g'|] eqn:Hg; [|discriminate].
    injection H as <-. destruct (IH _ _ Hg) as [Hl Ha].
    simpl. rewrite Hc, Ha, Hl. split; reflexivity.
Qed.

#[local] Arguments take_id_chars : simpl never.

Lemma match_markers_video_id (alts : list string) (s g : string) :
  match_markers alts s = Some g -> is_video_id g = true.
Proof.
  induction alts as [|p alts IH]; simpl; [discriminate|].
  destruct (Str.strip_prefix p s) as [r|]; [|exact IH].
  destruct (take_id_chars 11 r) as [g'|] eqn:Hg; [|exact IH].
  intros [= <-]. apply take_id_chars_spec in Hg as [Hl Ha].
  unfold is_video_id. rewrite Hl, Ha. reflexivity.
Qed.

Lemma search_marker_id_unfold (s : string) :
  search_marker_id s =
    match match_markers id_markers s with
    | Some g => Some g
    | None =>
        match s with
        | EmptyString => None
        | String _ s' => search_marker_id s'
        end
    end.
Proof. destruct s; reflexivity. Qed.

Lemma search_marker_id_video_id (s g : string) :
  search_marker_id s = Some g -> is_video_id g = true.
Proof.
  induction s as [|c s IH]; rewrite search_marker_id_unfold;
    destruct (match_markers id_markers _) as [g'|] eqn:Hm;
    try discriminate; try exact IH.
  all: intros [= <-]; exact (match_markers_video_id _ _ _ Hm).
Qed.

Lemma search_marker_id_skip (c : ascii) (s : string) :
  match_markers id_markers (String c s) = None ->
  search_marker_id (String c s) = search_marker_id s.
Proof. intros H. rewrite search_marker_id_unfold, H. reflexivity. Qed.

Lemma search_marker_id_hit (s g : string) :
  match_markers id_markers s = Some g -> search_marker_id s = Some g.
Proof. intros H. rewrite search_marker_id_unfold, H. reflexivity. Qed.

Lemma extract_youtube_id_of_marker (url g : string) :
  search_marker_id url = Some g -> extract_youtube_id url = Some g.
Proof. intros H. unfold extract_youtube_id. rewrite H. reflexivity. Qed.

Lemma append_cons (c : ascii) (s t : string) : String c s ++ t = String c (s ++ t).
Proof. reflexivity. Qed.

Lemma append_nil (t : string) : EmptyString ++ t = t.
Proof. reflexivity. Qed.

(** Push the appends of a string with a literal head down to its tail. *)
Ltac push_append := repeat (rewrite ?append_cons, ?append_nil).

Ltac skip_to_marker :=
  repeat (rewrite search_marker_id_skip by reflexivity).

Lemma marker_then_id (p id rest : string) :
  p ∈ id_markers -> is_video_id id = true ->
  match_markers id_markers (p ++ id ++ rest) = Some id.
Proof.
  intros Hp Hid. unfold is_video_id in Hid. apply andb_prop in Hid as [Hl Ha].
  apply Nat.eqb_eq in Hl.
  pose proof (take_id_chars_app 11 id rest Hl Ha) as Ht.
  unfold id_markers in *.
  repeat (apply elem_of_cons in Hp as [-> | Hp]);
    [ | | | | by apply elem_of_nil in Hp ]; push_append; cbn; rewrite Ht; reflexivity.
Qed.

(** The identifier that follows a marker at the end of the usual address
    forms is what the function returns, whatever comes after it. *)
Lemma extract_youtube_id_watch (id rest : string) :
  is_video_id id = true ->
  extract_youtube_id ("https://www.youtube.com/watch?v=" ++ id ++ rest) = Some id.
Proof.
  intros Hid. apply extract_youtube_id_of_marker.
  push_append. skip_to_marker.
  apply search_marker_id_hit, (marker_then_id "v="); [set_solver | exact Hid].
Qed.

Lemma extract_youtube_id_short (id rest : string) :
  is_video_id id = true ->
  extract_youtube_id ("https://youtu.be/" ++ id ++ rest) = Some id.
Proof.
  intros Hid. apply extract_youtube_id_of_marker.
  push_append. skip_to_marker.
  apply search_marker_id_hit, (marker_then_id "youtu.be/"); [set_solver | exact Hid].
Qed.

Lemma extract_youtube_id_embed (id rest : string) :
  is_video_id id = true ->
  extract_youtube_id ("https://www.youtube.com/embed/" ++ id ++ rest) = Some id.
Proof.
  intros Hid. apply extract_youtube_id_of_marker.
  push_append. skip_to_marker.
  apply search_marker_id_hit, (marker_then_id "embed/"); [set_solver | exact Hid].
Qed.

Lemma extract_youtube_id_live (id rest : string) :
  is_video_id id = true ->
  extract_youtube_id ("https://www.youtube.com/live/" ++ id ++ rest) = Some id.
Proof.
  intros Hid. apply extract_youtube_id_of_marker.
  push_append. skip_to_marker.
  apply search_marker_id_hit, (marker_then_id "live/"); [set_solver | exact Hid].
Qed.




(** ** [get_image_path_or_default] *)

Lemma first_existing_find (fs : filesystem) (base_dir name : string) (exts : list string) :
  first_existing fs base_dir name exts
  = List.find (os_path.exists_ fs)
      ((fun ext => os_path.join base_dir (name ++ "." ++ ext)) <$> exts).
Proof.
  induction exts as [|ext exts IH]; [reflexivity|].
  cbn [first_existing fmap list_fmap List.find]. rewrite IH.
  destruct (os_path.exists_ fs _); reflexivity.
Qed.

Lemma get_image_path_or_default_find (fs : filesystem) (base_dir code : string) :
  get_image_path_or_default fs base_dir code
  = match List.find (os_path.exists_ fs) (candidate_paths base_dir code) with
    | Some p => Some p
    | None => List.find (os_path.exists_ fs) (candidate_paths base_dir "default")
    end.
Proof.
  unfold get_image_path_or_default, candidate_paths.
  rewrite !first_existing_find. reflexivity.
Qed.


Example get_image_path_or_default_prefers_code :
  get_image_path_or_default
    (<["images/3.gif" := RegularFile ""]> (<["images/default.png" := RegularFile ""]> ∅))
    "images" "3" = Some "images/3.gif".
Proof. vm_compute. reflexivity. Qed.

Example get_image_path_or_default_falls_back :
  get_image_path_or_default (<["images/default.jpg" := RegularFile ""]> ∅) "images" "3"
  = Some "images/default.jpg".
Proof. vm_compute. reflexivity. Qed.

(** ** [reset_recommendation_states] *)

Section ResetFrame.

Context (strptime : string -> option datetime) (now : Z)
        (py_str : value -> string) (exn_str : exn -> string)
        (http_get_json : string -> py_result value)
        (partial_ratio ratio : string -> string -> Z)
        (str_lower b64encode : string -> string) (fs : filesystem).

(** C9.  [reset_recommendation_states] returns normally, clears the five
    display fields and leaves the two sets of recommended indices, the
    initialisation flag, the page and the request log as they were; so a
    query, which starts with the reset, finds both sets as the previous
    requests left them, and a query with an empty input, which stops right
    after the reset, ends with both sets unchanged. *)
Theorem reset_recommendation_states_frame (w : world) :
  let w' := (reset_recommendation_states w).2 in
  (reset_recommendation_states w).1 = Returned tt
  /\ result_text (session w') = ""
  /\ recommended_youtube_id (session w') = None
  /\ recommended_image_url (session w') = None
  /\ recommended_weather_image_html (session w') = None
  /\ weather_image_caption_desc (session w') = VNone
  /\ recommended_music_original_indices (session w')
     = recommended_music_original_indices (session w)
  /\ recommended_movie_indices (session w') = recommended_movie_indices (session w)
  /\ initialized (session w') = initialized (session w)
  /\ page w' = page w
  /\ requests w' = requests w
  /\ (forall API_KEY location_names all_videos movie_poster_urls recommend_music
             loaded_weather_codes k,
        let w'' :=
          (process_query strptime now py_str exn_str http_get_json partial_ratio ratio
             str_lower b64encode fs API_KEY "" location_names all_videos
             movie_poster_urls recommend_music loaded_weather_codes k w).2 in
        recommended_music_original_indices (session w'')
        = recommended_music_original_indices (session w)
        /\ recommended_movie_indices (session w'')
           = recommended_movie_indices (session w)
        /\ result_text (session w'') = "請輸入縣市名稱或天氣關鍵字！").
Proof.
  destruct w as [s p r].
  do 11 (split; [reflexivity|]).
  intros. repeat split.
Qed.

End ResetFrame.

(** ** Computations that leave the request log alone *)

Lemma keeps_requests_ret {A} (a : A) : keeps_requests (mret a).
Proof. intros w. reflexivity. Qed.

Lemma keeps_requests_lift {A} (r : py_result A) : keeps_requests (lift r).
Proof. intros w. reflexivity. Qed.

Lemma keeps_requests_bind {A B} (m : app A) (f : A -> app B) :
  keeps_requests m -> (forall a, keeps_requests (f a)) -> keeps_requests (m ≫= f).
Proof.
  intros Hm Hf w. unfold mbind, app_bind. specialize (Hm w).
  destruct (m w) as [[a|e] w']; simpl in *; [|exact Hm].
  rewrite (Hf a w'). exact Hm.
Qed.

Lemma keeps_requests_notify (n : notice) : keeps_requests (notify n).
Proof. intros w. reflexivity. Qed.

Lemma keeps_requests_update_session (f : session_state -> session_state) :
  keeps_requests (update_session f).
Proof. intros w. reflexivity. Qed.

Lemma keeps_requests_get_session : keeps_requests get_session.
Proof. intros w. reflexivity. Qed.

Create HintDb keeps discriminated.
#[local] Hint Resolve keeps_requests_ret keeps_requests_lift keeps_requests_notify
  keeps_requests_update_session keeps_requests_get_session : keeps.

(** Walk through a computation: binds first, then the branches. *)
Ltac keeps_step :=
  match goal with
  | |- keeps_requests (_ ≫= _) => apply keeps_requests_bind; [|intros ?]
  | |- keeps_requests (match ?x with _ => _ end) => destruct x
  | |- keeps_requests (let '(_, _) := ?x in _) => destruct x
  | |- keeps_requests _ => solve [auto with keeps]
  end.

Ltac keeps := repeat keeps_step.

Lemma keeps_requests_reset : keeps_requests reset_recommendation_states.
Proof. unfold reset_recommendation_states. keeps. Qed.

Lemma keeps_requests_music_recommended : keeps_requests music_recommended.
Proof. unfold music_recommended. keeps. Qed.

Lemma keeps_requests_movie_recommended : keeps_requests movie_recommended.
Proof. unfold movie_recommended. keeps. Qed.

#[local] Hint Resolve keeps_requests_reset keeps_requests_music_recommended
  keeps_requests_movie_recommended : keeps.

Lemma keeps_requests_get_available (all_videos : list Video.t) :
  keeps_requests (get_available_music_indices all_videos).
Proof. unfold get_available_music_indices. keeps. Qed.

Lemma keeps_requests_add_music (i : Z) : keeps_requests (add_recommended_music i).
Proof. unfold add_recommended_music. keeps. Qed.

#[local] Hint Resolve keeps_requests_get_available keeps_requests_add_music : keeps.

Lemma keeps_requests_random_music (all_videos : list Video.t) (k : nat) :
  keeps_requests (random_music_recommendation all_videos k).
Proof. unfold random_music_recommendation. keeps. Qed.

#[local] Hint Resolve keeps_requests_random_music : keeps.

Lemma keeps_requests_find_music (partial_ratio : string -> string -> Z)
    (str_lower : string -> string) (weather_desc : value)
    (all_videos : list Video.t) (k : nat) :
  keeps_requests (find_and_recommend_music partial_ratio str_lower weather_desc all_videos k).
Proof. unfold find_and_recommend_music. keeps. Qed.

Lemma keeps_requests_load_image (exn_str : exn -> string) (str_lower b64encode : string -> string)
    (fs : filesystem) (image_path : string) (width height : option Z) :
  keeps_requests (load_local_image_as_base64 exn_str str_lower b64encode fs image_path width height).
Proof. unfold load_local_image_as_base64. keeps. Qed.

#[local] Hint Resolve keeps_requests_find_music keeps_requests_load_image : keeps.

(** ** The correction table *)

Lemma MANUAL_CORRECTIONS_entries :
  map_Forall (fun k v => Str.truthy k = true /\ Str.truthy v = true /\ v <> k)
    MANUAL_CORRECTIONS.
Proof. apply (bool_decide_unpack _). vm_compute. exact I. Qed.

Lemma MANUAL_CORRECTIONS_size : size MANUAL_CORRECTIONS = 119%nat.
Proof. vm_compute. reflexivity. Qed.

Lemma bind_returned {A B} (m : app A) (f : A -> app B) (w w' : world) (a : A) :
  m w = (Returned a, w') -> (m ≫= f) w = f a w'.
Proof. intros H. unfold mbind, app_bind. rewrite H. reflexivity. Qed.

Lemma bind_raised {A B} (m : app A) (f : A -> app B) (w w' : world) (e : exn) :
  m w = (Raised e, w') -> (m ≫= f) w = (Raised e, w').
Proof. intros H. unfold mbind, app_bind. rewrite H. reflexivity. Qed.

Lemma reset_recommendation_states_returns (w : world) :
  reset_recommendation_states w = (Returned tt, (reset_recommendation_states w).2).
Proof. reflexivity. Qed.

Lemma reset_recommendation_states_pools (w : world) :
  recommended_music_original_indices (session (reset_recommendation_states w).2)
  = recommended_music_original_indices (session w)
  /\ recommended_movie_indices (session (reset_recommendation_states w).2)
     = recommended_movie_indices (session w).
Proof. destruct w as [s p r]. split; reflexivity. Qed.

Section Query.

Context (strptime : string -> option datetime) (now : Z)
        (py_str : value -> string) (exn_str : exn -> string)
        (http_get_json : string -> py_result value)
        (partial_ratio ratio : string -> string -> Z)
        (str_lower b64encode : string -> string) (fs : filesystem).

Local Abbreviation process_query_ :=
  (process_query strptime now py_str exn_str http_get_json partial_ratio ratio
     str_lower b64encode fs).
Local Abbreviation get_weather_data_ :=
  (get_weather_data strptime now py_str exn_str http_get_json).

Lemma get_weather_data_fetches (key city_name : string) (w : world) :
  exists r,
    get_weather_data_ (Some key) city_name w
    = (Returned r,
       {| session := session w; page := page w;
          requests := requests w ++ [weather_url key city_name] |}).
Proof. eexists. reflexivity. Qed.

Lemma matched_city_of_correction (k v : string) (location_names : list value) :
  MANUAL_CORRECTIONS !! k = Some v -> matched_city_of k location_names = Some v.
Proof. intros H. unfold matched_city_of. rewrite H. reflexivity. Qed.

(** C3.  For a key [k] of the correction table with value [v]:
    [process_query] takes [v] as the matched city whatever the list of
    known cities holds, [v] is not the raw input, and the one request the
    query makes is the forecast request for [v]. *)
Theorem process_query_uses_canonical_city (key k v : string)
    (location_names : list value) (all_videos : list Video.t)
    (movie_poster_urls : list Movie.t) (recommend_music : bool)
    (loaded_weather_codes : list (string * value)) (j : nat) (w : world) :
  MANUAL_CORRECTIONS !! k = Some v ->
  matched_city_of k location_names = Some v
  /\ v <> k
  /\ requests
       (process_query_ (Some key) k location_names all_videos movie_poster_urls
          recommend_music loaded_weather_codes j w).2
     = (requests w ++ [weather_url key v])%list.
Proof.
  intros Hk.
  destruct (MANUAL_CORRECTIONS_entries k v Hk) as (Hkt & Hvt & Hne).
  split; [exact (matched_city_of_correction k v location_names Hk)|].
  split; [exact Hne|].
  unfold process_query.
  rewrite (bind_returned _ _ _ _ _ (reset_recommendation_states_returns w)).
  rewrite Hkt. cbn [negb].
  rewrite (matched_city_of_correction k v location_names Hk).
  cbn [Str.if_truthy]. rewrite Hvt.
  destruct (get_weather_data_fetches key v (reset_recommendation_states w).2) as [r Hr].
  rewrite (bind_returned _ _ _ _ _ Hr).
  match goal with
  | |- requests (?m ?w1).2 = _ =>
      assert (keeps_requests m) as Hkeep by (destruct r; keeps)
  end.
  rewrite Hkeep. cbn [requests].
  rewrite keeps_requests_reset. reflexivity.
Qed.

End Query.

Lemma process_query_uses_canonical_city_witness :
  MANUAL_CORRECTIONS !! "台北" = Some "臺北市"
  /\ requests
       (process_query Demo.strptime Demo.now Demo.py_str Demo.exn_str
          (fun _ => Returned Demo.good_payload) Demo.partial_ratio Demo.ratio
          Demo.str_lower Demo.b64encode ∅ (Some "KEY") "台北" [] [] [] false [] 0
          Demo.fresh_world).2
     = (requests Demo.fresh_world ++ [weather_url "KEY" "臺北市"])%list.
Proof.
  split; [vm_compute; reflexivity|].
  apply (process_query_uses_canonical_city Demo.strptime Demo.now Demo.py_str Demo.exn_str
           (fun _ => Returned Demo.good_payload) Demo.partial_ratio Demo.ratio
           Demo.str_lower Demo.b64encode ∅ "KEY" "台北" "臺北市" [] [] [] false [] 0
           Demo.fresh_world).
  vm_compute. reflexivity.
Defined.

(** ** [get_weather_data] *)

Lemma py_bind_inv {A B} (m : py_result A) (f : A -> py_result B) (b : B) :
  m ≫= f = Returned b -> exists a, m = Returned a /\ f a = Returned b.
Proof. destruct m as [a|e]; [eauto | discriminate]. Qed.

(** Split an equation [x ← m; k = Returned b] into its two steps. *)
Tactic Notation "py_inv" hyp(H) "as" ident(a) ident(Ha) :=
  apply py_bind_inv in H as (a & Ha & H).

Lemma getitem_dict (v : value) (k : string) (x : value) :
  Py.getitem v k = Returned x ->
  exists ms, v = VDict ms /\ Py.dict_lookup k ms = Some x.
Proof.
  destruct v; try discriminate. simpl.
  destruct (Py.dict_lookup k members) eqn:E; [|discriminate].
  intros [= <-]. eauto.
Qed.

Section WeatherFacts.

Context (strptime : string -> option datetime) (now : Z)
        (py_str : value -> string) (exn_str : exn -> string)
        (http_get_json : string -> py_result value).

Local Abbreviation parse_time_ := (parse_time strptime).
Local Abbreviation valid_times_ := (valid_times strptime).
Local Abbreviation forecast_of_payload_ := (forecast_of_payload strptime now py_str).
Local Abbreviation get_weather_data_ :=
  (get_weather_data strptime now py_str exn_str http_get_json).

Lemma parse_time_returned (v : value) (d : datetime) :
  parse_time_ v = Returned d -> exists s, v = VStr s /\ strptime s = Some d.
Proof.
  destruct v; try discriminate. simpl.
  destruct (strptime s) eqn:E; [|discriminate]. intros [= <-]. eauto.
Qed.

(** What [find_element] returns is an element of the list, a dict, whose
    name is the one looked for. *)
Lemma find_element_some (name : string) (elems : list value) (el : value) :
  find_element name elems = Returned (Some el) ->
  el ∈ elems /\ Py.getitem el "elementName" = Returned (VStr name).
Proof.
  induction elems as [|x elems IH]; simpl; [discriminate|].
  intros H. py_inv H as a Ha.
  destruct (Py.eq_str a name) eqn:Heq.
  - injection H as <-. split; [left|].
    destruct a; try discriminate. simpl in Heq.
    apply String.eqb_eq in Heq. by subst.
  - destruct (IH H) as [Hin Hn]. split; [by right | exact Hn].
Qed.

(** The entries [valid_times] keeps are entries of the list whose
    [startTime] is a string that parses. *)
Lemma valid_times_elem (items valid : list value) (item : value) :
  valid_times_ items = Returned valid -> item ∈ valid ->
  item ∈ items
  /\ exists s d, Py.getitem item "startTime" = Returned (VStr s) /\ strptime s = Some d.
Proof.
  revert valid. induction items as [|x items IH]; simpl; intros valid H Hin.
  - injection H as <-. by apply elem_of_nil in Hin.
  - py_inv H as a Ha.
    destruct (parse_time_ a) as [d|e] eqn:Hp.
    + py_inv H as rest Hrest. injection H as <-.
      apply elem_of_cons in Hin as [-> | Hin].
      * split; [left|]. apply parse_time_returned in Hp as (s & -> & Hs). eauto.
      * destruct (IH _ Hrest Hin) as [Hi Hs]. split; [by right | exact Hs].
    + destruct e; try discriminate.
      destruct (IH _ H Hin) as [Hi Hs]. split; [by right | exact Hs].
Qed.

(** A loop over a value all of whose elements are subscripted with a string
    sees a list, unless it sees nothing. *)
Lemma iterate_of_dict_elements (v : value) (elems : list value) (el x : value) (k : string) :
  Py.iterate v = Returned elems -> el ∈ elems -> Py.getitem el k = Returned x ->
  v = VList elems.
Proof.
  intros Hit Hin Hget.
  apply getitem_dict in Hget as (ms & -> & _).
  destruct v; try discriminate; simpl in Hit; injection Hit as <-.
  - apply list_elem_of_fmap in Hin as (c & Hc & _). discriminate.
  - reflexivity.
  - apply list_elem_of_fmap in Hin as (c & Hc & _). discriminate.
Qed.

Lemma getitem0_of_dict (v x : value) (k : string) (y : value) :
  Py.getitem0 v = Returned x -> Py.getitem x k = Returned y ->
  exists others, v = VList (x :: others).
Proof.
  intros H0 Hget. apply getitem_dict in Hget as (ms & -> & _).
  destruct v; try discriminate; simpl in H0.
  - destruct (Py.chars s); discriminate.
  - destruct items; [discriminate|]. injection H0 as ->. eauto.
Qed.

Lemma forecast_of_payload_success (city_name : string) (data : value)
    (desc : value) (text : string) (tmin tmax : value) (pop : string) :
  forecast_of_payload_ city_name data = Returned (WeatherSuccess desc text tmin tmax pop) ->
  has_wx_forecast strptime data.
Proof.
  unfold forecast_of_payload. intros H.
  py_inv H as ok Hok. destruct ok; [|discriminate].
  py_inv H as records Hrecords.
  py_inv H as locs Hlocs.
  py_inv H as location_data Hlocation_data.
  py_inv H as we Hwe.
  py_inv H as elems Helems.
  py_inv H as found Hfound. destruct found as [wx|]; [|discriminate].
  destruct (Py.truthy wx); [|discriminate].
  py_inv H as time_elements Htime_elements.
  py_inv H as items Hitems.
  py_inv H as valid Hvalid. destruct valid as [|x xs]; [discriminate|].
  clear H.
  destruct (find_element_some _ _ _ Hfound) as [Hwx Hname].
  destruct (valid_times_elem _ _ x Hvalid ltac:(left)) as (Hx & s & d & Hs & Hd).
  destruct (getitem0_of_dict _ _ _ _ Hlocation_data Hwe) as [others ->].
  rewrite (iterate_of_dict_elements _ _ _ _ _ Helems Hwx Hname) in Hwe.
  rewrite (iterate_of_dict_elements _ _ _ _ _ Hitems Hx Hs) in Htime_elements.
  exists records, location_data, others, elems, wx, items, x, s, d.
  repeat split; assumption.
Qed.

(** Every error the body of the [try] returns carries a text. *)
Lemma forecast_of_payload_error_text (city_name : string) (data : value) (text : string) :
  forecast_of_payload_ city_name data = Returned (WeatherError text) ->
  Str.truthy text = true.
Proof.
  unfold forecast_of_payload. intros H.
  repeat match type of H with
         | mbind _ _ = Returned _ => apply py_bind_inv in H as (? & ? & H)
         | (let _ := _ in _) = Returned _ => cbv zeta in H
         | (match ?x with _ => _ end) = Returned _ => destruct x; try discriminate
         end;
    simplify_eq; push_append; reflexivity.
Qed.


End WeatherFacts.

Example get_weather_data_good_payload :
  (get_weather_data Demo.strptime Demo.now Demo.py_str Demo.exn_str
     (fun _ => Returned Demo.good_payload) (Some "KEY") "臺北市" Demo.fresh_world).1
  = Returned
      (WeatherSuccess (VStr "晴時多雲")
         "臺北市 5/1 早晨到中午是：**晴時多雲**，氣溫介於 **24°C** 到 **31°C**，降雨機率 **20%** 喔！"
         (VStr "24") (VStr "31") "20%").
Proof. vm_compute. reflexivity. Qed.


(** ** The music pool *)

Lemma get_available_music_indices_eq (all_videos : list Video.t) (w : world) :
  get_available_music_indices all_videos w
  = (Returned (available_music_indices all_videos w), after_music_check all_videos w).
Proof.
  destruct w as [s p q]. destruct s as [t y u m mv h c i].
  unfold get_available_music_indices, available_music_indices, after_music_check,
    music_exhausted, music_pool, video_indices.
  unfold mbind, app_bind, get_session, update_session, music_recommended, mret, app_ret,
    notify, lift, with_session.
  destruct m as [r|]; simpl;
    destruct (bool_decide _ && _); reflexivity.
Qed.

Lemma video_indices_nonempty (all_videos : list Video.t) :
  all_videos <> [] -> video_indices all_videos <> ∅.
Proof.
  destruct all_videos as [|v vs]; [done|]. intros _ H.
  assert (Video.index v ∈ video_indices (v :: vs)) as Hin
    by (unfold video_indices; set_solver).
  rewrite H in Hin. set_solver.
Qed.

Lemma music_exhausted_iff (all_videos : list Video.t) (w : world) :
  music_exhausted all_videos w = true
  <-> video_indices all_videos ⊆ music_pool w /\ video_indices all_videos <> ∅.
Proof.
  unfold music_exhausted. rewrite andb_true_iff, bool_decide_eq_true, Nat.ltb_lt.
  rewrite elements_empty_iff.
  split.
  - intros [He Hs]. split; [set_solver|].
    intros H0. rewrite H0, size_empty in Hs. lia.
  - intros [Hsub Hne]. split; [set_solver|].
    destruct (decide (size (video_indices all_videos) = 0%nat)) as [Hz|Hz]; [|lia].
    apply size_empty_iff in Hz. exfalso. apply Hne. set_solver.
Qed.

Lemma music_pool_after_check (all_videos : list Video.t) (w : world) :
  recommended_music_original_indices (session (after_music_check all_videos w))
  = Some (if music_exhausted all_videos w then ∅ else music_pool w).
Proof.
  unfold after_music_check. destruct (music_exhausted all_videos w); reflexivity.
Qed.

Lemma movie_field_after_check (all_videos : list Video.t) (w : world) :
  recommended_movie_indices (session (after_music_check all_videos w))
  = recommended_movie_indices (session w).
Proof.
  unfold after_music_check. destruct (music_exhausted all_videos w); reflexivity.
Qed.

Lemma music_pool_after_check' (all_videos : list Video.t) (w : world) :
  music_pool (after_music_check all_videos w)
  = if music_exhausted all_videos w then ∅ else music_pool w.
Proof. unfold music_pool at 1. rewrite music_pool_after_check. reflexivity. Qed.

Lemma available_music_indices_after (all_videos : list Video.t) (w : world) :
  available_music_indices all_videos w
  = elements (video_indices all_videos ∖ music_pool (after_music_check all_videos w)).
Proof.
  rewrite music_pool_after_check'. unfold available_music_indices.
  destruct (music_exhausted all_videos w); [|reflexivity].
  by rewrite difference_empty_L.
Qed.

(** After the check something is left to recommend. *)
Lemma music_left_after_check (all_videos : list Video.t) (w : world) :
  all_videos <> [] ->
  video_indices all_videos ∖ music_pool (after_music_check all_videos w) <> ∅.
Proof.
  intros Hne. rewrite music_pool_after_check'.
  destruct (music_exhausted all_videos w) eqn:Hex.
  - rewrite difference_empty_L. by apply video_indices_nonempty.
  - intros Hempty. apply not_true_iff_false in Hex. apply Hex.
    apply music_exhausted_iff. split; [set_solver | by apply video_indices_nonempty].
Qed.

Lemma music_not_exhausted_after_check (all_videos : list Video.t) (w : world) :
  all_videos <> [] ->
  music_exhausted all_videos (after_music_check all_videos w) = false.
Proof.
  intros Hne. apply not_true_iff_false. intros Hex.
  apply music_exhausted_iff in Hex as [Hsub _].
  apply (music_left_after_check all_videos w Hne). set_solver.
Qed.

Lemma with_session_same_pool (w : world) (r : gset Z) :
  recommended_music_original_indices (session w) = Some r ->
  with_session (set_recommended_music_original_indices (Some r)) w = w.
Proof.
  destruct w as [s p q]. destruct s as [t y u m mv h c i]. simpl.
  intros ->. reflexivity.
Qed.

(** A second check right after the first changes nothing. *)
Lemma get_available_music_indices_again (all_videos : list Video.t) (w : world) :
  all_videos <> [] ->
  get_available_music_indices all_videos (after_music_check all_videos w)
  = (Returned (available_music_indices all_videos w), after_music_check all_videos w).
Proof.
  intros Hne. rewrite get_available_music_indices_eq.
  f_equal.
  - rewrite (available_music_indices_after all_videos w).
    unfold available_music_indices.
    by rewrite music_not_exhausted_after_check.
  - unfold after_music_check at 1.
    rewrite music_not_exhausted_after_check by done.
    apply with_session_same_pool.
    unfold music_pool. by rewrite music_pool_after_check.
Qed.

Lemma elem_of_available_videos (all_videos : list Video.t) (w : world) (v : Video.t) :
  v ∈ available_videos all_videos w
  <-> v ∈ all_videos /\ Video.index v ∉ music_pool (after_music_check all_videos w).
Proof.
  unfold available_videos, videos_with_index_in.
  rewrite list_elem_of_filter, available_music_indices_after, elem_of_elements.
  unfold video_indices. rewrite elem_of_difference, elem_of_list_to_set, list_elem_of_fmap.
  split.
  - intros [[_ Hn] Hv]. done.
  - intros [Hv Hn]. split; [|done]. split; [|done]. by exists v.
Qed.

Lemma available_videos_nonempty (all_videos : list Video.t) (w : world) :
  all_videos <> [] -> available_videos all_videos w <> [].
Proof.
  intros Hne Hnil.
  destruct (set_choose_L _ (music_left_after_check all_videos w Hne)) as [i Hi].
  apply elem_of_difference in Hi as [Hi Hn].
  unfold video_indices in Hi.
  apply elem_of_list_to_set, list_elem_of_fmap in Hi as (v & -> & Hv).
  assert (v ∈ available_videos all_videos w) as Hin
    by (by apply elem_of_available_videos).
  rewrite Hnil in Hin. by apply elem_of_nil in Hin.
Qed.

Lemma random_choice_nonempty {A} (k : nat) (seq : list A) :
  seq <> [] ->
  exists x, seq !! (k mod List.length seq)%nat = Some x /\ random_choice k seq = Returned x.
Proof.
  intros Hne. unfold random_choice.
  destruct (lookup_lt_is_Some_2 seq (k mod List.length seq)%nat) as [x Hx].
  - apply Nat.mod_upper_bound. destruct seq; [done | simpl; lia].
  - exists x. by rewrite Hx.
Qed.

Lemma add_recommended_music_eq (i : Z) (w : world) (r : gset Z) :
  recommended_music_original_indices (session w) = Some r ->
  add_recommended_music i w
  = (Returned tt, with_session (set_recommended_music_original_indices (Some (r ∪ {[i]}))) w).
Proof.
  intros H. unfold add_recommended_music, music_recommended.
  unfold mbind, app_bind, get_session, update_session, mret, app_ret, lift.
  rewrite H. reflexivity.
Qed.

(** The outcome of a random music recommendation over a non-empty
    catalogue: the video at the drawn position among the available ones,
    whose index joins the pool left by the check. *)
Lemma random_music_recommendation_eq (all_videos : list Video.t) (k : nat) (w : world) :
  all_videos <> [] ->
  exists sel text,
    available_videos all_videos w
      !! (k mod List.length (available_videos all_videos w))%nat = Some sel
    /\ random_music_recommendation all_videos k w
       = (Returned (text, Str.if_truthy (extract_youtube_id (Video.url sel))),
          with_session
            (set_recommended_music_original_indices
               (Some (music_pool (after_music_check all_videos w) ∪ {[Video.index sel]})))
            (after_music_check all_videos w)).
Proof.
  intros Hne.
  destruct (random_choice_nonempty k _ (available_videos_nonempty all_videos w Hne))
    as (sel & Hsel & Hchoice).
  exists sel.
  unfold random_music_recommendation.
  rewrite (bool_decide_eq_false_2 _ Hne).
  rewrite (bind_returned _ _ _ _ _ (get_available_music_indices_eq all_videos w)).
  fold (available_videos all_videos w).
  rewrite (bool_decide_eq_false_2 _ (available_videos_nonempty all_videos w Hne)).
  rewrite Hchoice.
  rewrite (bind_returned (lift (Returned sel)) _ _ _ _ eq_refl).
  rewrite (bind_returned _ _ _ _ _
             (add_recommended_music_eq (Video.index sel) _ _
                (music_pool_after_check all_videos w))).
  rewrite <- music_pool_after_check'.
  destruct (Str.if_truthy (extract_youtube_id (Video.url sel))) as [i|];
    eexists; (split; [exact Hsel | reflexivity]).
Qed.

(** ** Scoring *)

Section ScoreFacts.

Context (partial_ratio : string -> string -> Z) (str_lower : string -> string).

Local Abbreviation score_of_ := (score_of partial_ratio str_lower).
Local Abbreviation top_score_ := (top_score partial_ratio str_lower).
Local Abbreviation top_scorers_ := (top_scorers partial_ratio str_lower).
Local Abbreviation score_videos_ := (score_videos partial_ratio str_lower).
Local Abbreviation eligible_ := (eligible partial_ratio str_lower).
Local Abbreviation best_after_ := (best_after partial_ratio str_lower).

Lemma best_after_cons (weather_desc : string) (best : Z) (v : Video.t)
    (videos : list Video.t) :
  best_after_ weather_desc best (v :: videos)
  = best_after_ weather_desc
      (if (30 <=? score_of_ weather_desc v)%Z
       then (if (best <? score_of_ weather_desc v)%Z then score_of_ weather_desc v else best)
       else best)
      videos.
Proof. reflexivity. Qed.

Lemma eligible_cons (weather_desc : string) (v : Video.t) (videos : list Video.t) :
  eligible_ weather_desc (v :: videos)
  = if (30 <=? score_of_ weather_desc v)%Z
    then (v, score_of_ weather_desc v) :: eligible_ weather_desc videos
    else eligible_ weather_desc videos.
Proof.
  unfold eligible. rewrite filter_cons.
  destruct (Z.leb_spec 30 (score_of_ weather_desc v)).
  - by rewrite decide_True.
  - by rewrite decide_False by lia.
Qed.
Local Abbreviation find_and_recommend_music_ :=
  (find_and_recommend_music partial_ratio str_lower).

Lemma top_score_cons (weather_desc : string) (v : Video.t) (videos : list Video.t) :
  top_score_ weather_desc (v :: videos)
  = Z.max (score_of_ weather_desc v) (top_score_ weather_desc videos).
Proof. reflexivity. Qed.

Lemma score_videos_eq (weather_desc : string) (videos : list Video.t)
    (matched : list (Video.t * Z)) (best : Z) :
  score_videos_ (VStr weather_desc) videos matched best
  = Returned ((matched ++ eligible_ weather_desc videos)%list,
              best_after_ weather_desc best videos).
Proof.
  revert matched best. induction videos as [|v videos IH]; intros matched best.
  - cbn. by rewrite app_nil_r.
  - cbn [score_videos lower mbind py_bind].
    fold (score_of_ weather_desc v).
    rewrite best_after_cons, eligible_cons.
    destruct (30 <=? score_of_ weather_desc v)%Z; rewrite IH; [|reflexivity].
    by rewrite <- app_assoc.
Qed.

(** From a start of at least -1 the loop ends on the greatest score of
    all the videos as soon as that score reaches the threshold. *)
Lemma best_after_top (weather_desc : string) (videos : list Video.t) (best : Z) :
  (-1 <= best)%Z ->
  (best_after_ weather_desc best videos
   = if (30 <=? top_score_ weather_desc videos)%Z
     then Z.max best (top_score_ weather_desc videos)
     else Z.max best (-1))%Z.
Proof.
  revert best. induction videos as [|v videos IH]; intros best Hbest.
  - unfold top_score. simpl. lia.
  - rewrite best_after_cons.
    rewrite IH
      by (destruct (Z.leb_spec 30 (score_of_ weather_desc v));
          [destruct (Z.ltb_spec best (score_of_ weather_desc v))|]; lia).
    rewrite top_score_cons.
    destruct (Z.leb_spec 30 (score_of_ weather_desc v));
      destruct (Z.ltb_spec best (score_of_ weather_desc v));
      destruct (Z.leb_spec 30 (top_score_ weather_desc videos));
      destruct (Z.leb_spec 30 (Z.max (score_of_ weather_desc v) (top_score_ weather_desc videos)));
      lia.
Qed.

Lemma top_score_ge (weather_desc : string) (videos : list Video.t) (v : Video.t) :
  v ∈ videos -> (score_of_ weather_desc v <= top_score_ weather_desc videos)%Z.
Proof.
  induction videos as [|x videos IH]; intros Hin; [by apply elem_of_nil in Hin|].
  rewrite top_score_cons.
  apply elem_of_cons in Hin as [-> | Hin]; [lia|]. specialize (IH Hin). lia.
Qed.

Lemma top_score_attained (weather_desc : string) (videos : list Video.t) :
  (0 <= top_score_ weather_desc videos)%Z ->
  exists v, v ∈ videos /\ score_of_ weather_desc v = top_score_ weather_desc videos.
Proof.
  induction videos as [|x videos IH]; [unfold top_score; simpl; lia|].
  rewrite top_score_cons. intros H0.
  destruct (Z.max_spec (score_of_ weather_desc x) (top_score_ weather_desc videos))
    as [[Hlt Hmax] | [Hge Hmax]]; rewrite Hmax in *.
  - destruct (IH H0) as (v & Hv & Hs). exists v. split; [by right | done].
  - exists x. split; [left | done].
Qed.

Lemma top_score_matches_eligible (weather_desc : string) (videos : list Video.t) (best : Z) :
  top_score_matches (eligible_ weather_desc videos) best
  = filter (fun v => score_of_ weather_desc v = best /\ (30 <= score_of_ weather_desc v)%Z)
      videos.
Proof.
  unfold top_score_matches, eligible.
  induction videos as [|v videos IH]; [reflexivity|].
  rewrite !filter_cons.
  destruct (decide (30 <= score_of_ weather_desc v)%Z) as [Hge|Hlt].
  - rewrite fmap_cons, filter_cons. cbn [snd].
    destruct (decide (score_of_ weather_desc v = best)) as [Heq|Hne].
    + rewrite decide_True by done. rewrite fmap_cons, IH. reflexivity.
    + rewrite decide_False by tauto. exact IH.
  - rewrite decide_False by tauto. exact IH.
Qed.

(** When the greatest score reaches the threshold, the list handed to
    [random.choice] is the list of the videos with that score. *)
Lemma top_score_matches_top (weather_desc : string) (videos : list Video.t) :
  (30 <= top_score_ weather_desc videos)%Z ->
  top_score_matches (eligible_ weather_desc videos) (top_score_ weather_desc videos)
  = top_scorers_ weather_desc videos.
Proof.
  intros Hge. rewrite top_score_matches_eligible. unfold top_scorers.
  apply list_filter_iff. intros v. split; [tauto|]. intros Hv. split; [done | lia].
Qed.

Lemma top_scorers_nonempty (weather_desc : string) (videos : list Video.t) :
  (30 <= top_score_ weather_desc videos)%Z -> top_scorers_ weather_desc videos <> [].
Proof.
  intros Hge Hnil.
  destruct (top_score_attained weather_desc videos ltac:(lia)) as (v & Hv & Hs).
  assert (v ∈ top_scorers_ weather_desc videos) as Hin
    by (unfold top_scorers; by apply list_elem_of_filter).
  rewrite Hnil in Hin. by apply elem_of_nil in Hin.
Qed.

Lemma eligible_nil_iff (weather_desc : string) (videos : list Video.t) :
  eligible_ weather_desc videos = [] <-> (top_score_ weather_desc videos < 30)%Z.
Proof.
  unfold eligible. split.
  - intros Hnil. apply fmap_nil_inv in Hnil.
    destruct (Z.lt_ge_cases (top_score_ weather_desc videos) 30) as [|Hge]; [done|].
    destruct (top_score_attained weather_desc videos ltac:(lia)) as (v & Hv & Hs).
    exfalso. apply (filter_nil_not_elem_of _ _ v Hnil); [lia | done].
  - intros Hlt. destruct (filter _ videos) as [|v l] eqn:Hf; [reflexivity|].
    assert (v ∈ filter (fun v => (30 <= score_of_ weather_desc v)%Z) videos) as Hin
      by (rewrite Hf; left).
    apply list_elem_of_filter in Hin as [Hge Hin].
    pose proof (top_score_ge weather_desc videos v Hin). lia.
Qed.

Lemma random_music_recommendation_after_check (all_videos : list Video.t) (k : nat)
    (w : world) :
  all_videos <> [] ->
  random_music_recommendation all_videos k (after_music_check all_videos w)
  = random_music_recommendation all_videos k w.
Proof.
  intros Hne. unfold random_music_recommendation.
  rewrite (bool_decide_eq_false_2 _ Hne).
  rewrite (bind_returned _ _ _ _ _ (get_available_music_indices_again all_videos w Hne)).
  rewrite (bind_returned _ _ _ _ _ (get_available_music_indices_eq all_videos w)).
  reflexivity.
Qed.

(** Below the threshold: the fuzzy recommendation is the random one. *)
Lemma find_and_recommend_music_fallback (weather_desc : string)
    (all_videos : list Video.t) (k : nat) (w : world) :
  all_videos <> [] ->
  (top_score_ weather_desc (available_videos all_videos w) < 30)%Z ->
  find_and_recommend_music_ (VStr weather_desc) all_videos k w
  = random_music_recommendation all_videos k w.
Proof.
  intros Hne Hlow. unfold find_and_recommend_music.
  rewrite (bool_decide_eq_false_2 _ Hne).
  rewrite (bind_returned _ _ _ _ _ (get_available_music_indices_eq all_videos w)).
  fold (available_videos all_videos w).
  rewrite (bool_decide_eq_false_2 _ (available_videos_nonempty all_videos w Hne)).
  rewrite (bind_returned (mret _) _ _ _ _ eq_refl).
  rewrite score_videos_eq.
  rewrite (bind_returned (lift _) _ _ _ _ eq_refl).
  rewrite !app_nil_l.
  rewrite (bool_decide_eq_true_2 _ (proj2 (eligible_nil_iff _ _) Hlow)).
  rewrite (bind_returned (mret _) _ _ _ _ eq_refl).
  by apply random_music_recommendation_after_check.
Qed.

(** At or above the threshold: the video at the drawn position among the
    available videos with the greatest score, whose index joins the pool. *)
Lemma find_and_recommend_music_match (weather_desc : string)
    (all_videos : list Video.t) (k : nat) (w : world) :
  all_videos <> [] ->
  (30 <= top_score_ weather_desc (available_videos all_videos w))%Z ->
  exists sel text,
    top_scorers_ weather_desc (available_videos all_videos w)
      !! (k mod List.length (top_scorers_ weather_desc (available_videos all_videos w)))%nat
    = Some sel
    /\ find_and_recommend_music_ (VStr weather_desc) all_videos k w
       = (Returned (text, Str.if_truthy (extract_youtube_id (Video.url sel))),
          with_session
            (set_recommended_music_original_indices
               (Some (music_pool (after_music_check all_videos w) ∪ {[Video.index sel]})))
            (after_music_check all_videos w)).
Proof.
  intros Hne Hhigh.
  destruct (random_choice_nonempty k _ (top_scorers_nonempty weather_desc _ Hhigh))
    as (sel & Hsel & Hchoice).
  exists sel.
  unfold find_and_recommend_music.
  rewrite (bool_decide_eq_false_2 _ Hne).
  rewrite (bind_returned _ _ _ _ _ (get_available_music_indices_eq all_videos w)).
  fold (available_videos all_videos w).
  rewrite (bool_decide_eq_false_2 _ (available_videos_nonempty all_videos w Hne)).
  rewrite (bind_returned (mret _) _ _ _ _ eq_refl).
  rewrite score_videos_eq.
  rewrite (bind_returned (lift _) _ _ _ _ eq_refl).
  rewrite !app_nil_l.
  rewrite bool_decide_eq_false_2
    by (intros Hnil; apply eligible_nil_iff in Hnil; lia).
  rewrite best_after_top by lia.
  destruct (Z.leb_spec 30 (top_score_ weather_desc (available_videos all_videos w)));
    [|lia].
  rewrite Z.max_r by lia.
  rewrite top_score_matches_top by done.
  rewrite Hchoice.
  rewrite (bind_returned (lift (Returned sel) ≫= _) _ _ _ _ eq_refl).
  rewrite (bind_returned _ _ _ _ _
             (add_recommended_music_eq (Video.index sel) _ _
                (music_pool_after_check all_videos w))).
  rewrite <- music_pool_after_check'.
  destruct (Str.if_truthy (extract_youtube_id (Video.url sel))) as [i|];
    eexists; (split; [exact Hsel | reflexivity]).
Qed.

End ScoreFacts.

(** ** The movie pool *)

Lemma movie_indices_nonempty (all_movies : list Movie.t) :
  all_movies <> [] -> movie_indices all_movies <> ∅.
Proof.
  destruct all_movies as [|m ms]; [done|]. intros _ H.
  assert (0%nat ∈ movie_indices (m :: ms)) as Hin
    by (unfold movie_indices; simpl; set_solver).
  rewrite H in Hin. set_solver.
Qed.

Lemma elem_of_movie_indices (all_movies : list Movie.t) (j : nat) :
  j ∈ movie_indices all_movies <-> (j < List.length all_movies)%nat.
Proof.
  unfold movie_indices. rewrite elem_of_list_to_set, elem_of_seq.
  split; [intros [_ H]; exact H | intros H; split; [apply Nat.le_0_l | exact H]].
Qed.

Lemma movie_exhausted_iff (all_movies : list Movie.t) (w : world) :
  movie_exhausted all_movies w = true <-> movie_indices all_movies ⊆ movie_pool w.
Proof.
  unfold movie_exhausted. rewrite bool_decide_eq_true, elements_empty_iff.
  split; intros H.
  - intros j Hj. destruct (decide (j ∈ movie_pool w)) as [|Hn]; [done|].
    assert (j ∈ movie_indices all_movies ∖ movie_pool w) as Hd
      by (by apply elem_of_difference).
    rewrite H in Hd. by apply elem_of_empty in Hd.
  - apply set_equiv. intros j. rewrite elem_of_difference, elem_of_empty.
    split; [intros [Hj Hn]; apply Hn, H, Hj | done].
Qed.

Lemma movie_pool_after_check (all_movies : list Movie.t) (w : world) :
  recommended_movie_indices (session (after_movie_check all_movies w))
  = Some (if movie_exhausted all_movies w then ∅ else movie_pool w).
Proof.
  unfold after_movie_check. destruct (movie_exhausted all_movies w); reflexivity.
Qed.

Lemma movie_pool_after_check' (all_movies : list Movie.t) (w : world) :
  movie_pool (after_movie_check all_movies w)
  = if movie_exhausted all_movies w then ∅ else movie_pool w.
Proof. unfold movie_pool at 1. rewrite movie_pool_after_check. reflexivity. Qed.

Lemma music_field_after_movie_check (all_movies : list Movie.t) (w : world) :
  recommended_music_original_indices (session (after_movie_check all_movies w))
  = recommended_music_original_indices (session w).
Proof.
  unfold after_movie_check. destruct (movie_exhausted all_movies w); reflexivity.
Qed.

Lemma available_movie_indices_after (all_movies : list Movie.t) (w : world) :
  available_movie_indices all_movies w
  = elements (movie_indices all_movies ∖ movie_pool (after_movie_check all_movies w)).
Proof.
  rewrite movie_pool_after_check'. unfold available_movie_indices.
  destruct (movie_exhausted all_movies w); [|reflexivity].
  by rewrite difference_empty_L.
Qed.

Lemma available_movie_indices_nonempty (all_movies : list Movie.t) (w : world) :
  all_movies <> [] -> available_movie_indices all_movies w <> [].
Proof.
  intros Hne. unfold available_movie_indices.
  destruct (movie_exhausted all_movies w) eqn:Hex.
  - intros Hnil. apply elements_empty_inv in Hnil.
    apply (movie_indices_nonempty all_movies Hne). set_solver.
  - unfold movie_exhausted in Hex. by apply bool_decide_eq_false in Hex.
Qed.

Lemma add_recommended_movie_eq (j : nat) (w : world) (r : gset nat) :
  recommended_movie_indices (session w) = Some r ->
  add_recommended_movie j w
  = (Returned tt, with_session (set_recommended_movie_indices (Some (r ∪ {[j]}))) w).
Proof.
  intros H. unfold add_recommended_movie, movie_recommended.
  unfold mbind, app_bind, get_session, update_session, mret, app_ret, lift.
  rewrite H. reflexivity.
Qed.

(** What [random_movie_recommendation] does up to the draw. *)
Lemma movie_check_eq {A} (all_movies : list Movie.t) (w : world)
    (rest : list nat -> app A) :
  ((s ← get_session;
    _ ← (if recommended_movie_indices s is None
         then update_session (set_recommended_movie_indices (Some ∅))
         else mret tt);
    r ← movie_recommended;
    available ←
      (if bool_decide (elements (movie_indices all_movies ∖ r) = []) then
         _ ← update_session (set_recommended_movie_indices (Some ∅));
         _ ← notify (Info "所有電影都推薦過了，已重置電影推薦列表。");
         mret (elements (movie_indices all_movies))
       else mret (elements (movie_indices all_movies ∖ r)));
    rest available) : app A) w
  = rest (available_movie_indices all_movies w) (after_movie_check all_movies w).
Proof.
  destruct w as [s p q]. destruct s as [t y u m mv h c i].
  unfold available_movie_indices, after_movie_check, movie_exhausted, movie_pool.
  unfold mbind, app_bind, get_session, update_session, movie_recommended, mret, app_ret,
    notify, lift, with_session.
  destruct mv as [r|]; simpl;
    destruct (bool_decide _); reflexivity.
Qed.

(** The outcome of a movie recommendation over a non-empty catalogue: the
    movie whose index is at the drawn position among the indices left. *)
Lemma random_movie_recommendation_eq (all_movies : list Movie.t) (k : nat) (w : world) :
  all_movies <> [] ->
  exists j movie,
    available_movie_indices all_movies w
      !! (k mod List.length (available_movie_indices all_movies w))%nat = Some j
    /\ all_movies !! j = Some movie
    /\ random_movie_recommendation all_movies k w
       = (Returned (Movie.title movie, Some (Movie.poster_url movie),
                    (Z.of_nat (List.length (available_movie_indices all_movies w)) - 1)%Z),
          with_session
            (set_recommended_movie_indices
               (Some (movie_pool (after_movie_check all_movies w) ∪ {[j]})))
            (after_movie_check all_movies w)).
Proof.
  intros Hne.
  destruct (random_choice_nonempty k _ (available_movie_indices_nonempty all_movies w Hne))
    as (j & Hj & Hchoice).
  assert (j ∈ movie_indices all_movies) as Hin.
  { rewrite available_movie_indices_after in Hj.
    apply list_elem_of_lookup_2, elem_of_elements in Hj. set_solver. }
  apply elem_of_movie_indices, lookup_lt_is_Some_2 in Hin as [movie Hmovie].
  exists j, movie. split; [exact Hj|]. split; [exact Hmovie|].
  unfold random_movie_recommendation.
  rewrite (bool_decide_eq_false_2 _ Hne).
  fold (movie_indices all_movies).
  rewrite movie_check_eq.
  rewrite Hchoice.
  rewrite (bind_returned (lift (Returned j)) _ _ _ _ eq_refl).
  rewrite Hmovie.
  rewrite (bind_returned _ _ _ _ _
             (add_recommended_movie_eq j _ _ (movie_pool_after_check all_movies w))).
  rewrite <- movie_pool_after_check'.
  reflexivity.
Qed.

(** ** The recommendation operations *)

Lemma filter_all {A} (P : A -> Prop) `{forall x, Decision (P x)} (l : list A) :
  (forall x, x ∈ l -> P x) -> filter P l = l.
Proof.
  induction l as [|x l IH]; intros Hall; [reflexivity|].
  rewrite filter_cons, decide_True by (apply Hall; left).
  f_equal. apply IH. intros y Hy. apply Hall. by right.
Qed.

Lemma available_videos_exhausted (all_videos : list Video.t) (w : world) :
  music_exhausted all_videos w = true -> available_videos all_videos w = all_videos.
Proof.
  intros Hex. unfold available_videos, available_music_indices, videos_with_index_in.
  rewrite Hex. apply filter_all. intros v Hv.
  apply elem_of_elements. unfold video_indices.
  apply elem_of_list_to_set, list_elem_of_fmap. by exists v.
Qed.

(** The pool after a music recommendation that drew [sel]. *)
Lemma music_pool_step (all_videos : list Video.t) (w : world) (sel : Video.t) :
  all_videos <> [] ->
  music_pool w ⊆ video_indices all_videos ->
  sel ∈ available_videos all_videos w ->
  let w' :=
    with_session
      (set_recommended_music_original_indices
         (Some (music_pool (after_music_check all_videos w) ∪ {[Video.index sel]})))
      (after_music_check all_videos w) in
  sel ∈ all_videos
  /\ pool_step (video_indices all_videos) (music_pool w) (music_pool w') (Video.index sel)
  /\ movie_pool w' = movie_pool w
  /\ (music_pool w = video_indices all_videos -> available_videos all_videos w = all_videos).
Proof.
  intros Hne Hinv Hsel w'.
  apply elem_of_available_videos in Hsel as [Hin Hnot].
  assert (Video.index sel ∈ video_indices all_videos) as Hidx.
  { unfold video_indices. apply elem_of_list_to_set, list_elem_of_fmap. by exists sel. }
  assert (music_pool w' = music_pool (after_music_check all_videos w) ∪ {[Video.index sel]})
    as Hpool by reflexivity.
  assert (movie_pool w' = movie_pool w) as Hmovie.
  { unfold movie_pool. subst w'. cbn [session with_session set_recommended_music_original_indices
      recommended_movie_indices].
    by rewrite movie_field_after_check. }
  rewrite music_pool_after_check' in Hpool, Hnot.
  split; [exact Hin|]. split; [|split; [exact Hmovie|]].
  - split; [exact Hidx|].
    destruct (music_exhausted all_videos w) eqn:Hex.
    + right. apply music_exhausted_iff in Hex as [Hsub _].
      split; [set_solver|]. rewrite Hpool. set_solver.
    + left. split; [|split; [exact Hnot | exact Hpool]].
      intros Heq. apply not_true_iff_false in Hex. apply Hex.
      apply music_exhausted_iff. split; [set_solver | by apply video_indices_nonempty].
  - intros Heq. apply available_videos_exhausted.
    apply music_exhausted_iff. split; [set_solver | by apply video_indices_nonempty].
Qed.

Lemma movie_pool_step (all_movies : list Movie.t) (w : world) (j : nat) :
  all_movies <> [] ->
  movie_pool w ⊆ movie_indices all_movies ->
  j ∈ available_movie_indices all_movies w ->
  let w' :=
    with_session
      (set_recommended_movie_indices
         (Some (movie_pool (after_movie_check all_movies w) ∪ {[j]})))
      (after_movie_check all_movies w) in
  pool_step (movie_indices all_movies) (movie_pool w) (movie_pool w') j
  /\ music_pool w' = music_pool w
  /\ (movie_pool w = movie_indices all_movies ->
      available_movie_indices all_movies w = elements (movie_indices all_movies)).
Proof.
  intros Hne Hinv Hj w'.
  rewrite available_movie_indices_after in Hj.
  apply elem_of_elements, elem_of_difference in Hj as [Hidx Hnot].
  assert (movie_pool w' = movie_pool (after_movie_check all_movies w) ∪ {[j]})
    as Hpool by reflexivity.
  assert (music_pool w' = music_pool w) as Hmusic.
  { unfold music_pool. subst w'. cbn [session with_session set_recommended_movie_indices
      recommended_music_original_indices].
    by rewrite music_field_after_movie_check. }
  rewrite movie_pool_after_check' in Hpool, Hnot.
  split; [|split; [exact Hmusic|]].
  - split; [exact Hidx|].
    destruct (movie_exhausted all_movies w) eqn:Hex.
    + right. apply movie_exhausted_iff in Hex.
      split; [set_solver|]. rewrite Hpool. set_solver.
    + left. split; [|split; [exact Hnot | exact Hpool]].
      intros Heq. apply not_true_iff_false in Hex. apply Hex.
      apply movie_exhausted_iff. set_solver.
  - intros Heq. unfold available_movie_indices.
    rewrite (proj2 (movie_exhausted_iff all_movies w)); [reflexivity | set_solver].
Qed.

Lemma pool_step_subseteq `{Countable K} (all before after : gset K) (i : K) :
  before ⊆ all -> pool_step all before after i -> after ⊆ all.
Proof. intros Hsub [Hi [(_ & _ & ->) | [_ ->]]]; set_solver. Qed.

Section Recommendation.

Context (partial_ratio : string -> string -> Z) (str_lower : string -> string).
Context (all_videos : list Video.t) (all_movies : list Movie.t).

Local Abbreviation score_of_ := (score_of partial_ratio str_lower).
Local Abbreviation top_score_ := (top_score partial_ratio str_lower).
Local Abbreviation top_scorers_ := (top_scorers partial_ratio str_lower).
Local Abbreviation score_videos_ := (score_videos partial_ratio str_lower).
Local Abbreviation find_and_recommend_music_ :=
  (find_and_recommend_music partial_ratio str_lower).
Local Abbreviation run_operation_ :=
  (run_operation partial_ratio str_lower all_videos all_movies).
Local Abbreviation run_operations_ :=
  (run_operations partial_ratio str_lower all_videos all_movies).

(** The world a music recommendation leaves when it drew [sel] *)
Local Abbreviation music_world w sel :=
  (with_session
     (set_recommended_music_original_indices
        (Some (music_pool (after_music_check all_videos w) ∪ {[Video.index sel]})))
     (after_music_check all_videos w)).

Lemma top_score_low_iff (weather_desc : string) (videos : list Video.t) :
  (top_score_ weather_desc videos < 30)%Z
  <-> (forall v, v ∈ videos -> (score_of_ weather_desc v < 30)%Z).
Proof.
  split.
  - intros Hlow v Hv. pose proof (top_score_ge partial_ratio str_lower weather_desc _ v Hv).
    lia.
  - intros Hall. destruct (Z.lt_ge_cases (top_score_ weather_desc videos) 30) as [|Hge];
      [done|].
    destruct (top_score_attained partial_ratio str_lower weather_desc videos ltac:(lia))
      as (v & Hv & Hs).
    specialize (Hall v Hv). lia.
Qed.

Lemma find_and_recommend_music_selects (weather_desc : string) (k : nat) (w : world) :
  all_videos <> [] ->
  exists sel text,
    sel ∈ available_videos all_videos w
    /\ find_and_recommend_music_ (VStr weather_desc) all_videos k w
       = (Returned (text, Str.if_truthy (extract_youtube_id (Video.url sel))),
          music_world w sel).
Proof.
  intros Hne.
  destruct (Z.lt_ge_cases (top_score_ weather_desc (available_videos all_videos w)) 30)
    as [Hlow|Hhigh].
  - rewrite (find_and_recommend_music_fallback _ _ _ _ _ _ Hne Hlow).
    destruct (random_music_recommendation_eq all_videos k w Hne)
      as (sel & text & Hsel & Heq).
    exists sel, text. split; [by eapply list_elem_of_lookup_2 | exact Heq].
  - destruct (find_and_recommend_music_match _ _ weather_desc _ k w Hne Hhigh)
      as (sel & text & Hsel & Heq).
    exists sel, text. split; [|exact Heq].
    apply list_elem_of_lookup_2 in Hsel. unfold top_scorers in Hsel.
    by apply list_elem_of_filter in Hsel as [_ Hsel].
Qed.

(** Both pools stay within the catalogues. *)
Lemma run_operation_within (o : operation) (w : world) :
  all_videos <> [] -> all_movies <> [] ->
  music_pool w ⊆ video_indices all_videos ->
  movie_pool w ⊆ movie_indices all_movies ->
  music_pool (run_operation_ o w) ⊆ video_indices all_videos
  /\ movie_pool (run_operation_ o w) ⊆ movie_indices all_movies.
Proof.
  intros Hv Hm Hmusic Hmovie. destruct o as [weather_desc k | k | k]; cbn [run_operation].
  - destruct (find_and_recommend_music_selects weather_desc k w Hv)
      as (sel & text & Hsel & ->). cbn [snd].
    destruct (music_pool_step all_videos w sel Hv Hmusic Hsel) as (_ & Hstep & Hsame & _).
    split; [exact (pool_step_subseteq _ _ _ _ Hmusic Hstep) | by rewrite Hsame].
  - destruct (random_music_recommendation_eq all_videos k w Hv)
      as (sel & text & Hsel & ->). cbn [snd].
    apply list_elem_of_lookup_2 in Hsel.
    destruct (music_pool_step all_videos w sel Hv Hmusic Hsel) as (_ & Hstep & Hsame & _).
    split; [exact (pool_step_subseteq _ _ _ _ Hmusic Hstep) | by rewrite Hsame].
  - destruct (random_movie_recommendation_eq all_movies k w Hm)
      as (j & movie & Hj & _ & ->). cbn [snd].
    apply list_elem_of_lookup_2 in Hj.
    destruct (movie_pool_step all_movies w j Hm Hmovie Hj) as (Hstep & Hsame & _).
    split; [by rewrite Hsame | exact (pool_step_subseteq _ _ _ _ Hmovie Hstep)].
Qed.

Lemma run_operations_within (ops : list operation) (w : world) :
  all_videos <> [] -> all_movies <> [] ->
  music_pool w ⊆ video_indices all_videos ->
  movie_pool w ⊆ movie_indices all_movies ->
  music_pool (run_operations_ ops w) ⊆ video_indices all_videos
  /\ movie_pool (run_operations_ ops w) ⊆ movie_indices all_movies.
Proof.
  intros Hv Hm. revert w. induction ops as [|o ops IH]; intros w Hmusic Hmovie.
  - by split.
  - cbn [run_operations foldl].
    destruct (run_operation_within o w Hv Hm Hmusic Hmovie) as [H1 H2].
    exact (IH _ H1 H2).
Qed.

(** C1.  Start from a session whose two pools are empty and run any
    sequence of the three recommendation operations over non-empty
    catalogues; let [w] be the world reached and [w'] the world after one
    more operation.  That operation returns normally and selects an entry
    of its catalogue whose index [i] is such that: either the pool did not
    hold every index of the catalogue, [i] was not in it and is added to
    it; or the pool held every index, it was reset and holds [i] alone.
    In the second case a random recommendation draws from the whole
    catalogue.  The pool of the other catalogue is unchanged. *)
Theorem no_repeat_until_exhausted (ops : list operation) (o : operation) (w0 : world) :
  all_videos <> [] -> all_movies <> [] ->
  music_pool w0 = ∅ -> movie_pool w0 = ∅ ->
  let w := run_operations_ ops w0 in
  let w' := run_operation_ o w in
  match o with
  | FindAndRecommendMusic weather_desc k =>
      exists sel text,
        sel ∈ all_videos
        /\ find_and_recommend_music_ (VStr weather_desc) all_videos k w
           = (Returned (text, Str.if_truthy (extract_youtube_id (Video.url sel))), w')
        /\ pool_step (video_indices all_videos) (music_pool w) (music_pool w')
             (Video.index sel)
        /\ movie_pool w' = movie_pool w
  | RandomMusicRecommendation k =>
      exists sel text,
        sel ∈ all_videos
        /\ random_music_recommendation all_videos k w
           = (Returned (text, Str.if_truthy (extract_youtube_id (Video.url sel))), w')
        /\ pool_step (video_indices all_videos) (music_pool w) (music_pool w')
             (Video.index sel)
        /\ movie_pool w' = movie_pool w
        /\ (music_pool w = video_indices all_videos ->
            all_videos !! (k mod List.length all_videos)%nat = Some sel)
  | RandomMovieRecommendation k =>
      exists j movie remaining,
        all_movies !! j = Some movie
        /\ random_movie_recommendation all_movies k w
           = (Returned (Movie.title movie, Some (Movie.poster_url movie), remaining), w')
        /\ pool_step (movie_indices all_movies) (movie_pool w) (movie_pool w') j
        /\ music_pool w' = music_pool w
        /\ (movie_pool w = movie_indices all_movies ->
            elements (movie_indices all_movies)
              !! (k mod List.length (elements (movie_indices all_movies)))%nat = Some j)
  end.
Proof.
  intros Hv Hm Hmusic0 Hmovie0 w w'.
  destruct (run_operations_within ops w0 Hv Hm) as [Hmusic Hmovie].
  { rewrite Hmusic0. set_solver. }
  { rewrite Hmovie0. set_solver. }
  fold w in Hmusic, Hmovie.
  destruct o as [weather_desc k | k | k]; subst w'; cbn [run_operation].
  - destruct (find_and_recommend_music_selects weather_desc k w Hv)
      as (sel & text & Hsel & Heq).
    destruct (music_pool_step all_videos w sel Hv Hmusic Hsel) as (Hin & Hstep & Hsame & _).
    exists sel, text. rewrite Heq. cbn [snd].
    split; [done|]. split; [done|]. split; done.
  - destruct (random_music_recommendation_eq all_videos k w Hv)
      as (sel & text & Hsel & Heq).
    destruct (music_pool_step all_videos w sel Hv Hmusic
                (list_elem_of_lookup_2 _ _ _ Hsel)) as (Hin & Hstep & Hsame & Hfull).
    exists sel, text. rewrite Heq. cbn [snd].
    split; [done|]. split; [done|]. split; [done|]. split; [done|].
    intros Hall. by rewrite (Hfull Hall) in Hsel.
  - destruct (random_movie_recommendation_eq all_movies k w Hm)
      as (j & movie & Hj & Hmovie_j & Heq).
    destruct (movie_pool_step all_movies w j Hm Hmovie
                (list_elem_of_lookup_2 _ _ _ Hj)) as (Hstep & Hsame & Hfull).
    exists j, movie, (Z.of_nat (List.length (available_movie_indices all_movies w)) - 1)%Z.
    rewrite Heq. cbn [snd].
    split; [done|]. split; [done|]. split; [done|]. split; [done|].
    intros Hall. by rewrite (Hfull Hall) in Hj.
Qed.

(** C2, as amended.  In [find_and_recommend_music] over a non-empty
    catalogue, when the greatest score among the available videos is at
    least 30, the list handed to [random.choice] is exactly the list of the
    available videos whose score is that greatest score, in catalogue
    order: no other video can be selected, every video with the greatest
    score is in the list, and the video selected is the one at the drawn
    position of that list. *)
Theorem find_and_recommend_music_top_scorers (weather_desc : string) (k : nat)
    (w : world) :
  all_videos <> [] ->
  let available := available_videos all_videos w in
  let best := top_score_ weather_desc available in
  let candidates := top_scorers_ weather_desc available in
  (30 <= best)%Z ->
  (forall v, v ∈ candidates <-> v ∈ available /\ score_of_ weather_desc v = best)
  /\ (forall v, v ∈ available -> (score_of_ weather_desc v <= best)%Z)
  /\ (exists matched,
        score_videos_ (VStr weather_desc) available [] (-1)%Z = Returned (matched, best)
        /\ top_score_matches matched best = candidates)
  /\ (exists sel text,
        candidates !! (k mod List.length candidates)%nat = Some sel
        /\ find_and_recommend_music_ (VStr weather_desc) all_videos k w
           = (Returned (text, Str.if_truthy (extract_youtube_id (Video.url sel))),
              music_world w sel)).
Proof.
  intros Hne available best candidates Hbest.
  split; [|split; [|split]].
  - intros v. subst candidates. unfold top_scorers. rewrite list_elem_of_filter. tauto.
  - intros v Hv. exact (top_score_ge partial_ratio str_lower weather_desc _ v Hv).
  - eexists. rewrite score_videos_eq, app_nil_l. split.
    + f_equal. f_equal. rewrite best_after_top by lia. fold available best.
      destruct (Z.leb_spec 30 best); lia.
    + by apply top_score_matches_top.
  - exact (find_and_recommend_music_match _ _ weather_desc _ k w Hne Hbest).
Qed.

(** C10.  In [find_and_recommend_music] over a non-empty catalogue the
    videos kept for the weather-matched selection are exactly the available
    videos whose score is at least 30, and a video selected on that path has
    a score of at least 30; when no available video reaches 30 the function
    is [random_music_recommendation]: it returns normally with the video at
    the drawn position among all the available videos. *)
Theorem find_and_recommend_music_threshold (weather_desc : string) (k : nat) (w : world) :
  all_videos <> [] ->
  let available := available_videos all_videos w in
  (exists matched best,
      score_videos_ (VStr weather_desc) available [] (-1)%Z = Returned (matched, best)
      /\ forall v s,
           (v, s) ∈ matched
           <-> v ∈ available /\ s = score_of_ weather_desc v /\ (30 <= s)%Z)
  /\ ((exists v, v ∈ available /\ (30 <= score_of_ weather_desc v)%Z) ->
      exists sel text,
        sel ∈ available /\ (30 <= score_of_ weather_desc sel)%Z
        /\ find_and_recommend_music_ (VStr weather_desc) all_videos k w
           = (Returned (text, Str.if_truthy (extract_youtube_id (Video.url sel))),
              music_world w sel))
  /\ ((forall v, v ∈ available -> (score_of_ weather_desc v < 30)%Z) ->
      find_and_recommend_music_ (VStr weather_desc) all_videos k w
      = random_music_recommendation all_videos k w
      /\ exists sel text,
           available !! (k mod List.length available)%nat = Some sel
           /\ random_music_recommendation all_videos k w
              = (Returned (text, Str.if_truthy (extract_youtube_id (Video.url sel))),
                 music_world w sel)).
Proof.
  intros Hne available. split; [|split].
  - eexists _, _. rewrite score_videos_eq, app_nil_l. split; [reflexivity|].
    intros v s. unfold eligible. rewrite list_elem_of_fmap. split.
    + intros (v' & [= -> ->] & Hv). apply list_elem_of_filter in Hv as [Hge Hv]. done.
    + intros (Hv & -> & Hge). exists v. split; [done|]. by apply list_elem_of_filter.
  - intros (v & Hv & Hge).
    pose proof (top_score_ge partial_ratio str_lower weather_desc _ v Hv) as Htop.
    assert (30 <= top_score_ weather_desc (available_videos all_videos w))%Z as Hbest
      by (subst available; lia).
    destruct (find_and_recommend_music_match _ _ weather_desc _ k w Hne Hbest)
      as (sel & text & Hsel & Heq).
    exists sel, text. apply list_elem_of_lookup_2 in Hsel.
    unfold top_scorers in Hsel. apply list_elem_of_filter in Hsel as [Hs Hsel].
    split; [done|]. split; [lia | exact Heq].
  - intros Hlow. apply top_score_low_iff in Hlow.
    split; [exact (find_and_recommend_music_fallback _ _ _ _ _ _ Hne Hlow)|].
    exact (random_music_recommendation_eq all_videos k w Hne).
Qed.

End Recommendation.

Lemma no_repeat_until_exhausted_witness :
  Demo.videos <> [] /\ Demo.movies <> []
  /\ music_pool Demo.fresh_world = ∅ /\ movie_pool Demo.fresh_world = ∅
  /\ exists sel,
       sel ∈ Demo.videos
       /\ pool_step (video_indices Demo.videos)
            (music_pool
               (run_operations Demo.partial_ratio Demo.str_lower Demo.videos Demo.movies
                  [RandomMusicRecommendation 0; RandomMovieRecommendation 1]
                  Demo.fresh_world))
            (music_pool
               (run_operation Demo.partial_ratio Demo.str_lower Demo.videos Demo.movies
                  (RandomMusicRecommendation 4)
                  (run_operations Demo.partial_ratio Demo.str_lower Demo.videos Demo.movies
                     [RandomMusicRecommendation 0; RandomMovieRecommendation 1]
                     Demo.fresh_world)))
            (Video.index sel).
Proof.
  assert (Demo.videos <> []) as Hv by discriminate.
  assert (Demo.movies <> []) as Hm by discriminate.
  assert (music_pool Demo.fresh_world = ∅) as H1 by reflexivity.
  assert (movie_pool Demo.fresh_world = ∅) as H2 by reflexivity.
  split; [exact Hv|]. split; [exact Hm|]. split; [exact H1|]. split; [exact H2|].
  destruct (no_repeat_until_exhausted Demo.partial_ratio Demo.str_lower Demo.videos
              Demo.movies [RandomMusicRecommendation 0; RandomMovieRecommendation 1]
              (RandomMusicRecommendation 4) Demo.fresh_world Hv Hm H1 H2)
    as (sel & text & Hin & _ & Hstep & _).
  exists sel. split; [exact Hin | exact Hstep].
Defined.

Example three_draws_exhaust_then_reset :
  let run := run_operations Demo.partial_ratio Demo.str_lower Demo.videos Demo.movies in
  music_pool (run [RandomMusicRecommendation 0] Demo.fresh_world) = {[0%Z]}
  /\ music_pool (run [RandomMusicRecommendation 0; RandomMusicRecommendation 0]
                   Demo.fresh_world) = {[0%Z; 1%Z]}
  /\ music_pool (run [RandomMusicRecommendation 0; RandomMusicRecommendation 0;
                      RandomMusicRecommendation 0] Demo.fresh_world)
     = {[0%Z; 1%Z; 2%Z]}
  /\ music_pool (run [RandomMusicRecommendation 0; RandomMusicRecommendation 0;
                      RandomMusicRecommendation 0; RandomMusicRecommendation 1]
                   Demo.fresh_world) = {[1%Z]}.
Proof. vm_compute. repeat split. Qed.

Lemma find_and_recommend_music_top_scorers_witness :
  Demo.rain_videos <> []
  /\ (30 <= top_score Demo.partial_ratio Demo.str_lower "rain"
              (available_videos Demo.rain_videos Demo.fresh_world))%Z
  /\ exists matched,
       score_videos Demo.partial_ratio Demo.str_lower (VStr "rain")
         (available_videos Demo.rain_videos Demo.fresh_world) [] (-1)%Z
       = Returned (matched,
                   top_score Demo.partial_ratio Demo.str_lower "rain"
                     (available_videos Demo.rain_videos Demo.fresh_world))
       /\ top_score_matches matched
            (top_score Demo.partial_ratio Demo.str_lower "rain"
               (available_videos Demo.rain_videos Demo.fresh_world))
          = top_scorers Demo.partial_ratio Demo.str_lower "rain"
              (available_videos Demo.rain_videos Demo.fresh_world).
Proof.
  assert (Demo.rain_videos <> []) as Hv by discriminate.
  assert (30 <= top_score Demo.partial_ratio Demo.str_lower "rain"
                  (available_videos Demo.rain_videos Demo.fresh_world))%Z as Hb
    by (vm_compute; discriminate).
  split; [exact Hv|]. split; [exact Hb|].
  exact (proj1 (proj2 (proj2
    (find_and_recommend_music_top_scorers Demo.partial_ratio Demo.str_lower
       Demo.rain_videos "rain" 0 Demo.fresh_world Hv Hb)))).
Defined.

(** C2 as stated fails below the threshold.  Against [abcdefghij] the three
    songs score 10, 10 and 0: two available videos attain the greatest score,
    which is under 30, so nothing is kept for the matched selection, the
    function falls back on the random recommendation over all three, and the
    draw 2 selects the third song, whose score is 0. *)
Lemma selection_below_threshold_counterexample :
  available_videos Demo.videos Demo.fresh_world = Demo.videos
  /\ score_of Demo.partial_ratio Demo.str_lower "abcdefghij" <$> Demo.videos
     = [10; 10; 0]%Z
  /\ Video.index <$> top_scorers Demo.partial_ratio Demo.str_lower "abcdefghij" Demo.videos
     = [0; 1]%Z
  /\ (find_and_recommend_music Demo.partial_ratio Demo.str_lower (VStr "abcdefghij")
        Demo.videos 2 Demo.fresh_world).1
     = Returned ("已為您隨機推薦歌曲：", Some "ccccccccccc")
  /\ music_pool
       (find_and_recommend_music Demo.partial_ratio Demo.str_lower (VStr "abcdefghij")
          Demo.videos 2 Demo.fresh_world).2
     = {[2%Z]}.
Proof. vm_compute. repeat split. Qed.

Lemma find_and_recommend_music_threshold_witness :
  Demo.videos <> []
  /\ find_and_recommend_music Demo.partial_ratio Demo.str_lower (VStr "abcdefghij")
       Demo.videos 2 Demo.fresh_world
     = random_music_recommendation Demo.videos 2 Demo.fresh_world.
Proof.
  assert (Demo.videos <> []) as Hv by discriminate.
  split; [exact Hv|].
  refine (proj1 (proj2 (proj2
    (find_and_recommend_music_threshold Demo.partial_ratio Demo.str_lower Demo.videos
       "abcdefghij" 2 Demo.fresh_world Hv)) _)).
  intros v Hv'. vm_compute in Hv'.
  repeat (apply elem_of_cons in Hv' as [-> | Hv']); [| | |by apply elem_of_nil in Hv'];
    vm_compute; reflexivity.
Defined.

Example find_and_recommend_music_picks_match :
  (find_and_recommend_music Demo.partial_ratio Demo.str_lower (VStr "rain")
     Demo.rain_videos 7 Demo.fresh_world).1
  = Returned ("這樣的天氣來聽這首療癒一下吧！", Some "aaaaaaaaaaa").
Proof. vm_compute. reflexivity. Qed.

(** ** Free text in [process_query], and [main] *)

Lemma random_music_recommendation_returns (all_videos : list Video.t) (k : nat) (w : world) :
  exists music_text youtube_id w',
    random_music_recommendation all_videos k w = (Returned (music_text, youtube_id), w').
Proof.
  destruct all_videos as [|v vs] eqn:Hvs.
  - eexists _, _, _. reflexivity.
  - rewrite <- Hvs.
    destruct (random_music_recommendation_eq all_videos k w) as (sel & text & _ & Heq);
      [by rewrite Hvs|].
    eexists _, _, _. exact Heq.
Qed.

Section FreeText.

Context (strptime : string -> option datetime) (now : Z)
        (py_str : value -> string) (exn_str : exn -> string)
        (http_get_json : string -> py_result value)
        (partial_ratio ratio : string -> string -> Z)
        (str_lower str_strip b64encode : string -> string)
        (read_excel : string -> py_result (list excel_row))
        (read_csv : string -> py_result (list (string * value)))
        (fs : filesystem) (secrets : gmap string string).

Local Abbreviation process_query_ :=
  (process_query strptime now py_str exn_str http_get_json partial_ratio ratio
     str_lower b64encode fs).
Local Abbreviation main_ :=
  (main strptime now py_str exn_str http_get_json partial_ratio ratio str_lower
     str_strip b64encode read_excel read_csv fs secrets).

(** C6, as amended.  For an input that is not empty, not a key of the
    correction table and not a known city name, [process_query] makes no
    weather request and no fuzzy match: after the reset it runs
    [random_music_recommendation] on the catalogue and stores its text and
    its video id, so the video is the one at the drawn position among the
    available videos, whatever the keyword. *)
Theorem process_query_free_text_is_random (API_KEY : option string) (city_input : string)
    (location_names : list value) (all_videos : list Video.t)
    (movie_poster_urls : list Movie.t) (recommend_music : bool)
    (loaded_weather_codes : list (string * value)) (k : nat) (w : world) :
  Str.truthy city_input = true ->
  MANUAL_CORRECTIONS !! city_input = None ->
  existsb (fun name => Py.eq_str name city_input) location_names = false ->
  exists music_text youtube_id w',
    random_music_recommendation all_videos k (reset_recommendation_states w).2
    = (Returned (music_text, youtube_id), w')
    /\ process_query_ API_KEY city_input location_names all_videos movie_poster_urls
         recommend_music loaded_weather_codes k w
       = (Returned tt,
          {| session :=
               set_weather_image_caption_desc VNone
                 (set_recommended_weather_image_html None
                    (set_recommended_youtube_id youtube_id
                       (set_result_text music_text (session w'))));
             page := page w';
             requests := requests w |}).
Proof.
  intros Htruthy Hkey Hname.
  destruct (random_music_recommendation_returns all_videos k
              (reset_recommendation_states w).2) as (music_text & youtube_id & w' & Hr).
  exists music_text, youtube_id, w'. split; [exact Hr|].
  unfold process_query.
  rewrite (bind_returned _ _ _ _ _ (reset_recommendation_states_returns w)).
  rewrite Htruthy. cbn [negb].
  unfold matched_city_of. rewrite Hkey, Hname. cbn [Str.if_truthy].
  rewrite (bind_returned _ _ _ _ _ Hr).
  pose proof (keeps_requests_random_music all_videos k (reset_recommendation_states w).2)
    as Hreq.
  rewrite Hr, keeps_requests_reset in Hreq. cbn [snd] in Hreq.
  destruct w' as [s' p' q']. cbn [requests] in Hreq. subst q'. reflexivity.
Qed.

(** C5 at its failing input.  Without the file [background.jpg] a run of
    the script ends in [FileNotFoundError], whatever the input, the button
    and the state: [set_background] opens the file outside any [try] and
    [main] calls it first. *)
Theorem main_raises_without_background (city_input : string) (pressed : option button)
    (k : nat) (w : world) :
  fs !! "background.jpg" = None ->
  (main_ city_input pressed k w).1 = Raised (FileNotFoundError "background.jpg").
Proof.
  intros Hfile. unfold main, read_API_KEY, set_background, read_binary.
  rewrite Hfile.
  unfold mbind, app_bind, mret, app_ret, notify, lift.
  destruct (secrets !! "API_KEY"); reflexivity.
Qed.

(** The other way a run ends in an exception: without the secret the name
    [API_KEY] stays unbound and building the first URL raises. *)
Lemma main_raises_without_key (city_input : string) (pressed : option button)
    (k : nat) (w : world) (image : string) :
  fs !! "background.jpg" = Some (RegularFile image) ->
  secrets !! "API_KEY" = None ->
  (main_ city_input pressed k w).1 = Raised (NameError "API_KEY")
  /\ exists msg, Error msg ∈ page (main_ city_input pressed k w).2.
Proof.
  intros Hfile Hkey. unfold main, read_API_KEY, set_background, read_binary,
    get_location_names.
  rewrite Hfile, Hkey.
  unfold mbind, app_bind, mret, app_ret, notify, lift. cbn.
  split; [reflexivity|]. eexists.
  apply elem_of_app. left. apply elem_of_app. right. left.
Qed.

End FreeText.

Lemma process_query_free_text_is_random_witness :
  Str.truthy "rain" = true
  /\ MANUAL_CORRECTIONS !! "rain" = None
  /\ existsb (fun name => Py.eq_str name "rain") [VStr "臺北市"] = false
  /\ exists music_text youtube_id w',
       random_music_recommendation Demo.rain_videos 1
         (reset_recommendation_states Demo.fresh_world).2
       = (Returned (music_text, youtube_id), w')
       /\ recommended_youtube_id
            (session
               (process_query Demo.strptime Demo.now Demo.py_str Demo.exn_str
                  (fun _ => Returned Demo.good_payload) Demo.partial_ratio Demo.ratio
                  Demo.str_lower Demo.b64encode ∅ (Some "KEY") "rain" [VStr "臺北市"]
                  Demo.rain_videos Demo.movies true [] 1 Demo.fresh_world).2)
          = youtube_id.
Proof.
  assert (Str.truthy "rain" = true) as H1 by reflexivity.
  assert (MANUAL_CORRECTIONS !! "rain" = None) as H2 by (vm_compute; reflexivity).
  assert (existsb (fun name => Py.eq_str name "rain") [VStr "臺北市"] = false) as H3
    by (vm_compute; reflexivity).
  split; [exact H1|]. split; [exact H2|]. split; [exact H3|].
  destruct (process_query_free_text_is_random Demo.strptime Demo.now Demo.py_str
              Demo.exn_str (fun _ => Returned Demo.good_payload) Demo.partial_ratio
              Demo.ratio Demo.str_lower Demo.b64encode ∅ (Some "KEY") "rain"
              [VStr "臺北市"] Demo.rain_videos Demo.movies true [] 1 Demo.fresh_world
              H1 H2 H3) as (music_text & youtube_id & w' & Hr & Hq).
  exists music_text, youtube_id, w'. split; [exact Hr|].
  rewrite Hq. reflexivity.
Defined.

(** C6 as stated fails.  The keyword [rain] is no city; of the two songs the
    first is described as [rain] and scores 100 against the keyword, the
    second as [cold] and scores 0.  A fuzzy match on the keyword selects the
    first song whatever the draw, yet with the draw 1 [process_query] returns
    the second one. *)
Lemma process_query_free_text_counterexample :
  score_of Demo.partial_ratio Demo.str_lower "rain" <$> Demo.rain_videos = [100; 0]%Z
  /\ (forall k,
        music_pool
          (find_and_recommend_music Demo.partial_ratio Demo.str_lower (VStr "rain")
             Demo.rain_videos k Demo.fresh_world).2
        = {[0%Z]})
  /\ recommended_youtube_id
       (session
          (process_query Demo.strptime Demo.now Demo.py_str Demo.exn_str
             (fun _ => Returned Demo.good_payload) Demo.partial_ratio Demo.ratio
             Demo.str_lower Demo.b64encode ∅ (Some "KEY") "rain" [VStr "臺北市"]
             Demo.rain_videos Demo.movies true [] 1 Demo.fresh_world).2)
     = Some "bbbbbbbbbbb"
  /\ music_pool
       (process_query Demo.strptime Demo.now Demo.py_str Demo.exn_str
          (fun _ => Returned Demo.good_payload) Demo.partial_ratio Demo.ratio
          Demo.str_lower Demo.b64encode ∅ (Some "KEY") "rain" [VStr "臺北市"]
          Demo.rain_videos Demo.movies true [] 1 Demo.fresh_world).2
     = {[1%Z]}.
Proof.
  split; [vm_compute; reflexivity|].
  split; [|split; vm_compute; reflexivity].
  intros k.
  assert (Demo.rain_videos <> []) as Hv by discriminate.
  assert (30 <= top_score Demo.partial_ratio Demo.str_lower "rain"
                  (available_videos Demo.rain_videos Demo.fresh_world))%Z as Hb
    by (vm_compute; discriminate).
  destruct (find_and_recommend_music_match Demo.partial_ratio Demo.str_lower "rain"
              Demo.rain_videos k Demo.fresh_world Hv Hb) as (sel & text & Hsel & Heq).
  assert (top_scorers Demo.partial_ratio Demo.str_lower "rain"
            (available_videos Demo.rain_videos Demo.fresh_world)
          = [ {| Video.index := 0; Video.url := "https://youtu.be/aaaaaaaaaaa";
                 Video.desc := "rain"; Video.title := "A" |} ]) as Htop
    by (vm_compute; reflexivity).
  rewrite Htop in Hsel. cbn [List.length] in Hsel. rewrite Nat.mod_1_r in Hsel.
  injection Hsel as <-.
  rewrite Heq. vm_compute. reflexivity.
Qed.

Lemma main_raises_without_background_witness :
  (∅ : filesystem) !! "background.jpg" = None
  /\ (main Demo.strptime Demo.now Demo.py_str Demo.exn_str
        (fun _ => Returned Demo.good_payload) Demo.partial_ratio Demo.ratio
        Demo.str_lower Demo.str_strip Demo.b64encode
        (fun _ => Returned []) (fun _ => Returned [])
        ∅ (<["API_KEY" := "KEY"]> ∅) "臺北市" (Some QueryWeather) 0 Demo.fresh_world).1
     = Raised (FileNotFoundError "background.jpg").
Proof.
  assert ((∅ : filesystem) !! "background.jpg" = None) as H by reflexivity.
  split; [exact H|].
  exact (main_raises_without_background Demo.strptime Demo.now Demo.py_str Demo.exn_str
           (fun _ => Returned Demo.good_payload) Demo.partial_ratio Demo.ratio
           Demo.str_lower Demo.str_strip Demo.b64encode
           (fun _ => Returned []) (fun _ => Returned [])
           ∅ (<["API_KEY" := "KEY"]> ∅) "臺北市" (Some QueryWeather) 0 Demo.fresh_world H).
Defined.

(** With the background image in place the same run ends normally and shows
    the forecast. *)
Example main_with_background :
  let out :=
    main Demo.strptime Demo.now Demo.py_str Demo.exn_str
      (fun _ => Returned Demo.good_payload) Demo.partial_ratio Demo.ratio
      Demo.str_lower Demo.str_strip Demo.b64encode
      (fun _ => Returned []) (fun _ => Returned [])
      (<["background.jpg" := RegularFile "img"]> ∅) (<["API_KEY" := "KEY"]> ∅)
      "台北" (Some QueryWeather) 0 Demo.fresh_world in
  out.1 = Returned tt
  /\ result_text (session out.2)
     = "臺北市 5/1 早晨到中午是：**晴時多雲**，氣溫介於 **24°C** 到 **31°C**，降雨機率 **20%** 喔！".
Proof. vm_compute. split; reflexivity. Qed.

(** The loaders give an empty collection and a message when reading fails. *)
Lemma initialize_videos_on_failure (py_str : value -> string) (exn_str : exn -> string)
    (str_strip : string -> string) (read_excel : string -> py_result (list excel_row))
    (excel_path : string) (e : exn) (w : world) :
  read_excel excel_path = Raised e ->
  (initialize_videos py_str exn_str str_strip read_excel excel_path w).1 = Returned []
  /\ exists msg,
       page (initialize_videos py_str exn_str str_strip read_excel excel_path w).2
       = (page w ++ [Error msg])%list.
Proof.
  intros H. unfold initialize_videos. rewrite H.
  destruct e; (split; [reflexivity | eexists; reflexivity]).
Qed.

Lemma load_weather_codes_on_failure (exn_str : exn -> string)
    (read_csv : string -> py_result (list (string * value))) (fs : filesystem)
    (csv_path : string) (w : world) :
  fs !! csv_path = None \/ (exists e, read_csv csv_path = Raised e) ->
  (load_weather_codes exn_str read_csv fs csv_path w).1 = Returned []
  /\ exists msg,
       page (load_weather_codes exn_str read_csv fs csv_path w).2
       = (page w ++ [Error msg])%list.
Proof.
  intros H. unfold load_weather_codes, os_path.exists_.
  destruct (fs !! csv_path) as [entry|] eqn:Hfs.
  - destruct H as [H | [e H]]; [discriminate|].
    rewrite bool_decide_eq_true_2 by eauto. cbn [negb]. rewrite H.
    split; [reflexivity | eexists; reflexivity].
  - rewrite bool_decide_eq_false_2 by (intros [x Hx]; discriminate). cbn [negb].
    split; [reflexivity | eexists; reflexivity].
Qed.

(** * Further properties *)

(** ** [extract_youtube_id] on text without a marker *)

Lemma strip_prefix_foreign (f : ascii -> bool) (p s : string) :
  all_chars f s = true -> all_chars f p = false -> Str.strip_prefix p s = None.
Proof.
  revert s. induction p as [|a p IH]; intros s Hs Hp; [discriminate|].
  destruct s as [|b s]; [reflexivity|]. simpl in *.
  apply andb_prop in Hs as [Hb Hs].
  destruct (Ascii.eqb_spec a b) as [->|]; [|reflexivity].
  rewrite Hb in Hp. simpl in Hp. by apply IH.
Qed.

Lemma contains_foreign (f : ascii -> bool) (sub s : string) :
  all_chars f s = true -> all_chars f sub = false -> Str.contains sub s = false.
Proof.
  intros Hs Hsub. induction s as [|c s IH].
  - simpl. unfold Str.startswith. by rewrite (strip_prefix_foreign f).
  - cbn [Str.contains]. unfold Str.startswith.
    rewrite (strip_prefix_foreign f _ _ Hs Hsub).
    simpl in Hs. apply andb_prop in Hs as [_ Hs]. by apply IH.
Qed.

Lemma search_marker_id_foreign (s : string) :
  all_chars is_id_char s = true -> search_marker_id s = None.
Proof.
  assert (forall t, all_chars is_id_char t = true -> match_markers id_markers t = None)
    as Hm.
  { intros t Ht. unfold id_markers. cbn [match_markers].
    rewrite !(strip_prefix_foreign is_id_char _ t Ht) by reflexivity. reflexivity. }
  induction s as [|c s IH]; intros Hs; rewrite search_marker_id_unfold, (Hm _ Hs);
    [reflexivity|].
  simpl in Hs. apply andb_prop in Hs as [_ Hs]. by apply IH.
Qed.

Lemma search_usercontent_id_foreign (s : string) :
  all_chars is_id_char s = true -> search_usercontent_id s = None.
Proof.
  assert (forall t, all_chars is_id_char t = true -> match_usercontent t = None) as Hm.
  { intros t Ht. unfold match_usercontent.
    by rewrite (strip_prefix_foreign is_id_char _ t Ht). }
  induction s as [|c s IH]; intros Hs.
  - reflexivity.
  - cbn [search_usercontent_id]. rewrite (Hm _ Hs).
    simpl in Hs. apply andb_prop in Hs as [_ Hs]. by apply IH.
Qed.

(** X1.  A text made of identifier characters only, such as a bare video
    identifier, holds no marker: [extract_youtube_id] returns [None] on it.
    So the function cannot be applied to its own result. *)
Theorem extract_youtube_id_of_bare_id (s : string) :
  all_chars is_id_char s = true -> extract_youtube_id s = None.
Proof.
  intros Hs. unfold extract_youtube_id.
  rewrite (search_marker_id_foreign s Hs), (search_usercontent_id_foreign s Hs).
  rewrite !(contains_foreign is_id_char _ s Hs) by reflexivity. reflexivity.
Qed.

Lemma extract_youtube_id_of_bare_id_witness :
  all_chars is_id_char "dQw4w9WgXcQ" = true /\ extract_youtube_id "dQw4w9WgXcQ" = None.
Proof.
  split; [reflexivity|]. exact (extract_youtube_id_of_bare_id "dQw4w9WgXcQ" eq_refl).
Defined.

(** ** The forecast period [get_weather_data] reports *)

Section NearestPeriod.

Context (strptime : string -> option datetime) (now : Z) (py_str : value -> string).

Local Abbreviation parse_time_ := (parse_time strptime).
Local Abbreviation valid_times_ := (valid_times strptime).
Local Abbreviation distance_ := (distance strptime now).
Local Abbreviation nearest_ := (nearest strptime now).
Local Abbreviation forecast_of_payload_ := (forecast_of_payload strptime now py_str).

(** Every entry whose [startTime] parses is kept. *)
Lemma valid_times_complete (items valid : list value) (item : value) (s : string)
    (d : datetime) :
  valid_times_ items = Returned valid ->
  item ∈ items -> Py.getitem item "startTime" = Returned (VStr s) -> strptime s = Some d ->
  item ∈ valid.
Proof.
  revert valid. induction items as [|x items IH]; intros valid H Hin Hs Hd.
  - by apply elem_of_nil in Hin.
  - cbn [valid_times] in H. py_inv H as a Ha.
    destruct (parse_time_ a) as [d'|e] eqn:Hp.
    + py_inv H as rest Hrest. injection H as <-.
      apply elem_of_cons in Hin as [-> | Hin]; [left | right; by eapply IH].
    + destruct e; try discriminate.
      apply elem_of_cons in Hin as [-> | Hin]; [|by eapply IH].
      rewrite Hs in Ha. injection Ha as <-. simpl in Hp. rewrite Hd in Hp. discriminate.
Qed.

Lemma distance_returned (item : value) (k : Z) :
  distance_ item = Returned k ->
  exists s d, Py.getitem item "startTime" = Returned (VStr s) /\ strptime s = Some d
              /\ k = Z.abs (Date.micros d - now).
Proof.
  unfold distance. intros H. py_inv H as a Ha. py_inv H as d Hd.
  apply parse_time_returned in Hd as (s & -> & Hs). injection H as <-. eauto.
Qed.

(** [nearest] returns an element of the list whose key is the least one. *)
Lemma nearest_least (best0 : value) (k0 : Z) (items : list value) (best : value) :
  distance_ best0 = Returned k0 ->
  nearest_ best0 k0 items = Returned best ->
  best ∈ best0 :: items
  /\ exists k, distance_ best = Returned k /\ (k <= k0)%Z
     /\ forall y ky, y ∈ items -> distance_ y = Returned ky -> (k <= ky)%Z.
Proof.
  revert best0 k0. induction items as [|y items IH]; intros best0 k0 H0 H.
  - injection H as <-. split; [left|]. exists k0. split; [done|]. split; [lia|].
    intros y ky Hy. by apply elem_of_nil in Hy.
  - cbn [nearest] in H. py_inv H as ky Hky.
    destruct (Z.ltb_spec ky k0) as [Hlt|Hge].
    + destruct (IH _ _ Hky H) as (Hin & k & Hk & Hle & Hall).
      split; [by right|]. exists k. split; [done|]. split; [lia|].
      intros z kz Hz Hdz. apply elem_of_cons in Hz as [-> | Hz]; [|by eapply Hall].
      rewrite Hky in Hdz. injection Hdz as <-. exact Hle.
    + destruct (IH _ _ H0 H) as (Hin & k & Hk & Hle & Hall).
      split.
      { apply elem_of_cons in Hin as [-> | Hin]; [left | right; by right]. }
      exists k. split; [done|]. split; [lia|].
      intros z kz Hz Hdz. apply elem_of_cons in Hz as [-> | Hz]; [|by eapply Hall].
      rewrite Hky in Hdz. injection Hdz as <-. lia.
Qed.


End NearestPeriod.


(** ** The rain probability *)

Section RainProbability.

Context (strptime : string -> option datetime).

Local Abbreviation covering_period_ := (covering_period strptime).
Local Abbreviation rain_probability_ := (rain_probability strptime).

Lemma covering_period_some (start_dt : datetime) (periods : list value) (v : value) :
  covering_period_ start_dt periods = Returned (Some v) ->
  exists period par s e p_start p_end,
    period ∈ periods
    /\ Py.getitem period "startTime" = Returned (VStr s) /\ strptime s = Some p_start
    /\ Py.getitem period "endTime" = Returned (VStr e) /\ strptime e = Some p_end
    /\ (Date.micros p_start <= Date.micros start_dt < Date.micros p_end)%Z
    /\ Py.getitem period "parameter" = Returned par
    /\ Py.getitem par "parameterName" = Returned v.
Proof.
  induction periods as [|p periods IH]; [discriminate|].
  cbn [covering_period]. intros H.
  py_inv H as s Hs. py_inv H as p_start Hps. py_inv H as e He. py_inv H as p_end Hpe.
  apply parse_time_returned in Hps as (s' & -> & Hs').
  apply parse_time_returned in Hpe as (e' & -> & He').
  destruct (Z.leb_spec (Date.micros p_start) (Date.micros start_dt)) as [Hle|Hgt];
    [destruct (Z.ltb_spec (Date.micros start_dt) (Date.micros p_end)) as [Hlt|Hge]|];
    cbn [andb] in H.
  - py_inv H as par Hpar. py_inv H as v' Hv. injection H as <-.
    exists p, par, s', e', p_start, p_end.
    split; [left|]. repeat split; try assumption; lia.
  - destruct (IH H) as (period & par & s0 & e0 & ps & pe & Hin & Hrest).
    exists period, par, s0, e0, ps, pe. split; [by right | exact Hrest].
  - destruct (IH H) as (period & par & s0 & e0 & ps & pe & Hin & Hrest).
    exists period, par, s0, e0, ps, pe. split; [by right | exact Hrest].
Qed.


End RainProbability.


(** ** Parts of the session a computation leaves alone *)

Lemma preserves_ret {A B} (proj : session_state -> B) (a : A) : preserves proj (mret a).
Proof. intros w. reflexivity. Qed.

Lemma preserves_lift {A B} (proj : session_state -> B) (r : py_result A) :
  preserves proj (lift r).
Proof. intros w. reflexivity. Qed.

Lemma preserves_bind {A A' B} (proj : session_state -> B) (m : app A) (f : A -> app A') :
  preserves proj m -> (forall a, preserves proj (f a)) -> preserves proj (m ≫= f).
Proof.
  intros Hm Hf w. unfold mbind, app_bind. specialize (Hm w).
  destruct (m w) as [[a|e] w']; simpl in *; [|exact Hm].
  rewrite (Hf a w'). exact Hm.
Qed.

Lemma preserves_notify {B} (proj : session_state -> B) (n : notice) :
  preserves proj (notify n).
Proof. intros w. reflexivity. Qed.

Lemma preserves_fetch {B} (proj : session_state -> B) (url : string) :
  preserves proj (fetch url).
Proof. intros w. reflexivity. Qed.

Lemma preserves_get_session {B} (proj : session_state -> B) : preserves proj get_session.
Proof. intros w. reflexivity. Qed.

Lemma preserves_update_session {B} (proj : session_state -> B)
    (f : session_state -> session_state) :
  (forall s, proj (f s) = proj s) -> preserves proj (update_session f).
Proof. intros Hf w. apply Hf. Qed.

(** Walk through a computation, as [keeps] does. *)
Ltac preserves_step :=
  match goal with
  | |- preserves _ (_ ≫= _) => apply preserves_bind; [|intros ?]
  | |- preserves _ (mret _) => apply preserves_ret
  | |- preserves _ (lift _) => apply preserves_lift
  | |- preserves _ (notify _) => apply preserves_notify
  | |- preserves _ (fetch _) => apply preserves_fetch
  | |- preserves _ get_session => apply preserves_get_session
  | |- preserves _ (update_session _) =>
      apply preserves_update_session; intros ?; reflexivity
  | |- preserves _ (match ?x with _ => _ end) => destruct x
  | |- preserves _ (let '(_, _) := ?x in _) => destruct x
  end.

Ltac preserves_all := repeat preserves_step.

Lemma preserves_pools_reset :
  preserves recommended_music_original_indices reset_recommendation_states
  /\ preserves recommended_movie_indices reset_recommendation_states.
Proof. split; unfold reset_recommendation_states; preserves_all. Qed.

Lemma preserves_load_image {B} (proj : session_state -> B) (exn_str : exn -> string)
    (str_lower b64encode : string -> string) (fs : filesystem) (image_path : string)
    (width height : option Z) :
  preserves proj
    (load_local_image_as_base64 exn_str str_lower b64encode fs image_path width height).
Proof. unfold load_local_image_as_base64. preserves_all. Qed.

Lemma preserves_get_weather_data {B} (proj : session_state -> B)
    (strptime : string -> option datetime) (now : Z) (py_str : value -> string)
    (exn_str : exn -> string) (http_get_json : string -> py_result value)
    (API_KEY : option string) (city_name : string) :
  preserves proj
    (get_weather_data strptime now py_str exn_str http_get_json API_KEY city_name).
Proof. unfold get_weather_data. preserves_all. Qed.

Section WeatherOnly.

Context (strptime : string -> option datetime) (now : Z)
        (py_str : value -> string) (exn_str : exn -> string)
        (http_get_json : string -> py_result value)
        (partial_ratio ratio : string -> string -> Z)
        (str_lower b64encode : string -> string) (fs : filesystem).

Local Abbreviation process_query_ :=
  (process_query strptime now py_str exn_str http_get_json partial_ratio ratio
     str_lower b64encode fs).

(** What follows the reset in a query about a city without music *)
Lemma weather_only_preserves {B} (proj : session_state -> B) (API_KEY : option string)
    (city_input : string) (location_names : list value) (all_videos : list Video.t)
    (movie_poster_urls : list Movie.t) (loaded_weather_codes : list (string * value))
    (k : nat) (matched_city : string) (w : world) :
  (forall x s, proj (set_result_text x s) = proj s) ->
  (forall x s, proj (set_recommended_weather_image_html x s) = proj s) ->
  (forall x s, proj (set_weather_image_caption_desc x s) = proj s) ->
  Str.truthy city_input = true ->
  Str.if_truthy (matched_city_of city_input location_names) = Some matched_city ->
  proj (session
          (process_query_ API_KEY city_input location_names all_videos movie_poster_urls
             false loaded_weather_codes k w).2)
  = proj (session (reset_recommendation_states w).2).
Proof.
  intros H1 H2 H3 Htruthy Hmatched. unfold process_query.
  rewrite (bind_returned _ _ _ _ _ (reset_recommendation_states_returns w)).
  rewrite Htruthy. cbn [negb]. rewrite Hmatched.
  match goal with
  | |- proj (session (?m ?w1).2) = _ => assert (preserves proj m) as Hp
  end.
  { apply preserves_bind; [apply preserves_get_weather_data|].
    intros r. destruct r;
      repeat first
        [ apply preserves_load_image
        | apply preserves_update_session; intros ?; solve [apply H1 | apply H2 | apply H3]
        | preserves_step ]. }
  apply Hp.
Qed.

(** X4.  A query about a city that asks for no music (the button 查詢天氣)
    consumes no recommendation: whether the forecast is found or not, and
    even when the run ends in an exception, both sets of recommended indices
    are as before the query and no video and no poster is left to show. *)
Theorem process_query_weather_only_frame (API_KEY : option string)
    (city_input : string) (location_names : list value) (all_videos : list Video.t)
    (movie_poster_urls : list Movie.t) (loaded_weather_codes : list (string * value))
    (k : nat) (w : world) :
  Str.truthy city_input = true ->
  is_Some (MANUAL_CORRECTIONS !! city_input)
  \/ existsb (fun name => Py.eq_str name city_input) location_names = true ->
  let w' :=
    (process_query_ API_KEY city_input location_names all_videos movie_poster_urls
       false loaded_weather_codes k w).2 in
  recommended_music_original_indices (session w')
  = recommended_music_original_indices (session w)
  /\ recommended_movie_indices (session w') = recommended_movie_indices (session w)
  /\ recommended_youtube_id (session w') = None
  /\ recommended_image_url (session w') = None.
Proof.
  intros Htruthy Hcity w'.
  assert (exists c, Str.if_truthy (matched_city_of city_input location_names) = Some c)
    as [c Hc].
  { unfold matched_city_of.
    destruct (MANUAL_CORRECTIONS !! city_input) as [v|] eqn:Hk.
    - destruct (MANUAL_CORRECTIONS_entries _ _ Hk) as (_ & Hv & _).
      exists v. cbn. by rewrite Hv.
    - destruct Hcity as [[v Hv] | Hn]; [discriminate|].
      rewrite Hn. exists city_input. cbn. by rewrite Htruthy. }
  subst w'.
  rewrite !(weather_only_preserves _ _ _ _ _ _ _ _ c w) by (reflexivity || assumption).
  destruct w as [s p q]. repeat split.
Qed.

End WeatherOnly.

Lemma process_query_weather_only_frame_witness :
  Str.truthy "台北" = true
  /\ (is_Some (MANUAL_CORRECTIONS !! "台北")
      \/ existsb (fun name => Py.eq_str name "台北") [] = true)
  /\ recommended_music_original_indices
       (session
          (process_query Demo.strptime Demo.now Demo.py_str Demo.exn_str
             (fun _ => Returned Demo.good_payload) Demo.partial_ratio Demo.ratio
             Demo.str_lower Demo.b64encode ∅ (Some "KEY") "台北" [] Demo.videos
             Demo.movies false [] 0 Demo.fresh_world).2)
     = recommended_music_original_indices (session Demo.fresh_world).
Proof.
  assert (Str.truthy "台北" = true) as H1 by reflexivity.
  assert (is_Some (MANUAL_CORRECTIONS !! "台北")
          \/ existsb (fun name => Py.eq_str name "台北") [] = true) as H2
    by (left; vm_compute; eauto).
  split; [exact H1|]. split; [exact H2|].
  exact (proj1 (process_query_weather_only_frame Demo.strptime Demo.now Demo.py_str
                  Demo.exn_str (fun _ => Returned Demo.good_payload) Demo.partial_ratio
                  Demo.ratio Demo.str_lower Demo.b64encode ∅ (Some "KEY") "台北" []
                  Demo.videos Demo.movies [] 0 Demo.fresh_world H1 H2)).
Defined.

(** ** The requests of a query *)

Section QueryRequests.

Context (strptime : string -> option datetime) (now : Z)
        (py_str : value -> string) (exn_str : exn -> string)
        (http_get_json : string -> py_result value)
        (partial_ratio ratio : string -> string -> Z)
        (str_lower b64encode : string -> string) (fs : filesystem).

Local Abbreviation process_query_ :=
  (process_query strptime now py_str exn_str http_get_json partial_ratio ratio
     str_lower b64encode fs).

(** X5.  The requests of a query.  It makes none when the input is empty,
    and none when the input is neither a key of the correction table nor a
    known city; for a known city that is not a key of the table it makes
    exactly the forecast request for the name as typed. *)
Theorem process_query_requests (key city_input : string) (location_names : list value)
    (all_videos : list Video.t) (movie_poster_urls : list Movie.t)
    (recommend_music : bool) (loaded_weather_codes : list (string * value))
    (k : nat) (w : world) :
  let w' :=
    (process_query_ (Some key) city_input location_names all_videos movie_poster_urls
       recommend_music loaded_weather_codes k w).2 in
  (Str.truthy city_input = false -> requests w' = requests w)
  /\ (MANUAL_CORRECTIONS !! city_input = None ->
      existsb (fun name => Py.eq_str name city_input) location_names = false ->
      requests w' = requests w)
  /\ (Str.truthy city_input = true ->
      MANUAL_CORRECTIONS !! city_input = None ->
      existsb (fun name => Py.eq_str name city_input) location_names = true ->
      requests w' = (requests w ++ [weather_url key city_input])%list).
Proof.
  intros w'. subst w'. unfold process_query.
  rewrite (bind_returned _ _ _ _ _ (reset_recommendation_states_returns w)).
  split; [|split].
  - intros ->. cbn [negb]. reflexivity.
  - intros Hkey Hname. destruct (Str.truthy city_input); cbn [negb]; [|reflexivity].
    unfold matched_city_of. rewrite Hkey, Hname. cbn [Str.if_truthy].
    match goal with
    | |- requests (?m ?w1).2 = _ => assert (keeps_requests m) as Hkeep by keeps
    end.
    rewrite Hkeep. apply keeps_requests_reset.
  - intros Htruthy Hkey Hname. rewrite Htruthy. cbn [negb].
    unfold matched_city_of. rewrite Hkey, Hname. cbn [Str.if_truthy]. rewrite Htruthy.
    destruct (get_weather_data_fetches strptime now py_str exn_str http_get_json
                key city_input (reset_recommendation_states w).2) as [r Hr].
    rewrite (bind_returned _ _ _ _ _ Hr).
    match goal with
    | |- requests (?m ?w1).2 = _ =>
        assert (keeps_requests m) as Hkeep by (destruct r; keeps)
    end.
    rewrite Hkeep. cbn [requests]. rewrite keeps_requests_reset. reflexivity.
Qed.

End QueryRequests.

(** ** Runs that end normally *)

Lemma returns_ret {A} (a : A) : returns (mret a).
Proof. intros w. by eexists _, _. Qed.

Lemma returns_lift {A} (a : A) : returns (lift (Returned a)).
Proof. intros w. by eexists _, _. Qed.

Lemma returns_bind {A B} (m : app A) (f : A -> app B) :
  returns m -> (forall a, returns (f a)) -> returns (m ≫= f).
Proof.
  intros Hm Hf w. destruct (Hm w) as (a & w' & Ha).
  rewrite (bind_returned _ _ _ _ _ Ha). apply Hf.
Qed.

Lemma returns_notify (n : notice) : returns (notify n).
Proof. intros w. by eexists _, _. Qed.

Lemma returns_fetch (url : string) : returns (fetch url).
Proof. intros w. by eexists _, _. Qed.

Lemma returns_get_session : returns get_session.
Proof. intros w. by eexists _, _. Qed.

Lemma returns_update_session (f : session_state -> session_state) :
  returns (update_session f).
Proof. intros w. by eexists _, _. Qed.

Ltac returns_step :=
  match goal with
  | |- returns (_ ≫= _) => apply returns_bind; [|intros ?]
  | |- returns (mret _) => apply returns_ret
  | |- returns (lift (Returned _)) => apply returns_lift
  | |- returns (notify _) => apply returns_notify
  | |- returns (fetch _) => apply returns_fetch
  | |- returns get_session => apply returns_get_session
  | |- returns (update_session _) => apply returns_update_session
  | |- returns (match ?x with _ => _ end) => destruct x
  | |- returns (let '(_, _) := ?x in _) => destruct x
  end.

Ltac returns_all := repeat returns_step.

Lemma returns_reset : returns reset_recommendation_states.
Proof. unfold reset_recommendation_states. returns_all. Qed.

Lemma returns_random_music (all_videos : list Video.t) (k : nat) :
  returns (random_music_recommendation all_videos k).
Proof.
  intros w. destruct (random_music_recommendation_returns all_videos k w)
    as (t & y & w' & H). by eexists _, _.
Qed.

Lemma returns_random_movie (all_movies : list Movie.t) (k : nat) :
  returns (random_movie_recommendation all_movies k).
Proof.
  intros w. destruct all_movies as [|m ms] eqn:Hms.
  - by eexists _, _.
  - rewrite <- Hms.
    destruct (random_movie_recommendation_eq all_movies k w) as (j & movie & _ & _ & H);
      [by rewrite Hms|].
    by eexists _, _.
Qed.

Lemma returns_find_music (partial_ratio : string -> string -> Z)
    (str_lower : string -> string) (weather_desc : string) (all_videos : list Video.t)
    (k : nat) :
  returns (find_and_recommend_music partial_ratio str_lower (VStr weather_desc) all_videos k).
Proof.
  intros w. destruct all_videos as [|v vs] eqn:Hvs.
  - by eexists _, _.
  - rewrite <- Hvs.
    destruct (find_and_recommend_music_selects partial_ratio str_lower all_videos
                weather_desc k w) as (sel & text & _ & H); [by rewrite Hvs|].
    by eexists _, _.
Qed.

Lemma returns_load_image (exn_str : exn -> string) (str_lower b64encode : string -> string)
    (fs : filesystem) (image_path : string) (width height : option Z) :
  returns (load_local_image_as_base64 exn_str str_lower b64encode fs image_path width height).
Proof. unfold load_local_image_as_base64. returns_all. Qed.

Lemma returns_get_weather_data (strptime : string -> option datetime) (now : Z)
    (py_str : value -> string) (exn_str : exn -> string)
    (http_get_json : string -> py_result value) (key city_name : string) :
  returns (get_weather_data strptime now py_str exn_str http_get_json (Some key) city_name).
Proof. unfold get_weather_data. returns_all. Qed.

Lemma closest_code_of_text (ratio : string -> string -> Z) (str_lower : string -> string)
    (weather_desc : string) (items : list (string * value)) (highest : Z) (code : value) :
  exists c, closest_code ratio str_lower (VStr weather_desc) items highest code = Returned c.
Proof.
  revert highest code. induction items as [|[d c] items IH]; intros highest code.
  - by eexists.
  - cbn [closest_code lower mbind py_bind]. destruct (_ <? _)%Z; apply IH.
Qed.

Lemma closest_code_of_other (ratio : string -> string -> Z) (str_lower : string -> string)
    (weather_desc : value) (items : list (string * value)) (highest : Z) (code : value) :
  (forall s, weather_desc <> VStr s) -> items <> [] ->
  closest_code ratio str_lower weather_desc items highest code = Raised AttributeError.
Proof.
  intros Hd Hne. destruct items as [|[d c] items]; [done|].
  cbn [closest_code]. destruct weather_desc; try reflexivity. by destruct (Hd s).
Qed.

Lemma exact_code_of_other (weather_desc : value) (items : list (string * value)) :
  (forall s, weather_desc <> VStr s) -> exact_code weather_desc items = VNone.
Proof.
  intros Hd. induction items as [|[d c] items IH]; [reflexivity|].
  cbn [exact_code]. destruct weather_desc; try exact IH. by destruct (Hd s).
Qed.

Lemma returns_bind_with {A B} (P : A -> Prop) (m : app A) (f : A -> app B) :
  (forall w, exists a w', m w = (Returned a, w') /\ P a) ->
  (forall a, P a -> returns (f a)) -> returns (m ≫= f).
Proof.
  intros Hm Hf w. destruct (Hm w) as (a & w' & Ha & HP).
  rewrite (bind_returned _ _ _ _ _ Ha). by apply Hf.
Qed.

Lemma find_and_recommend_music_of_other (partial_ratio : string -> string -> Z)
    (str_lower : string -> string) (weather_desc : value) (all_videos : list Video.t)
    (k : nat) (w : world) :
  (forall s, weather_desc <> VStr s) -> all_videos <> [] ->
  find_and_recommend_music partial_ratio str_lower weather_desc all_videos k w
  = (Raised AttributeError, after_music_check all_videos w).
Proof.
  intros Hd Hne. unfold find_and_recommend_music.
  rewrite (bool_decide_eq_false_2 _ Hne).
  rewrite (bind_returned _ _ _ _ _ (get_available_music_indices_eq all_videos w)).
  fold (available_videos all_videos w).
  pose proof (available_videos_nonempty all_videos w Hne) as Hav.
  rewrite (bool_decide_eq_false_2 _ Hav).
  rewrite (bind_returned (mret _) _ _ _ _ eq_refl).
  destruct (available_videos all_videos w) as [|v vs]; [done|].
  assert (score_videos partial_ratio str_lower weather_desc (v :: vs) [] (-1)%Z
          = Raised AttributeError) as ->.
  { cbn [score_videos]. destruct weather_desc; try reflexivity. by destruct (Hd s). }
  reflexivity.
Qed.

Section QueryOutcome.

Context (strptime : string -> option datetime) (now : Z)
        (py_str : value -> string) (exn_str : exn -> string)
        (http_get_json : string -> py_result value)
        (partial_ratio ratio : string -> string -> Z)
        (str_lower b64encode : string -> string) (fs : filesystem).

Local Abbreviation process_query_ :=
  (process_query strptime now py_str exn_str http_get_json partial_ratio ratio
     str_lower b64encode fs).
Local Abbreviation get_weather_data_ :=
  (get_weather_data strptime now py_str exn_str http_get_json).
Local Abbreviation forecast_of_payload_ := (forecast_of_payload strptime now py_str).

Lemma returns_process_query (key city_input : string) (location_names : list value)
    (all_videos : list Video.t) (movie_poster_urls : list Movie.t)
    (recommend_music : bool) (loaded_weather_codes : list (string * value)) (k : nat) :
  (forall city w0 desc text tmin tmax pop,
      (get_weather_data_ (Some key) city w0).1
      = Returned (WeatherSuccess desc text tmin tmax pop) ->
      exists s, desc = VStr s) ->
  returns
    (process_query_ (Some key) city_input location_names all_videos movie_poster_urls
       recommend_music loaded_weather_codes k).
Proof.
  intros Htext. unfold process_query.
  apply returns_bind; [apply returns_reset|]. intros _.
  destruct (negb (Str.truthy city_input)); [apply returns_update_session|].
  destruct (Str.if_truthy (matched_city_of city_input location_names)) as [c|].
  - apply (returns_bind_with
             (fun r => forall desc text tmin tmax pop,
                  r = WeatherSuccess desc text tmin tmax pop -> exists s, desc = VStr s)).
    + intros w0.
      destruct (returns_get_weather_data strptime now py_str exn_str http_get_json
                  key c w0) as (r & w1 & Hr).
      exists r, w1. split; [exact Hr|].
      intros desc text tmin tmax pop ->.
      apply (Htext c w0 desc text tmin tmax pop). by rewrite Hr.
    + intros r Hr. destruct r as [desc text tmin tmax pop|text].
      * destruct (Hr _ _ _ _ _ eq_refl) as [s ->].
        apply returns_bind; [apply returns_update_session|]. intros _.
        apply returns_bind.
        { destruct (exact_code (VStr s) loaded_weather_codes); try apply returns_ret.
          destruct (closest_code_of_text ratio str_lower s loaded_weather_codes
                      (-1)%Z VNone) as [c' ->].
          apply returns_lift. }
        intros weather_code.
        apply returns_bind.
        { repeat first [apply returns_load_image | returns_step]. }
        intros _. destruct recommend_music; [|apply returns_ret].
        apply returns_bind; [apply returns_find_music|].
        intros [music_text youtube_id]. returns_all.
      * repeat first [apply returns_load_image | returns_step].
  - apply returns_bind; [apply returns_random_music|].
    intros [music_text youtube_id]. returns_all.
Qed.



End QueryOutcome.



(** ** [get_location_names] *)

Lemma mapM_getitem_returned (k : string) (items names : list value) :
  Forall2 (fun item n => Py.getitem item k = Returned n) items names ->
  mapM (fun item => Py.getitem item k) items = Returned names.
Proof.
  induction 1 as [|item n items names Hn _ IH]; [reflexivity|].
  cbn [mapM]. rewrite Hn. cbn [mbind py_bind]. rewrite IH. reflexivity.
Qed.

Lemma mapM_getitem_raised (k : string) (items : list value) (item : value) (e : exn) :
  item ∈ items -> Py.getitem item k = Raised e ->
  exists e', mapM (fun item => Py.getitem item k) items = Raised e'
             /\ forall d, e' <> RequestException d.
Proof.
  assert (forall v e0, Py.getitem v k = Raised e0 -> forall d, e0 <> RequestException d)
    as Hkind.
  { intros v e0 H d ->. destruct v; try discriminate. simpl in H.
    destruct (Py.dict_lookup k members); discriminate. }
  induction items as [|x items IH]; intros Hin He; [by apply elem_of_nil in Hin|].
  cbn [mapM]. destruct (Py.getitem x k) as [n|ex] eqn:Hx.
  - apply elem_of_cons in Hin as [-> | Hin]; [congruence|].
    destruct (IH Hin He) as (e' & -> & Hne). by exists e'.
  - exists ex. split; [reflexivity | by eapply Hkind].
Qed.

Lemma contains_of_getitem (k : string) (v x : value) :
  Py.getitem v k = Returned x -> Py.contains k v = Returned true.
Proof.
  intros H. apply getitem_dict in H as (ms & -> & Hl). simpl.
  by rewrite Hl, bool_decide_eq_true_2.
Qed.

Section LocationNames.

Context (exn_str : exn -> string) (http_get_json : string -> py_result value).

Local Abbreviation get_location_names_ := (get_location_names exn_str http_get_json).

(** The address [get_location_names] asks *)
Local Abbreviation locations_url key :=
  ("https://opendata.cwa.gov.tw/api/v1/rest/datastore/F-C0032-001?Authorization=" ++ key).

(** X8.  When the payload has a records → location list each entry of which
    has a [locationName], [get_location_names] returns these names in the
    order of the list, after one request and without a message. *)
Theorem get_location_names_of_payload (key : string) (data records : value)
    (items names : list value) (w : world) :
  http_get_json (locations_url key) = Returned data ->
  Py.getitem data "records" = Returned records ->
  Py.getitem records "location" = Returned (VList items) ->
  Forall2 (fun item n => Py.getitem item "locationName" = Returned n) items names ->
  get_location_names_ (Some key) w
  = (Returned names,
     {| session := session w; page := page w;
        requests := requests w ++ [locations_url key] |}).
Proof.
  intros Hhttp Hrecords Hlocs Hnames. unfold get_location_names.
  cbn [mbind app_bind fetch]. rewrite Hhttp. cbn [mbind py_bind].
  unfold and_then.
  rewrite (contains_of_getitem _ _ _ Hrecords). cbn [mbind py_bind].
  rewrite Hrecords. cbn [mbind py_bind].
  rewrite (contains_of_getitem _ _ _ Hlocs). cbn [mbind py_bind].
  rewrite Hlocs. cbn [mbind py_bind Py.iterate].
  rewrite (mapM_getitem_returned _ _ _ Hnames). reflexivity.
Qed.

(** X9.  Only a failed request is caught: when the request fails,
    [get_location_names] returns the 22 built-in names and puts one error
    message on the page; when the payload has a records → location list with
    an entry that has no [locationName], it raises, and what it raises is no
    request failure. *)
Theorem get_location_names_failures (key : string) (w : world) :
  (forall d, http_get_json (locations_url key) = Raised (RequestException d) ->
     (get_location_names_ (Some key) w).1 = Returned (VStr <$> default_location_names)
     /\ List.length default_location_names = 22%nat
     /\ exists msg, page (get_location_names_ (Some key) w).2 = (page w ++ [Error msg])%list)
  /\ (forall data records items item e,
        http_get_json (locations_url key) = Returned data ->
        Py.getitem data "records" = Returned records ->
        Py.getitem records "location" = Returned (VList items) ->
        item ∈ items -> Py.getitem item "locationName" = Raised e ->
        exists e', (get_location_names_ (Some key) w).1 = Raised e'
                   /\ forall d, e' <> RequestException d).
Proof.
  split.
  - intros d Hhttp. unfold get_location_names.
    cbn [mbind app_bind fetch]. rewrite Hhttp. cbn [mbind py_bind app_bind notify mret app_ret].
    split; [reflexivity|]. split; [reflexivity|]. eexists. reflexivity.
  - intros data records items item e Hhttp Hrecords Hlocs Hin He.
    destruct (mapM_getitem_raised _ _ _ _ Hin He) as (e' & Hmap & Hne).
    exists e'. split; [|exact Hne].
    unfold get_location_names.
    cbn [mbind app_bind fetch]. rewrite Hhttp. cbn [mbind py_bind].
    unfold and_then.
    rewrite (contains_of_getitem _ _ _ Hrecords). cbn [mbind py_bind].
    rewrite Hrecords. cbn [mbind py_bind].
    rewrite (contains_of_getitem _ _ _ Hlocs). cbn [mbind py_bind].
    rewrite Hlocs. cbn [mbind py_bind Py.iterate].
    rewrite Hmap. cbn [mbind py_bind].
    destruct e'; try reflexivity. by destruct (Hne detail).
Qed.

End LocationNames.

Lemma get_location_names_of_payload_witness :
  get_location_names Demo.exn_str (fun _ => Returned Demo.good_payload) (Some "KEY")
    Demo.fresh_world
  = (Returned [VStr "臺北市"],
     {| session := session Demo.fresh_world; page := page Demo.fresh_world;
        requests :=
          requests Demo.fresh_world
          ++ ["https://opendata.cwa.gov.tw/api/v1/rest/datastore/F-C0032-001?Authorization="
                ++ "KEY"] |}).
Proof.
  eapply (get_location_names_of_payload Demo.exn_str (fun _ => Returned Demo.good_payload)
            "KEY" Demo.good_payload).
  - reflexivity.
  - reflexivity.
  - reflexivity.
  - repeat constructor.
Defined.

Example get_location_names_nameless :
  (get_location_names Demo.exn_str (fun _ => Returned Samples.nameless_location_payload)
     (Some "KEY") Demo.fresh_world).1
  = Raised (KeyError "locationName").
Proof. vm_compute. reflexivity. Qed.

(** ** The pools over a run *)

(** X10.  [get_available_music_indices] never raises; the list it returns
    has no duplicate, holds exactly the indices of the catalogue that are not
    in the pool it leaves, and is empty only for an empty catalogue; the pool
    it leaves is the one it found, or the empty one when it found every index
    of a non-empty catalogue in the pool. *)
Theorem get_available_music_indices_spec (all_videos : list Video.t) (w : world) :
  exists available w',
    get_available_music_indices all_videos w = (Returned available, w')
    /\ NoDup available
    /\ (forall i, i ∈ available <-> i ∈ video_indices all_videos /\ i ∉ music_pool w')
    /\ (available = [] <-> all_videos = [])
    /\ (music_pool w'
        = if decide (video_indices all_videos ⊆ music_pool w
                     /\ video_indices all_videos <> ∅)
          then ∅ else music_pool w).
Proof.
  exists (available_music_indices all_videos w), (after_music_check all_videos w).
  split; [apply get_available_music_indices_eq|].
  rewrite available_music_indices_after.
  split; [apply NoDup_elements|].
  split; [intros i; by rewrite elem_of_elements, elem_of_difference|].
  split.
  - split.
    + intros Hnil. destruct all_videos as [|v vs]; [done|].
      apply elements_empty_inv in Hnil.
      exfalso. apply (music_left_after_check (v :: vs) w); [done|].
      by apply leibniz_equiv.
    + intros ->. apply elements_empty_iff. unfold video_indices. cbn. set_solver.
  - rewrite music_pool_after_check'.
    destruct (music_exhausted all_videos w) eqn:Hex.
    + rewrite decide_True; [done | by apply music_exhausted_iff].
    + rewrite decide_False; [done|]. intros H. apply music_exhausted_iff in H. congruence.
Qed.

Lemma movie_indices_size (all_movies : list Movie.t) :
  size (movie_indices all_movies) = List.length all_movies.
Proof.
  unfold movie_indices. rewrite size_list_to_set by apply NoDup_seq.
  apply length_seq.
Qed.

(** X11.  Over a non-empty catalogue and a pool within it,
    [random_movie_recommendation] returns the title and the poster of a movie
    of the catalogue together with the number of movies not yet recommended
    once this one is counted: the size of the catalogue less the size of the
    pool it leaves, a number from 0 to the size of the catalogue less one. *)
Theorem random_movie_recommendation_remaining (all_movies : list Movie.t) (k : nat)
    (w : world) :
  all_movies <> [] ->
  movie_pool w ⊆ movie_indices all_movies ->
  exists movie remaining w',
    movie ∈ all_movies
    /\ random_movie_recommendation all_movies k w
       = (Returned (Movie.title movie, Some (Movie.poster_url movie), remaining), w')
    /\ remaining
       = (Z.of_nat (List.length all_movies) - Z.of_nat (size (movie_pool w')))%Z
    /\ (0 <= remaining < Z.of_nat (List.length all_movies))%Z.
Proof.
  intros Hne Hinv.
  destruct (random_movie_recommendation_eq all_movies k w Hne)
    as (j & movie & Hj & Hmovie & Heq).
  eexists movie, _, _. split; [by eapply list_elem_of_lookup_2|].
  split; [exact Heq|].
  apply list_elem_of_lookup_2 in Hj.
  rewrite available_movie_indices_after in Hj |- *.
  apply elem_of_elements, elem_of_difference in Hj as [Hall Hnot].
  set (pool := movie_pool (after_movie_check all_movies w)) in *.
  assert (pool ⊆ movie_indices all_movies) as Hsub.
  { subst pool. rewrite movie_pool_after_check'.
    destruct (movie_exhausted all_movies w); set_solver. }
  assert (movie_pool
            (with_session (set_recommended_movie_indices (Some (pool ∪ {[j]})))
               (after_movie_check all_movies w)) = pool ∪ {[j]}) as -> by reflexivity.
  change (List.length (elements (movie_indices all_movies ∖ pool)))
    with (size (movie_indices all_movies ∖ pool)).
  rewrite size_difference by done.
  rewrite size_union by set_solver. rewrite size_singleton.
  pose proof (subseteq_size _ _ Hsub) as Hle.
  assert (size pool < size (movie_indices all_movies))%nat as Hlt.
  { apply subset_size. split; [done|]. intros Hsup. apply Hnot, Hsup, Hall. }
  rewrite movie_indices_size in *. lia.
Qed.

Lemma run_music_operation_step (partial_ratio : string -> string -> Z)
    (str_lower : string -> string) (all_videos : list Video.t) (all_movies : list Movie.t)
    (o : operation) (w : world) :
  all_videos <> [] ->
  music_pool w ⊆ video_indices all_videos ->
  is_music_operation o = true ->
  exists i,
    pool_step (video_indices all_videos) (music_pool w)
      (music_pool (run_operation partial_ratio str_lower all_videos all_movies o w)) i.
Proof.
  intros Hv Hmusic Hop. destruct o as [weather_desc k | k | k]; [| |discriminate];
    cbn [run_operation].
  - destruct (find_and_recommend_music_selects partial_ratio str_lower all_videos
                weather_desc k w Hv) as (sel & text & Hsel & ->). cbn [snd].
    destruct (music_pool_step all_videos w sel Hv Hmusic Hsel) as (_ & Hstep & _).
    by exists (Video.index sel).
  - destruct (random_music_recommendation_eq all_videos k w Hv)
      as (sel & text & Hsel & ->). cbn [snd].
    apply list_elem_of_lookup_2 in Hsel.
    destruct (music_pool_step all_videos w sel Hv Hmusic Hsel) as (_ & Hstep & _).
    by exists (Video.index sel).
Qed.

Lemma music_pool_grows (partial_ratio : string -> string -> Z)
    (str_lower : string -> string) (all_videos : list Video.t) (all_movies : list Movie.t)
    (ops : list operation) (w : world) :
  all_videos <> [] ->
  music_pool w ⊆ video_indices all_videos ->
  Forall (fun o => is_music_operation o = true) ops ->
  (size (music_pool w) + List.length ops <= size (video_indices all_videos))%nat ->
  music_pool (run_operations partial_ratio str_lower all_videos all_movies ops w)
    ⊆ video_indices all_videos
  /\ size (music_pool (run_operations partial_ratio str_lower all_videos all_movies ops w))
     = (size (music_pool w) + List.length ops)%nat.
Proof.
  intros Hv. revert w. induction ops as [|o ops IH]; intros w Hsub Hops Hsize.
  - cbn. split; [done | lia].
  - apply Forall_cons in Hops as [Ho Hops].
    change (run_operations partial_ratio str_lower all_videos all_movies (o :: ops) w)
      with (run_operations partial_ratio str_lower all_videos all_movies ops
              (run_operation partial_ratio str_lower all_videos all_movies o w)).
    destruct (run_music_operation_step partial_ratio str_lower all_videos all_movies o w
                Hv Hsub Ho) as [i Hstep].
    pose proof (pool_step_subseteq _ _ _ _ Hsub Hstep) as Hsub'.
    assert (size (music_pool
                    (run_operation partial_ratio str_lower all_videos all_movies o w))
            = S (size (music_pool w))) as Hs.
    { destruct Hstep as [Hi [(Hne & Hnot & ->) | [Heq _]]].
      - rewrite size_union by set_solver. rewrite size_singleton. lia.
      - rewrite Heq in Hsize. cbn [List.length] in Hsize. lia. }
    destruct (IH _ Hsub') as [H1 H2]; [done | cbn [List.length] in Hsize; lia |].
    split; [exact H1|]. rewrite H2, Hs. cbn [List.length]. lia.
Qed.

(** X12.  From an empty pool, as many music recommendations as the catalogue
    has indices, fuzzy or random in any mix, recommend every index exactly
    once: after [m] of them, [m] not above the number of indices, the pool
    holds [m] indices, and after as many as there are indices it holds them
    all. *)
Theorem music_pool_fills_without_repeat (partial_ratio : string -> string -> Z)
    (str_lower : string -> string) (all_videos : list Video.t) (all_movies : list Movie.t)
    (ops : list operation) (w0 : world) :
  all_videos <> [] ->
  music_pool w0 = ∅ ->
  Forall (fun o => is_music_operation o = true) ops ->
  (List.length ops <= size (video_indices all_videos))%nat ->
  let w := run_operations partial_ratio str_lower all_videos all_movies ops w0 in
  size (music_pool w) = List.length ops
  /\ (List.length ops = size (video_indices all_videos) ->
      music_pool w = video_indices all_videos).
Proof.
  intros Hv H0 Hops Hlen w.
  destruct (music_pool_grows partial_ratio str_lower all_videos all_movies ops w0 Hv)
    as [Hsub Hsize]; try done.
  { rewrite H0. set_solver. }
  { rewrite H0, size_empty. lia. }
  rewrite H0, size_empty in Hsize. fold w in Hsub, Hsize.
  split; [exact Hsize|].
  intros Hfull. apply set_subseteq_size_eq; [done | lia].
Qed.

Lemma music_pool_fills_without_repeat_witness :
  Demo.videos <> [] /\ music_pool Demo.fresh_world = ∅
  /\ music_pool
       (run_operations Demo.partial_ratio Demo.str_lower Demo.videos Demo.movies
          [RandomMusicRecommendation 5; FindAndRecommendMusic "abcdefghij" 1;
           RandomMusicRecommendation 0] Demo.fresh_world)
     = video_indices Demo.videos.
Proof.
  assert (Demo.videos <> []) as Hv by discriminate.
  assert (music_pool Demo.fresh_world = ∅) as H0 by reflexivity.
  split; [exact Hv|]. split; [exact H0|].
  refine (proj2 (music_pool_fills_without_repeat Demo.partial_ratio Demo.str_lower
                   Demo.videos Demo.movies
                   [RandomMusicRecommendation 5; FindAndRecommendMusic "abcdefghij" 1;
                    RandomMusicRecommendation 0] Demo.fresh_world Hv H0 _ _) _).
  - repeat constructor.
  - vm_compute. lia.
  - vm_compute. reflexivity.
Defined.

Lemma random_movie_recommendation_remaining_witness :
  Demo.movies <> [] /\ movie_pool Demo.fresh_world ⊆ movie_indices Demo.movies
  /\ exists movie remaining w',
       random_movie_recommendation Demo.movies 0 Demo.fresh_world
       = (Returned (Movie.title movie, Some (Movie.poster_url movie), remaining), w')
       /\ (0 <= remaining < 2)%Z.
Proof.
  assert (Demo.movies <> []) as Hm by discriminate.
  assert (movie_pool Demo.fresh_world ⊆ movie_indices Demo.movies) as Hsub
    by (intros x Hx; by apply elem_of_empty in Hx).
  split; [exact Hm|]. split; [exact Hsub|].
  destruct (random_movie_recommendation_remaining Demo.movies 0 Demo.fresh_world Hm Hsub)
    as (movie & remaining & w' & _ & Heq & _ & Hrange).
  exists movie, remaining, w'. split; [exact Heq | exact Hrange].
Defined.

(** ** The temperatures *)

Section Temperature.

Context (strptime : string -> option datetime).

Local Abbreviation covering_period_ := (covering_period strptime).
Local Abbreviation temperature_ := (temperature strptime).


End Temperature.


(** ** The loaders *)

Lemma strip_prefix_some (p s r : string) :
  Str.strip_prefix p s = Some r <-> s = p ++ r.
Proof.
  revert s. induction p as [|a p IH]; intros s; simpl.
  - split; [intros [= ->] | intros ->]; reflexivity.
  - destruct s as [|b s]; [split; discriminate|].
    destruct (Ascii.eqb_spec a b) as [->|Hne].
    + rewrite IH. split; [intros -> | intros [= ->]]; reflexivity.
    + split; [discriminate | intros [= <- _]; done].
Qed.

Lemma startswith_contains (sub s : string) :
  Str.startswith s sub = true -> Str.contains sub s = true.
Proof. intros H. destruct s; simpl; by rewrite H. Qed.

Lemma listdir_movie (fs : filesystem) (name : string) :
  name ∈ listdir fs MOVIE_POSTER_LOCAL_DIR
  <-> name <> "" /\ Str.contains "/" name = false /\ is_Some (fs !! ("movie/" ++ name)).
Proof.
  unfold listdir. rewrite list_elem_of_omap. split.
  - intros ([path entry] & Hin & Hname).
    apply elem_of_map_to_list in Hin.
    destruct (Str.strip_prefix (MOVIE_POSTER_LOCAL_DIR ++ "/") path) as [r|] eqn:Hr;
      [|discriminate].
    apply strip_prefix_some in Hr. subst path.
    destruct (Str.truthy r) eqn:Ht; [|discriminate].
    destruct (Str.contains "/" r) eqn:Hc; [discriminate|].
    injection Hname as <-. split; [by destruct r|]. split; [done|]. by exists entry.
  - intros (Hne & Hc & [entry Hentry]).
    exists ("movie/" ++ name, entry). split; [by apply elem_of_map_to_list|].
    assert (Str.strip_prefix (MOVIE_POSTER_LOCAL_DIR ++ "/") ("movie/" ++ name) = Some name)
      as -> by (by apply strip_prefix_some).
    rewrite Hc. by destruct name.
Qed.

Lemma join_movie (name : string) :
  Str.contains "/" name = false -> os_path.join MOVIE_POSTER_LOCAL_DIR name = "movie/" ++ name.
Proof.
  intros Hc. unfold os_path.join.
  destruct (Str.startswith name "/") eqn:Hs; [|reflexivity].
  apply startswith_contains in Hs. congruence.
Qed.

Lemma existsb_elem_of {A} (f : A -> bool) (l : list A) :
  existsb f l = true <-> exists x, x ∈ l /\ f x = true.
Proof.
  rewrite existsb_exists. split; intros (x & Hx & Hf); exists x; split; try done;
    by apply list_elem_of_In.
Qed.

(** X14.  [get_movie_poster_urls] never raises, fetches nothing and leaves
    the session alone.  The movies it returns are exactly the regular files
    directly under the folder [movie], itself a directory, whose name in lower
    case ends with one of the four image extensions; each has the path of its
    file as poster and the name up to its last dot as title.  It warns once
    when it returns none, and not at all otherwise. *)
Theorem get_movie_poster_urls_spec (str_lower : string -> string) (fs : filesystem)
    (w : world) :
  exists movies w',
    get_movie_poster_urls str_lower fs w = (Returned movies, w')
    /\ session w' = session w /\ requests w' = requests w
    /\ (movies = [] -> exists msg, page w' = (page w ++ [Warning msg])%list)
    /\ (movies <> [] -> page w' = page w)
    /\ forall movie,
         movie ∈ movies
         <-> fs !! "movie" = Some Directory
             /\ exists name contents,
                  name <> "" /\ Str.contains "/" name = false
                  /\ fs !! ("movie/" ++ name) = Some (RegularFile contents)
                  /\ (exists ext, ext ∈ IMAGE_EXTENSIONS
                                  /\ Str.endswith (str_lower name) ext = true)
                  /\ movie = {| Movie.title := default name (before_last "." name);
                                Movie.poster_url := "movie/" ++ name |}.
Proof.
  unfold get_movie_poster_urls.
  match goal with
  | |- context [bool_decide (?l = [])] => set (found := l)
  end.
  assert (forall movie,
            movie ∈ found
            <-> exists name contents,
                  name <> "" /\ Str.contains "/" name = false
                  /\ fs !! ("movie/" ++ name) = Some (RegularFile contents)
                  /\ (exists ext, ext ∈ IMAGE_EXTENSIONS
                                  /\ Str.endswith (str_lower name) ext = true)
                  /\ movie = {| Movie.title := default name (before_last "." name);
                                Movie.poster_url := "movie/" ++ name |}) as Hfound.
  { intros movie. subst found. rewrite list_elem_of_omap. split.
    - intros (name & Hin & Hm). apply listdir_movie in Hin as (Hne & Hc & _).
      rewrite (join_movie name Hc) in Hm. unfold isfile in Hm.
      destruct (fs !! ("movie/" ++ name)) as [[contents|]|] eqn:Hfile; try discriminate.
      cbn [andb] in Hm.
      destruct (existsb _ IMAGE_EXTENSIONS) eqn:Hext; [|discriminate].
      injection Hm as <-. apply existsb_elem_of in Hext.
      by exists name, contents.
    - intros (name & contents & Hne & Hc & Hfile & Hext & ->).
      exists name. split; [apply listdir_movie; by rewrite Hfile|].
      rewrite (join_movie name Hc). unfold isfile. rewrite Hfile. cbn [andb].
      assert (existsb (fun ext => Str.endswith (str_lower name) ext) IMAGE_EXTENSIONS
              = true) as -> by (apply existsb_elem_of; exact Hext).
      reflexivity. }
  clearbody found.
  unfold isdir. destruct (fs !! MOVIE_POSTER_LOCAL_DIR) as [[contents|]|] eqn:Hdir;
    cbn [negb].
  1, 3: eexists [], _; split; [reflexivity|];
        split; [reflexivity|]; split; [reflexivity|];
        split; [intros _; eexists; reflexivity|]; split; [done|];
        intros movie; split; [intros H; by apply elem_of_nil in H|];
        intros [Hd _]; unfold MOVIE_POSTER_LOCAL_DIR in Hdir; congruence.
  destruct (bool_decide (found = [])) eqn:Hempty.
  - apply bool_decide_eq_true_1 in Hempty.
    eexists [], _. split; [reflexivity|].
    split; [reflexivity|]. split; [reflexivity|].
    split; [intros _; eexists; reflexivity|]. split; [done|].
    intros movie. split; [intros H; by apply elem_of_nil in H|].
    intros [_ H]. apply Hfound in H. rewrite Hempty in H. by apply elem_of_nil in H.
  - apply bool_decide_eq_false_1 in Hempty.
    eexists found, _. split; [reflexivity|].
    split; [reflexivity|]. split; [reflexivity|].
    split; [done|]. split; [done|].
    intros movie. rewrite Hfound. split; [intros H; split; [exact Hdir | exact H] | by intros [_ H]].
Qed.

(** Of the sample folder only the poster directly under [movie] is kept,
    not the text file, the sub-folder or what the sub-folder holds. *)
Example get_movie_poster_urls_sample :
  (get_movie_poster_urls Demo.str_lower Samples.poster_files Demo.fresh_world).1
  = Returned [ {| Movie.title := "Alien"; Movie.poster_url := "movie/Alien.jpg" |} ].
Proof. vm_compute. reflexivity. Qed.

Lemma video_of_row_some (py_str : value -> string) (str_strip : string -> string)
    (row : excel_row) (video : Video.t) :
  video_of_row py_str str_strip row = Some video ->
  Video.index video = row_label row /\ Video.url video <> "" /\ Video.desc video <> "".
Proof.
  unfold video_of_row.
  destruct (Str.truthy (str_strip (str py_str (default (VStr "") (row_url row))))) eqn:Hurl;
    [|discriminate].
  destruct (Str.truthy (str_strip (str py_str (default (VStr "") (row_desc row))))) eqn:Hdesc;
    [|discriminate].
  cbn [andb]. intros [= <-]. cbn.
  split; [reflexivity|]. split; intros Heq; rewrite Heq in *; discriminate.
Qed.

Lemma omap_video_of_row (py_str : value -> string) (str_strip : string -> string)
    (df : list excel_row) :
  Forall (fun video => Video.url video <> "" /\ Video.desc video <> "")
         (omap (video_of_row py_str str_strip) df)
  /\ sublist (Video.index <$> omap (video_of_row py_str str_strip) df) (row_label <$> df).
Proof.
  induction df as [|row df [IHf IHs]]; [split; constructor|].
  cbn [omap list_omap fmap list_fmap].
  destruct (video_of_row py_str str_strip row) as [video|] eqn:Hrow.
  - destruct (video_of_row_some _ _ _ _ Hrow) as (Hi & Hu & Hd).
    split; [by constructor|]. cbn [fmap list_fmap]. rewrite Hi. by constructor.
  - split; [exact IHf | by constructor].
Qed.

(** X15.  [initialize_videos] never raises, fetches nothing and leaves the
    session alone.  When the sheet is read, every video it returns has a
    link and a description that are not empty, the indices of the videos are
    labels of rows of the sheet in the order of the sheet, hence distinct
    when the labels are, and nothing is shown; a sheet without the link
    column or without the description column gives no video at all, silently,
    when stripping the empty text gives the empty text.  When reading
    fails, it returns no video and shows one error. *)
Theorem initialize_videos_spec (py_str : value -> string) (exn_str : exn -> string)
    (str_strip : string -> string) (read_excel : string -> py_result (list excel_row))
    (excel_path : string) (w : world) :
  exists videos w',
    initialize_videos py_str exn_str str_strip read_excel excel_path w
    = (Returned videos, w')
    /\ session w' = session w /\ requests w' = requests w
    /\ Forall (fun video => Video.url video <> "" /\ Video.desc video <> "") videos
    /\ match read_excel excel_path with
       | Returned df =>
           page w' = page w
           /\ sublist (Video.index <$> videos) (row_label <$> df)
           /\ (NoDup (row_label <$> df) -> NoDup (Video.index <$> videos))
           /\ (str_strip "" = "" ->
               Forall (fun row => row_url row = None) df
               \/ Forall (fun row => row_desc row = None) df ->
               videos = [])
       | Raised e => videos = [] /\ exists msg, page w' = (page w ++ [Error msg])%list
       end.
Proof.
  unfold initialize_videos. destruct (read_excel excel_path) as [df|e].
  - destruct (omap_video_of_row py_str str_strip df) as [Hf Hs].
    eexists _, _. split; [reflexivity|].
    split; [reflexivity|]. split; [reflexivity|]. split; [exact Hf|].
    split; [reflexivity|]. split; [exact Hs|].
    split; [intros Hnd; by eapply sublist_NoDup|].
    intros Hstrip Hcols.
    assert (Forall (fun row => video_of_row py_str str_strip row = None) df) as Hnone.
    { destruct Hcols as [Hcol | Hcol]; eapply Forall_impl; try exact Hcol;
        intros row Hrow; cbn beta in Hrow; unfold video_of_row; rewrite Hrow;
        cbn [default from_option id str fmt]; rewrite Hstrip; cbn [Str.truthy andb];
        [reflexivity | by rewrite andb_false_r]. }
    clear -Hnone. induction Hnone as [|row df Hrow _ IH]; [reflexivity|].
    cbn [omap list_omap]. by rewrite Hrow.
  - destruct e; (eexists [], _; split; [reflexivity|];
      split; [reflexivity|]; split; [reflexivity|]; split; [constructor|];
      split; [reflexivity | eexists; reflexivity]).
Qed.

(** Of the three sample rows the one without a link is dropped, and the one
    without a title takes the first word of its description. *)
Example initialize_videos_sample :
  (initialize_videos Demo.py_str Demo.exn_str Demo.str_strip
     (fun _ => Returned Samples.excel_rows) EXCEL_FILE_PATH Demo.fresh_world).1
  = Returned
      [ {| Video.index := 0; Video.url := "https://youtu.be/aaaaaaaaaaa";
           Video.desc := "rain,cloud"; Video.title := "A" |};
        {| Video.index := 2; Video.url := "https://youtu.be/ccccccccccc";
           Video.desc := "sun"; Video.title := "sun" |} ].
Proof. vm_compute. reflexivity. Qed.

(** X16.  [load_local_image_as_base64] never raises, fetches nothing and
    leaves the session alone.  It returns an image element exactly when the
    path is not empty and names a regular file, and the element then carries
    the encoded contents of that file; for a directory it returns nothing and
    shows one warning; otherwise it shows nothing. *)
Theorem load_local_image_as_base64_spec (exn_str : exn -> string)
    (str_lower b64encode : string -> string) (fs : filesystem) (image_path : string)
    (width height : option Z) (w : world) :
  exists html w',
    load_local_image_as_base64 exn_str str_lower b64encode fs image_path width height w
    = (Returned html, w')
    /\ session w' = session w /\ requests w' = requests w
    /\ (is_Some html <-> image_path <> "" /\ isfile fs image_path = true)
    /\ (forall tag contents,
          html = Some tag -> fs !! image_path = Some (RegularFile contents) ->
          exists media style,
            tag = "<img src=" ++ double_quote ++ "data:image/" ++ media ++ ";base64,"
                    ++ b64encode contents ++ double_quote ++ " alt=" ++ double_quote
                    ++ "圖片" ++ double_quote ++ " style=" ++ double_quote ++ style
                    ++ double_quote ++ ">"
            /\ (media = "jpeg" <->
                str_lower (after_last image_path ".") = "jpg"
                \/ str_lower (after_last image_path ".") = "jpeg"))
    /\ (if Str.truthy image_path && isdir fs image_path
        then exists msg, page w' = (page w ++ [Warning msg])%list
        else page w' = page w).
Proof.
  unfold load_local_image_as_base64, os_path.exists_, read_binary, isfile, isdir.
  destruct image_path as [|c path] eqn:Hpath.
  { cbn [Str.truthy negb orb andb]. eexists None, _. split; [reflexivity|].
    split; [reflexivity|]. split; [reflexivity|].
    split; [split; [intros [? [=]] | intros [[] _]; reflexivity]|].
    split; [discriminate | reflexivity]. }
  rewrite <- Hpath. assert (image_path <> "") as Hne by (rewrite Hpath; discriminate).
  assert (Str.truthy image_path = true) as -> by (rewrite Hpath; reflexivity).
  clear Hpath. cbn [negb orb andb].
  destruct (fs !! image_path) as [[contents|]|] eqn:Hfile.
  - rewrite bool_decide_eq_true_2 by eauto. cbn [negb].
    eexists (Some _), _. split; [reflexivity|].
    split; [reflexivity|]. split; [reflexivity|].
    split; [split; [done | by eauto]|].
    split; [|reflexivity].
    intros tag contents' [= <-] [= <-].
    exists (if String.eqb (str_lower (after_last image_path ".")) "jpg" then "jpeg"
            else str_lower (after_last image_path ".")).
    eexists. split.
    + unfold double_quote. cbn [String.append]. reflexivity.
    + destruct (String.eqb_spec (str_lower (after_last image_path ".")) "jpg") as [->|Hj].
      * split; [by left | reflexivity].
      * split; [by right | intros [? | ?]; congruence].
  - rewrite bool_decide_eq_true_2 by eauto. cbn [negb].
    eexists None, _. split; [reflexivity|].
    split; [reflexivity|]. split; [reflexivity|].
    split; [split; [intros [? [=]] | intros [_ [=]]]|].
    split; [discriminate|]. eexists. reflexivity.
  - rewrite bool_decide_eq_false_2 by (intros [? [=]]). cbn [negb].
    eexists None, _. split; [reflexivity|].
    split; [reflexivity|]. split; [reflexivity|].
    split; [split; [intros [? [=]] | intros [_ [=]]]|].
    split; [discriminate | reflexivity].
Qed.

(** ** The correction table and the known cities *)

Lemma MANUAL_CORRECTIONS_values :
  map_Forall (fun k v => MANUAL_CORRECTIONS !! v = None
                         /\ bool_decide (v ∈ default_location_names)
                            = negb (String.eqb k "台東市"))
    MANUAL_CORRECTIONS.
Proof. apply (bool_decide_unpack _). vm_compute. exact I. Qed.

Lemma existsb_eq_str (name : string) (location_names : list value) :
  existsb (fun x => Py.eq_str x name) location_names = true <-> VStr name ∈ location_names.
Proof.
  rewrite existsb_elem_of. split.
  - intros (x & Hx & Heq). destruct x; try discriminate.
    simpl in Heq. apply String.eqb_eq in Heq. by subst.
  - intros H. exists (VStr name). split; [exact H|]. simpl. apply String.eqb_refl.
Qed.

(** X17.  The city a query settles on is never a key of the correction
    table, so matching it again changes nothing: it is matched, to itself,
    exactly when it is one of the known names.  A corrected name is one of the
    22 built-in names for every key of the table but one: the key [台東市] is
    corrected to [臺東市], which is none of them. *)
Theorem matched_city_of_stable (city_input matched : string) (location_names : list value) :
  matched_city_of city_input location_names = Some matched ->
  MANUAL_CORRECTIONS !! matched = None
  /\ (matched_city_of matched location_names = Some matched
      <-> VStr matched ∈ location_names)
  /\ (matched_city_of matched location_names = None
      <-> VStr matched ∉ location_names)
  /\ (is_Some (MANUAL_CORRECTIONS !! city_input) ->
      matched ∈ default_location_names <-> city_input <> "台東市").
Proof.
  intros Hm.
  assert (MANUAL_CORRECTIONS !! matched = None) as Hnone.
  { unfold matched_city_of in Hm.
    destruct (MANUAL_CORRECTIONS !! city_input) as [v|] eqn:Hk.
    - injection Hm as <-. by destruct (MANUAL_CORRECTIONS_values city_input v Hk).
    - destruct (existsb _ location_names); [|discriminate]. by injection Hm as <-. }
  split; [exact Hnone|].
  pose proof (existsb_eq_str matched location_names) as Hex.
  unfold matched_city_of at 1 2. rewrite Hnone.
  destruct (existsb (fun name => Py.eq_str name matched) location_names) eqn:Hb.
  - assert (VStr matched ∈ location_names) as Hin by (by apply Hex).
    split; [done|]. split; [split; [discriminate | done]|].
    intros [v Hk]. unfold matched_city_of in Hm. rewrite Hk in Hm. injection Hm as ->.
    destruct (MANUAL_CORRECTIONS_values city_input matched Hk) as [_ Hdef].
    destruct (String.eqb_spec city_input "台東市") as [->|Hne]; cbn [negb] in Hdef.
    + apply bool_decide_eq_false_1 in Hdef. split; [done | done].
    + apply bool_decide_eq_true_1 in Hdef. split; done.
  - assert (VStr matched ∉ location_names) as Hin.
    { intros Hin. apply Hex in Hin. congruence. }
    split; [split; [discriminate | done]|]. split; [done|].
    intros [v Hk]. unfold matched_city_of in Hm. rewrite Hk in Hm. injection Hm as ->.
    destruct (MANUAL_CORRECTIONS_values city_input matched Hk) as [_ Hdef].
    destruct (String.eqb_spec city_input "台東市") as [->|Hne]; cbn [negb] in Hdef.
    + apply bool_decide_eq_false_1 in Hdef. split; done.
    + apply bool_decide_eq_true_1 in Hdef. split; done.
Qed.

Lemma matched_city_of_stable_witness :
  matched_city_of "台東市" (VStr <$> default_location_names) = Some "臺東市"
  /\ matched_city_of "臺東市" (VStr <$> default_location_names) = None.
Proof.
  assert (matched_city_of "台東市" (VStr <$> default_location_names) = Some "臺東市") as H
    by (vm_compute; reflexivity).
  split; [exact H|].
  destruct (matched_city_of_stable "台東市" "臺東市" (VStr <$> default_location_names) H)
    as (_ & _ & Hnone & Hdef).
  apply Hnone. intros Hin. apply list_elem_of_fmap in Hin as (name & [= <-] & Hin).
  apply Hdef in Hin; [done|]. vm_compute. eauto.
Defined.

(** ** A run of the script *)

Section MainRuns.

Context (strptime : string -> option datetime) (now : Z)
        (py_str : value -> string) (exn_str : exn -> string)
        (http_get_json : string -> py_result value)
        (partial_ratio ratio : string -> string -> Z)
        (str_lower str_strip b64encode : string -> string)
        (read_excel : string -> py_result (list excel_row))
        (read_csv : string -> py_result (list (string * value)))
        (fs : filesystem) (secrets : gmap string string).

Local Abbreviation main_ :=
  (main strptime now py_str exn_str http_get_json partial_ratio ratio str_lower str_strip
     b64encode read_excel read_csv fs secrets).

Lemma returns_initialize_videos (excel_path : string) :
  returns (initialize_videos py_str exn_str str_strip read_excel excel_path).
Proof. unfold initialize_videos. returns_all. Qed.

Lemma returns_get_movie_poster_urls : returns (get_movie_poster_urls str_lower fs).
Proof. unfold get_movie_poster_urls. returns_all. Qed.

Lemma returns_load_weather_codes (csv_path : string) :
  returns (load_weather_codes exn_str read_csv fs csv_path).
Proof. unfold load_weather_codes. returns_all. Qed.



End MainRuns.



(** ** The code of a weather description *)

Section WeatherCode.

Context (ratio : string -> string -> Z) (str_lower : string -> string).

Local Abbreviation closest_code_ := (closest_code ratio str_lower).
Local Abbreviation likeness s d := (ratio (str_lower s) (str_lower d)).

Lemma exact_code_absent (s : string) (items : list (string * value)) :
  s ∉ items.*1 -> exact_code (VStr s) items = VNone.
Proof.
  induction items as [|[d c] items IH]; intros Hs; [reflexivity|].
  cbn [exact_code Py.eq_str]. cbn [fmap list_fmap fst] in Hs.
  apply not_elem_of_cons in Hs as [Hne Hs].
  destruct (String.eqb_spec s d) as [->|_]; [done | by apply IH].
Qed.

Lemma closest_code_cases (s : string) (items : list (string * value)) (highest : Z)
    (code0 code : value) :
  closest_code_ (VStr s) items highest code0 = Returned code ->
  (code = code0 /\ Forall (fun item => (likeness s item.1 <= highest)%Z) items)
  \/ exists before d after,
       items = (before ++ (d, code) :: after)%list
       /\ (highest < likeness s d)%Z
       /\ Forall (fun item => (likeness s item.1 < likeness s d)%Z) before
       /\ Forall (fun item => (likeness s item.1 <= likeness s d)%Z) after.
Proof.
  revert highest code0. induction items as [|[d1 c1] items IH]; intros highest code0 H.
  - injection H as <-. left. split; [reflexivity | constructor].
  - cbn [closest_code lower mbind py_bind] in H.
    destruct (Z.ltb_spec highest (likeness s d1)) as [Hlt|Hge].
    + destruct (IH _ _ H) as [[-> Hall] | (before & d & after & -> & Hd & Hb & Ha)].
      * right. exists [], d1, items. split; [reflexivity|].
        split; [exact Hlt|]. split; [constructor | exact Hall].
      * right. exists ((d1, c1) :: before), d, after. split; [reflexivity|].
        split; [lia|]. split; [|exact Ha]. constructor; [exact Hd | exact Hb].
    + destruct (IH _ _ H) as [[-> Hall] | (before & d & after & -> & Hd & Hb & Ha)].
      * left. split; [reflexivity|]. constructor; [exact Hge | exact Hall].
      * right. exists ((d1, c1) :: before), d, after. split; [reflexivity|].
        split; [exact Hd|]. split; [|exact Ha]. constructor; [cbn; lia | exact Hb].
Qed.


End WeatherCode.


(** X21.  [load_weather_codes] never raises, fetches nothing and leaves the
    session alone.  It shows nothing when the file exists and is read; when
    the file does not exist, or reading it fails, it returns the empty table
    and shows one error. *)
Theorem load_weather_codes_spec (exn_str : exn -> string)
    (read_csv : string -> py_result (list (string * value))) (fs : filesystem)
    (csv_path : string) (w : world) :
  exists codes w',
    load_weather_codes exn_str read_csv fs csv_path w = (Returned codes, w')
    /\ session w' = session w /\ requests w' = requests w
    /\ (if os_path.exists_ fs csv_path && is_returned (read_csv csv_path)
        then page w' = page w
        else codes = [] /\ exists msg, page w' = (page w ++ [Error msg])%list).
Proof.
  unfold load_weather_codes.
  destruct (os_path.exists_ fs csv_path); cbn [negb andb].
  - destruct (read_csv csv_path) as [rows|e]; cbn [is_returned];
      eexists _, _; (split; [reflexivity|]); (split; [reflexivity|]);
      (split; [reflexivity|]); [reflexivity|].
    split; [reflexivity | eexists; reflexivity].
  - eexists _, _. split; [reflexivity|]. split; [reflexivity|]. split; [reflexivity|].
    split; [reflexivity | eexists; reflexivity].
Qed.

(** ** A run without a button *)

Lemma app_bind_returned_inv {A B} (m : app A) (f : A -> app B) (w w' : world) (b : B) :
  (m ≫= f) w = (Returned b, w') ->
  exists a w1, m w = (Returned a, w1) /\ f a w1 = (Returned b, w').
Proof.
  unfold mbind, app_bind. destruct (m w) as [[a|e] w1]; [eauto | discriminate].
Qed.

Section IdleRun.

Context (strptime : string -> option datetime) (now : Z)
        (py_str : value -> string) (exn_str : exn -> string)
        (http_get_json : string -> py_result value)
        (partial_ratio ratio : string -> string -> Z)
        (str_lower str_strip b64encode : string -> string)
        (read_excel : string -> py_result (list excel_row))
        (read_csv : string -> py_result (list (string * value)))
        (fs : filesystem) (secrets : gmap string string).

Local Abbreviation main_ :=
  (main strptime now py_str exn_str http_get_json partial_ratio ratio str_lower str_strip
     b64encode read_excel read_csv fs secrets).

Lemma preserves_read_API_KEY {B} (proj : session_state -> B) :
  preserves proj (read_API_KEY secrets).
Proof. unfold read_API_KEY. preserves_all. Qed.

Lemma preserves_set_background {B} (proj : session_state -> B) (image_file : string) :
  preserves proj (set_background b64encode fs image_file).
Proof. unfold set_background. preserves_all. Qed.

Lemma preserves_get_location_names {B} (proj : session_state -> B)
    (API_KEY : option string) :
  preserves proj (get_location_names exn_str http_get_json API_KEY).
Proof. unfold get_location_names. preserves_all. Qed.

Lemma preserves_initialize_videos {B} (proj : session_state -> B) (excel_path : string) :
  preserves proj (initialize_videos py_str exn_str str_strip read_excel excel_path).
Proof. unfold initialize_videos. preserves_all. Qed.

Lemma preserves_get_movie_poster_urls {B} (proj : session_state -> B) :
  preserves proj (get_movie_poster_urls str_lower fs).
Proof. unfold get_movie_poster_urls. preserves_all. Qed.

Lemma preserves_load_weather_codes {B} (proj : session_state -> B) (csv_path : string) :
  preserves proj (load_weather_codes exn_str read_csv fs csv_path).
Proof. unfold load_weather_codes. preserves_all. Qed.

(** X22.  A run in which no button is pressed and that ends normally changes
    the session only on the first run of a session, when it sets every field
    to its initial value: no text, no video, no poster, no image, two empty
    sets of recommended entries.  It then shows the invitation to use the
    sidebar; on a later run it shows again the text the session holds, and
    the invitation only if that text is empty. *)
Theorem main_idle_run (city_input : string) (k : nat) (w : world) :
  (main_ city_input None k w).1 = Returned tt ->
  session (main_ city_input None k w).2
  = (if initialized (session w) then session w
     else {| result_text := "";
             recommended_youtube_id := None;
             recommended_image_url := None;
             recommended_music_original_indices := Some ∅;
             recommended_movie_indices := Some ∅;
             recommended_weather_image_html := None;
             weather_image_caption_desc := VNone;
             initialized := true |})
  /\ Info (if initialized (session w) && Str.truthy (result_text (session w))
           then result_text (session w) else "試試左邊功能吧！")
     ∈ page (main_ city_input None k w).2.
Proof.
  intros H. destruct (main_ city_input None k w) as [r w'] eqn:Hm.
  cbn [fst snd] in *. subst r. unfold main in Hm.
  apply app_bind_returned_inv in Hm as (API_KEY & w1 & H1 & Hm).
  apply app_bind_returned_inv in Hm as ([] & w2 & H2 & Hm).
  apply app_bind_returned_inv in Hm as (location_names & w3 & H3 & Hm).
  apply app_bind_returned_inv in Hm as (all_videos & w4 & H4 & Hm).
  apply app_bind_returned_inv in Hm as (movie_poster_urls & w5 & H5 & Hm).
  apply app_bind_returned_inv in Hm as (loaded_weather_codes & w6 & H6 & Hm).
  assert (session w6 = session w) as Hs.
  { pose proof (preserves_read_API_KEY id w) as P1. rewrite H1 in P1.
    pose proof (preserves_set_background id "background.jpg" w1) as P2. rewrite H2 in P2.
    pose proof (preserves_get_location_names id API_KEY w2) as P3. rewrite H3 in P3.
    pose proof (preserves_initialize_videos id EXCEL_FILE_PATH w3) as P4. rewrite H4 in P4.
    pose proof (preserves_get_movie_poster_urls id w4) as P5. rewrite H5 in P5.
    pose proof (preserves_load_weather_codes id WEATHER_CODES_FILE_PATH w5) as P6.
    rewrite H6 in P6. cbn [snd id] in *. congruence. }
  rewrite <- Hs. clear -Hm. destruct w6 as [s p q]. cbn [session] in *.
  unfold mbind, app_bind, get_session, update_session, mret, app_ret, notify, with_session
    in Hm.
  cbn [session page requests] in Hm.
  destruct (initialized s) eqn:Hinit; cbn [andb].
  - cbn [session page requests] in Hm.
    destruct (Str.truthy (result_text s)); injection Hm as <-; cbn [session page];
      (split; [reflexivity|]); apply elem_of_app; right; left.
  - cbn in Hm. injection Hm as <-. cbn [session page].
    split; [reflexivity|]. apply elem_of_app; right; left.
Qed.

End IdleRun.

Lemma main_idle_run_witness :
  (main Demo.strptime Demo.now Demo.py_str Demo.exn_str
     (fun _ => Returned Demo.good_payload) Demo.partial_ratio Demo.ratio
     Demo.str_lower Demo.str_strip Demo.b64encode
     (fun _ => Returned []) (fun _ => Returned [])
     (<["background.jpg" := RegularFile "img"]> ∅) (<["API_KEY" := "KEY"]> ∅)
     "" None 0 Demo.fresh_world).1
  = Returned tt
  /\ session
       (main Demo.strptime Demo.now Demo.py_str Demo.exn_str
          (fun _ => Returned Demo.good_payload) Demo.partial_ratio Demo.ratio
          Demo.str_lower Demo.str_strip Demo.b64encode
          (fun _ => Returned []) (fun _ => Returned [])
          (<["background.jpg" := RegularFile "img"]> ∅) (<["API_KEY" := "KEY"]> ∅)
          "" None 0 Demo.fresh_world).2
     = session Demo.fresh_world.
Proof.
  assert ((main Demo.strptime Demo.now Demo.py_str Demo.exn_str
             (fun _ => Returned Demo.good_payload) Demo.partial_ratio Demo.ratio
             Demo.str_lower Demo.str_strip Demo.b64encode
             (fun _ => Returned []) (fun _ => Returned [])
             (<["background.jpg" := RegularFile "img"]> ∅) (<["API_KEY" := "KEY"]> ∅)
             "" None 0 Demo.fresh_world).1
          = Returned tt) as H by (vm_compute; reflexivity).
  split; [exact H|].
  exact (proj1 (main_idle_run Demo.strptime Demo.now Demo.py_str Demo.exn_str
                  (fun _ => Returned Demo.good_payload) Demo.partial_ratio Demo.ratio
                  Demo.str_lower Demo.str_strip Demo.b64encode
                  (fun _ => Returned []) (fun _ => Returned [])
                  (<["background.jpg" := RegularFile "img"]> ∅) (<["API_KEY" := "KEY"]> ∅)
                  "" 0 Demo.fresh_world H)).
Defined.
